(** * Website price tracker: extraction, normalisation, plausibility, scheduling

    A shallow embedding of [website_price_tracker/app/app.py] (and of its
    older sibling [jura_s8_price_addon/app/app.py], whose extractor and
    normaliser are the same functions): [try_float], [normalize_euro],
    [PRICE_RE], [extract_price], the per-site body of [App.scrape_once],
    the option coercions of [App.__init__], and the force-refresh scheduler
    made of [_apply_force_request], [_wait_for_force] and [loop].  It also
    covers the run time, the names and the sites that [App.__init__]
    reads, the calendar wait of [loop], [_parse_level] of
    [logging_utils], and [scrape_once] of the older add-on.

    Python values are modelled as follows.
    - [str] is a list of Unicode code points.  The character classes are
      tabulated for U+0000..U+00FF and for the whitespace code points above;
      any other code point counts as a symbol (no digit, no letter).
    - [float] is IEEE-754 binary64, as [SpecFloat.spec_float] with precision
      53 and maximal exponent 1024, with round-to-nearest-even.
    - a raised exception is a value [Raise e] of the result type [py].
    - what the runtime library decides (the shortest [repr] of a float, the
      [repr] of a container, the [%g] format) is a field of [Builtins]. *)

From Stdlib Require Import ZArith NArith List Bool Lia String Ascii.
From Stdlib Require Import SpecFloat DecimalString Permutation Sorted.
From Stdlib Require Import DecimalPos.
Import ListNotations.

(** ** Exceptions *)

Inductive exn : Type :=
| ValueError
| AttributeError
| KeyError
| TypeError
| TransportError.

Inductive py (A : Type) : Type :=
| Ret (a : A)
| Raise (e : exn).

Arguments Ret {A} a.
Arguments Raise {A} e.

Definition bind {A B : Type} (m : py A) (k : A -> py B) : py B :=
  match m with
  | Ret a => k a
  | Raise e => Raise e
  end.

Notation "x <- m ;; k" := (bind m (fun x => k))
  (at level 61, m at next level, right associativity).

(** ** Text *)

Module PyText.

Definition char : Type := N.
Definition text : Type := list char.

Definition u (s : string) : text := map N_of_ascii (list_ascii_of_string s).

(** U+20AC EURO SIGN and U+0022 QUOTATION MARK. *)
Definition euro : char := 8364%N.
Definition dq : char := 34%N.

Definition between (lo hi c : N) : bool := (lo <=? c)%N && (c <=? hi)%N.

(** [str.isspace] on one character, which is also the regex class [\s]. *)
Definition is_space (c : char) : bool :=
  between 9 13 c || between 28 32 c || (c =? 133)%N || (c =? 160)%N
  || (c =? 5760)%N || between 8192 8202 c || (c =? 8232)%N
  || (c =? 8233)%N || (c =? 8239)%N || (c =? 8287)%N || (c =? 12288)%N.

(** Decimal digits: the regex class [\d], and what [int] and [float]
    accept as a digit. *)
Definition is_decimal (c : char) : bool := between 48 57 c.

(** [str.isdigit] on one character: the decimal digits and the
    superscript digits U+00B2, U+00B3, U+00B9. *)
Definition is_digit_char (c : char) : bool :=
  is_decimal c || (c =? 178)%N || (c =? 179)%N || (c =? 185)%N.

(** The regex class [\w]: alphanumeric characters and the underscore. *)
Definition is_word (c : char) : bool :=
  is_decimal c || between 65 90 c || between 97 122 c || (c =? 95)%N
  || (c =? 170)%N || (c =? 181)%N || (c =? 186)%N
  || between 178 179 c || (c =? 185)%N || between 188 190 c
  || between 192 214 c || between 216 246 c || between 248 255 c.

Definition lower (c : char) : char :=
  if between 65 90 c then (c + 32)%N else c.

Fixpoint text_eqb (a b : text) : bool :=
  match a, b with
  | [], [] => true
  | x :: a', y :: b' => (x =? y)%N && text_eqb a' b'
  | _, _ => false
  end.

Fixpoint lstrip (s : text) : text :=
  match s with
  | c :: r => if is_space c then lstrip r else s
  | [] => []
  end.

Definition rstrip (s : text) : text := rev (lstrip (rev s)).

(** [s.strip()] *)
Definition strip (s : text) : text := rstrip (lstrip s).

(** [s.replace(c, by)] for a one-character [c]. *)
Definition replace (c : char) (by_ : text) (s : text) : text :=
  flat_map (fun x => if (x =? c)%N then by_ else [x]) s.

(** [c in s] *)
Definition contains (c : char) (s : text) : bool :=
  existsb (fun x => (x =? c)%N) s.

(** [s.find(c)]: the index of the first [c], or -1. *)
Fixpoint find_from (i : Z) (c : char) (s : text) : Z :=
  match s with
  | [] => (-1)%Z
  | x :: r => if (x =? c)%N then i else find_from (i + 1)%Z c r
  end.

Definition find (c : char) (s : text) : Z := find_from 0%Z c s.

(** [s.isdigit()] *)
Definition isdigit (s : text) : bool :=
  match s with
  | [] => false
  | _ => forallb is_digit_char s
  end.

(** [str(z)] for an [int]. *)
Definition str_of_Z (z : Z) : text := u (NilZero.string_of_int (Z.to_int z)).

Definition digit_value (c : char) : N := (c - 48)%N.

Fixpoint digits_value (acc : N) (ds : text) : N :=
  match ds with
  | [] => acc
  | d :: r => digits_value (acc * 10 + digit_value d)%N r
  end.

(** [int(s)] for a text on which [isdigit] holds: only decimal digits are
    accepted, any other digit character raises [ValueError]. *)
Definition py_int (s : text) : py Z :=
  match s with
  | [] => Raise ValueError
  | _ => if forallb is_decimal s then Ret (Z.of_N (digits_value 0%N s))
         else Raise ValueError
  end.

Definition period : char := 46%N.
Definition comma : char := 44%N.
Definition blank : char := 32%N.

End PyText.

Import PyText.

(** ** Floats *)

Module PyFloat.

Definition float : Type := spec_float.

Definition prec : Z := 53.
Definition emax : Z := 1024.

Definition fdiv (x y : float) : float := SFdiv prec emax x y.
Definition fle (x y : float) : bool := SFleb x y.
Definition flt (x y : float) : bool := SFltb x y.

(** The float nearest to an integer. *)
Definition of_Z (z : Z) : float := binary_normalize prec emax z 0 false.

Definition zero : float := S754_zero false.

(** [bool(x)], that is [x != 0.0]. *)
Definition truthy (x : float) : bool :=
  match x with
  | S754_zero _ => false
  | _ => true
  end.

Definition is_nan (x : float) : bool :=
  match x with
  | S754_nan => true
  | _ => false
  end.

Definition is_finite (x : float) : bool :=
  match x with
  | S754_zero _ | S754_finite _ _ _ => true
  | _ => false
  end.

(** The float nearest to [(-1)^neg * m * 10^e]. *)
Definition of_decimal (neg : bool) (m : N) (e : Z) : float :=
  match m with
  | N0 => S754_zero neg
  | Npos p =>
      if (0 <=? e)%Z
      then binary_round prec emax neg (p * Z.to_pos (10 ^ e)) 0
      else
        let '(q, e', l) :=
          SFdiv_core_binary prec emax (Zpos p) 0 (10 ^ (- e)) 0 in
        binary_round_aux prec emax neg q e' l
  end.

(** *** The grammar of [float(s)] *)

Definition split_sign (s : text) : bool * text :=
  match s with
  | c :: r =>
      if (c =? 45)%N then (true, r)
      else if (c =? 43)%N then (false, r)
      else (false, s)
  | [] => (false, [])
  end.

Fixpoint span_decimal (s : text) : text * text :=
  match s with
  | c :: r =>
      if is_decimal c
      then let '(ds, rest) := span_decimal r in (c :: ds, rest)
      else ([], s)
  | [] => ([], [])
  end.

(** An underscore is allowed only between two digits. *)
Fixpoint underscores_ok (prev : option char) (s : text) : bool :=
  match s with
  | [] => true
  | c :: r =>
      if (c =? 95)%N
      then
        match prev, r with
        | Some p, n :: _ => is_decimal p && is_decimal n && underscores_ok (Some c) r
        | _, _ => false
        end
      else underscores_ok (Some c) r
  end.

Definition is_emptyb (s : text) : bool :=
  match s with
  | [] => true
  | _ => false
  end.

(** Mantissa digits and decimal exponent of
    [digits [. digits] [(e|E) [sign] digits]]; at least one mantissa
    digit, and nothing after the number. *)
Definition parse_decimal (s : text) : option (N * Z) :=
  let '(ip, r1) := span_decimal s in
  let '(fp, r2) :=
    match r1 with
    | c :: r => if (c =? period)%N then span_decimal r else ([], r1)
    | [] => ([], r1)
    end in
  if is_emptyb ip && is_emptyb fp then None
  else
    let m := digits_value 0%N (ip ++ fp) in
    let k := Z.of_nat (List.length fp) in
    match r2 with
    | [] => Some (m, (- k)%Z)
    | c :: r3 =>
        if (lower c =? 101)%N
        then
          let '(eneg, r4) := split_sign r3 in
          let '(ed, r5) := span_decimal r4 in
          if is_emptyb ed || negb (is_emptyb r5) then None
          else
            let x := Z.of_N (digits_value 0%N ed) in
            Some (m, ((if eneg then - x else x) - k)%Z)
        else None
    end.

(** White space that [float] strips on its own. *)
Definition is_float_space (c : char) : bool :=
  between 9 13 c || (c =? 32)%N || ((127 <=? c)%N && is_space c).

Fixpoint lstrip_float (s : text) : text :=
  match s with
  | c :: r => if is_float_space c then lstrip_float r else s
  | [] => []
  end.

(** [float(s)] for a [str]; [Raise ValueError] where Python raises. *)
Definition py_float (s : text) : py float :=
  let s := rev (lstrip_float (rev (lstrip_float s))) in
  let '(neg, body) := split_sign s in
  let low := map lower body in
  if text_eqb low (u "inf") || text_eqb low (u "infinity")
  then Ret (S754_infinity neg)
  else if text_eqb low (u "nan") then Ret S754_nan
  else if underscores_ok None s
  then
    match parse_decimal (filter (fun c => negb (c =? 95)%N) body) with
    | Some (m, e) => Ret (of_decimal neg m e)
    | None => Raise ValueError
    end
  else Raise ValueError.

End PyFloat.

Import PyFloat.

(** ** JSON values, as [json.loads] returns them *)

#[warnings="-register-all"]
Inductive json : Type :=
| JNull
| JBool (b : bool)
| JInt (z : Z)
| JFloat (f : float)
| JStr (s : text)
| JArr (items : list json)
| JObj (members : list (text * json)).

(** What the Python runtime decides and the program only calls. *)
Record Builtins : Type := {
  (** [str(x)] for a float [x] *)
  float_repr : float -> text;
  (** [str(x)] for a list or a dict, without the enclosing brackets *)
  container_repr : json -> text;
  (** [format(x, "g")] *)
  format_g : float -> text
}.

Module Json.

(** The value a [dict] built by [json.loads] holds for a key: with a
    repeated key the last member wins. *)
Fixpoint lookup (k : text) (members : list (text * json)) : option json :=
  match members with
  | [] => None
  | (k', v) :: r =>
      match lookup k r with
      | Some w => Some w
      | None => if text_eqb k' k then Some v else None
      end
  end.

(** [k in d] *)
Definition has_key (k : text) (members : list (text * json)) : bool :=
  match lookup k members with
  | Some _ => true
  | None => false
  end.

(** [d.get(k, default)] *)
Definition get_default (k : text) (default : json)
                       (members : list (text * json)) : json :=
  match lookup k members with
  | Some v => v
  | None => default
  end.

(** [d.get(k)] *)
Definition get (k : text) (members : list (text * json)) : json :=
  get_default k JNull members.

(** [bool(v)] *)
Definition truthy (v : json) : bool :=
  match v with
  | JNull => false
  | JBool b => b
  | JInt z => negb (z =? 0)%Z
  | JFloat f => PyFloat.truthy f
  | JStr s => negb (is_emptyb s)
  | JArr l => match l with [] => false | _ => true end
  | JObj m => match m with [] => false | _ => true end
  end.

(** [a or b] *)
Definition py_or (a b : json) : json := if truthy a then a else b.

(** [isinstance(v, int)]; [bool] is a subclass of [int]. *)
Definition is_int (v : json) : bool :=
  match v with
  | JInt _ | JBool _ => true
  | _ => false
  end.

(** [str(v)] *)
Definition py_str (rt : Builtins) (v : json) : text :=
  match v with
  | JNull => u "None"
  | JBool true => u "True"
  | JBool false => u "False"
  | JInt z => str_of_Z z
  | JFloat f => float_repr rt f
  | JStr s => s
  | JArr _ => u "[" ++ container_repr rt v ++ u "]"
  | JObj _ => u "{" ++ container_repr rt v ++ u "}"
  end.

End Json.

Import Json.

(** ** The number normalisers *)

(** [try: return float(candidate) / except Exception: return None] *)
Definition float_or_none (candidate : text) : option float :=
  match py_float candidate with
  | Ret x => Some x
  | Raise _ => None
  end.

Definition try_float (rt : Builtins) (value : json) : option float :=
  match value with
  | JNull => None
  | _ =>
      let candidate := replace blank [] (strip (py_str rt value)) in
      let candidate :=
        if contains comma candidate && contains period candidate
        then
          if (find period candidate <? find comma candidate)%Z
          then replace comma [period] (replace period [] candidate)
          else replace comma [] candidate
        else replace comma [period] (replace period [] candidate) in
      float_or_none candidate
  end.

Definition normalize_euro (num : text) : option float :=
  let candidate := replace blank [] (strip num) in
  let candidate :=
    if contains comma candidate && contains period candidate
    then
      if (find period candidate <? find comma candidate)%Z
      then replace comma [period] (replace period [] candidate)
      else replace comma [] candidate
    else replace comma [period] (replace period [] candidate) in
  float_or_none candidate.

(** ** [PRICE_RE]

    The pattern, compiled with [re.IGNORECASE], is in sequence:
    - a look-behind: the previous character is not a digit;
    - the currency marker: the euro sign, or a word boundary and the
      letters EUR; then any white space;
    - group 1: one to four digits, then any number of groups made of a
      separator (period or comma) and three digits, then at most one group
      made of a separator and two digits.
    Every part after the currency marker is greedy and what follows it can
    match the empty text, so the first path the backtracking matcher tries
    is the one that succeeds. *)

Module PriceRe.

Definition is_sep (c : char) : bool := (c =? period)%N || (c =? comma)%N.

(** One to four digits (here with an upper bound [n]). *)
Fixpoint take_decimal (n : nat) (s : text) : text * text :=
  match n, s with
  | S n', c :: r =>
      if is_decimal c
      then let '(ds, rest) := take_decimal n' r in (c :: ds, rest)
      else ([], s)
  | _, _ => ([], s)
  end.

(** Any number of groups of a separator and three digits. *)
Fixpoint groups3 (s : text) : text * text :=
  match s with
  | p :: a :: b :: c :: r =>
      if is_sep p && is_decimal a && is_decimal b && is_decimal c
      then let '(g, rest) := groups3 r in (p :: a :: b :: c :: g, rest)
      else ([], s)
  | _ => ([], s)
  end.

(** At most one group of a separator and two digits. *)
Definition frac2 (s : text) : text * text :=
  match s with
  | p :: a :: b :: r =>
      if is_sep p && is_decimal a && is_decimal b
      then ([p; a; b], r)
      else ([], s)
  | _ => ([], s)
  end.

(** Group 1, and the text left after it. *)
Definition number_group (s : text) : option (text * text) :=
  let '(d, r1) := take_decimal 4 s in
  if is_emptyb d then None
  else
    let '(g, r2) := groups3 r1 in
    let '(f, r3) := frac2 r2 in
    Some (d ++ g ++ f, r3).

(** The look-behind and the currency marker: the text after the marker.
    [prev] is the character before the position, if any. *)
Definition currency_marker (prev : option char) (s : text) : option text :=
  let not_after_digit :=
    match prev with
    | Some p => negb (is_decimal p)
    | None => true
    end in
  let at_boundary :=
    match prev with
    | Some p => negb (is_word p)
    | None => true
    end in
  if not_after_digit
  then
    match s with
    | c :: r =>
        if (c =? euro)%N then Some r
        else
          match s with
          | e :: v :: w :: r' =>
              if at_boundary && text_eqb (map lower [e; v; w]) (u "eur")
              then Some r'
              else None
          | _ => None
          end
    | [] => None
    end
  else None.

(** A match that starts exactly here: group 1 and the number of
    characters the whole match takes. *)
Definition match_at (prev : option char) (s : text) : option (text * nat) :=
  match currency_marker prev s with
  | Some r =>
      match number_group (lstrip r) with
      | Some (g, rest) => Some (g, List.length s - List.length rest)
      | None => None
      end
  | None => None
  end.

Fixpoint search_from (prev : option char) (s : text) : option text :=
  match match_at prev s with
  | Some (g, _) => Some g
  | None =>
      match s with
      | [] => None
      | c :: r => search_from (Some c) r
      end
  end.

(** [PRICE_RE.search(s)], as group 1 of the match. *)
Definition search (s : text) : option text := search_from None s.

(** [skip] characters still belong to the previous match. *)
Fixpoint finditer_from (skip : nat) (prev : option char) (s : text)
  : list text :=
  match s with
  | [] => []
  | c :: r =>
      match skip with
      | S k => finditer_from k (Some c) r
      | O =>
          match match_at prev s with
          | Some (g, n) => g :: finditer_from (n - 1) (Some c) r
          | None => finditer_from 0 (Some c) r
          end
      end
  end.

(** [[m.group(1) for m in PRICE_RE.finditer(s)]] *)
Definition finditer (s : text) : list text := finditer_from 0 None s.

End PriceRe.

Definition META_HINTS : list (text * option text) :=
  [ (u "meta[property=" ++ [dq] ++ u "product:price:amount" ++ [dq] ++ u "]",
     Some (u "content"));
    (u "meta[name=" ++ [dq] ++ u "twitter:data1" ++ [dq] ++ u "]",
     Some (u "content"));
    (u "meta[itemprop=" ++ [dq] ++ u "price" ++ [dq] ++ u "]",
     Some (u "content"));
    (u "span[itemprop=" ++ [dq] ++ u "price" ++ [dq] ++ u "]", None);
    (u "div[data-price]", Some (u "data-price"));
    (u "span[data-price]", Some (u "data-price"));
    (u "div[class*=" ++ [dq] ++ u "price" ++ [dq] ++ u "]", None);
    (u "span[class*=" ++ [dq] ++ u "price" ++ [dq] ++ u "]", None) ].

(** ** The parsed page

    [BeautifulSoup(html, "lxml")] is a collaborator of the program; a page
    is what the program reads from it. *)

(** A tag found by [select_one]. *)
Record Element : Type := {
  (** [element.get(attr)] *)
  attr_get : text -> option text;
  (** [element.get_text(" ")] *)
  element_text : text
}.

Record Soup : Type := {
  (** For each [script] tag of type [application/ld+json] or
      [application/json], in document order, the value of
      [json.loads(tag.string or "{}")], or [None] where it raised. *)
  json_scripts : list (option json);
  (** [soup.select_one(selector)] *)
  select_one : text -> option Element;
  (** [soup.get_text(" ", strip=True)] *)
  page_text : text;
  (** [soup.title.string], when the page has a title with one string. *)
  title_string : option text
}.

(** ** [extract_price] *)

Definition f100 : float := of_Z 100.
Definition f10 : float := of_Z 10.
Definition f10000 : float := of_Z 10000.

Definition EUR : json := JStr (u "EUR").

(** Price, currency and method. *)
Definition extraction : Type := (option float * json * text)%type.

(** [list.sort()] on floats: a stable sort by [<].  An element goes
    before the first one that is greater. *)
Fixpoint sort_insert (x : float) (l : list float) : list float :=
  match l with
  | [] => [x]
  | y :: r => if flt x y then x :: l else y :: sort_insert x r
  end.

Definition py_sort (l : list float) : list float :=
  fold_left (fun acc x => sort_insert x acc) l [].

(** [[c for c in candidates if c is not None]] *)
Fixpoint drop_none (l : list (option float)) : list float :=
  match l with
  | [] => []
  | Some x :: r => x :: drop_none r
  | None :: r => drop_none r
  end.

Section Extract.

Variable rt : Builtins.

Definition _as_eur (val : json) : py (option float) :=
  match try_float rt val with
  | None =>
      match val with
      | JStr s =>
          if isdigit s
          then
            integer_value <- py_int s ;;
            if (10000 <=? integer_value)%Z
            then Ret (Some (fdiv (of_Z integer_value) f100))
            else Ret None
          else Ret None
      | _ => Ret None
      end
  | Some parsed =>
      if fle f10000 parsed && is_int val
      then Ret (Some (fdiv parsed f100))
      else Ret (Some parsed)
  end.

(** The body of [for obj in items]: the first hit, if any. *)
Fixpoint scan_items (items : list json) : py (option extraction) :=
  match items with
  | [] => Ret None
  | obj :: rest =>
      match obj with
      | JObj o =>
          let offers := get (u "offers") o in
          from_offers <-
            match offers with
            | JObj f =>
                let raw := py_or (get (u "price") f) (get (u "lowPrice") f) in
                let currency := py_or (get (u "priceCurrency") f) EUR in
                converted <- _as_eur raw ;;
                match converted with
                | Some c => Ret (Some (Some c, currency, u "jsonld"))
                | None => Ret None
                end
            | _ => Ret None
            end ;;
          match from_offers with
          | Some hit => Ret (Some hit)
          | None =>
              if has_key (u "price") o
              then
                let raw := get (u "price") o in
                converted <- _as_eur raw ;;
                match converted with
                | Some c =>
                    Ret (Some (Some c, get_default (u "priceCurrency") EUR o,
                               u "jsonld-root"))
                | None => scan_items rest
                end
              else scan_items rest
          end
      | _ => scan_items rest
      end
  end.

(** The loop over the script tags. *)
Fixpoint scan_scripts (scripts : list (option json))
  : py (option extraction) :=
  match scripts with
  | [] => Ret None
  | None :: rest => scan_scripts rest
  | Some data :: rest =>
      let items := match data with JArr l => l | _ => [data] end in
      hit <- scan_items items ;;
      match hit with
      | Some r => Ret (Some r)
      | None => scan_scripts rest
      end
  end.

(** The loop over [META_HINTS]. *)
Fixpoint scan_hints (soup : Soup) (hints : list (text * option text))
  : py (option extraction) :=
  match hints with
  | [] => Ret None
  | (selector, attr) :: rest =>
      match select_one soup selector with
      | None => scan_hints soup rest
      | Some element =>
          raw <-
            match attr with
            | Some a =>
                match attr_get element a with
                | Some v => Ret v
                | None => Raise AttributeError
                end
            | None => Ret (element_text element)
            end ;;
          let raw_value := strip raw in
          match PriceRe.search raw_value with
          | Some group1 =>
              Ret (Some (normalize_euro group1, EUR,
                         u "selector:" ++ selector))
          | None => scan_hints soup rest
          end
      end
  end.

(** The last strategy and the final [return]. *)
Definition text_fallback (soup : Soup) : extraction :=
  let candidates := map normalize_euro (PriceRe.finditer (page_text soup)) in
  let candidates := drop_none candidates in
  match candidates with
  | [] => (None, EUR, u "none")
  | _ =>
      let candidates := py_sort candidates in
      (nth_error candidates (Nat.div (List.length candidates) 2), EUR,
       u "text-fallback")
  end.

Definition extract_price (html : Soup) : py extraction :=
  structured <- scan_scripts (json_scripts html) ;;
  match structured with
  | Some r => Ret r
  | None =>
      selected <- scan_hints html META_HINTS ;;
      match selected with
      | Some r => Ret r
      | None => Ret (text_fallback html)
      end
  end.

(** [derive_title] *)
Definition derive_title (html : Soup) : option text :=
  match title_string html with
  | Some s => if is_emptyb s then None else Some (strip s)
  | None => None
  end.

End Extract.

(** ** The application: configuration *)

Record Site : Type := {
  site_id : json;
  site_url : json;
  site_title : json;
  site_headers : json;
  price_divisor : option float
}.

Record App : Type := {
  min_price : float;
  max_price : float;
  sites : list Site
}.

(** [1e9] *)
Definition f1e9 : float := of_Z 1000000000.

(** [x or default] for [x : float | None]. *)
Definition float_or (x : option float) (default : float) : float :=
  match x with
  | Some f => if PyFloat.truthy f then f else default
  | None => default
  end.

(** [x or None] for [x : float | None]. *)
Definition float_or_None (x : option float) : option float :=
  match x with
  | Some f => if PyFloat.truthy f then Some f else None
  | None => None
  end.

Section Init.

Variable rt : Builtins.

(** [d[k]] *)
Definition subscript (k : text) (members : list (text * json)) : py json :=
  match lookup k members with
  | Some v => Ret v
  | None => Raise KeyError
  end.

(** One [Site(...)] of the list comprehension of [App.__init__]. *)
Definition init_site (s : json) : py Site :=
  match s with
  | JObj m =>
      i <- subscript (u "id") m ;;
      l <- subscript (u "url") m ;;
      Ret {| site_id := i;
             site_url := l;
             site_title := get (u "title") m;
             site_headers := get_default (u "headers") (JObj []) m;
             price_divisor :=
               float_or_None (try_float rt (get (u "price_divisor") m)) |}
  | _ => Raise TypeError
  end.

Fixpoint init_sites (l : list json) : py (list Site) :=
  match l with
  | [] => Ret []
  | s :: r =>
      x <- init_site s ;;
      xs <- init_sites r ;;
      Ret (x :: xs)
  end.

(** The part of [App.__init__] that reads [min_price], [max_price] and
    [sites] from the options. *)
Definition App_init (options : list (text * json)) : py App :=
  let lo := float_or (try_float rt (get (u "min_price") options)) zero in
  let hi := float_or (try_float rt (get (u "max_price") options)) f1e9 in
  ss <- match get_default (u "sites") (JArr []) options with
        | JArr l => init_sites l
        | JObj [] | JStr [] => Ret []
        | _ => Raise TypeError
        end ;;
  Ret {| min_price := lo; max_price := hi; sites := ss |}.

End Init.

(** ** The application: one scrape cycle *)

Inductive profile : Type :=
| PrimaryHeaders
| AlternateHeaders.

(** What [await client.get(...)] gives: a response, or a transport
    exception rendered as [f"{type(exc).__name__}: {exc}"]. *)
Inductive fetch_result : Type :=
| Response (status_code : Z) (html : Soup)
| FetchError (rendered : text).

Inductive level : Type := DEBUG | INFO | WARNING | ERROR.

(** The [extra] of the [price_out_of_range] error. *)
Record out_of_range : Type := {
  x_title : json;
  x_raw_price : float;
  x_min : float;
  x_max : float;
  x_method : text
}.

(** What a cycle does to the outside world, in order. *)
Inductive event : Type :=
| Log (l : level) (message : text)
| Discovery (site : json)
| Get (url : json) (p : profile)
| PublishState (site : json) (price : option float)
| PublishAttributes (site : json) (title url currency : json)
                    (source_method : text) (status_code : Z)
| PublishError (site : json) (error : text) (extra : option out_of_range).

(** [response.raise_for_status()] raises unless the status is 2xx. *)
Definition is_success (status : Z) : bool :=
  (200 <=? status)%Z && (status <=? 299)%Z.

(** [resp.status_code in (403, 406)] *)
Definition blocking (status : Z) : bool :=
  (status =? 403)%Z || (status =? 406)%Z.

(** The bounds check of [scrape_once] and its two repairs. *)
Inductive verdict : Type :=
| Accepted (price : float) (method : text)
| OutOfRange.

Definition within (lo hi x : float) : bool := fle lo x && fle x hi.

Definition check_bounds (lo hi price : float) (method : text) : verdict :=
  if within lo hi price then Accepted price method
  else if within lo hi (fdiv price f100)
  then Accepted (fdiv price f100) (method ++ u "+heuristic_div100")
  else if within lo hi (fdiv price f10)
  then Accepted (fdiv price f10) (method ++ u "+heuristic_div10")
  else OutOfRange.

Section Scrape.

Variable rt : Builtins.

(** The network: what a request for a site answers under each header
    profile. *)
Variable http_get : Site -> profile -> fetch_result.

Definition publish_error (site : Site) (msg : text)
                         (extra : option out_of_range) : list event :=
  [ Log ERROR (u "Publishing error state.");
    PublishState (site_id site) None;
    PublishError (site_id site) msg extra ].

(** [if site.price_divisor: ...]: the price, the method and the log. *)
Definition apply_divisor (site : Site) (price : float) (method : text)
  : float * text * list event :=
  match price_divisor site with
  | Some d =>
      if PyFloat.truthy d
      then
        if flt zero d
        then (fdiv price d, method ++ u "+div" ++ format_g rt d, [])
        else (price, method,
              [Log WARNING
                 (u "Configured price_divisor must be greater than 0.")])
      else (price, method, [])
  | None => (price, method, [])
  end.

(** The body of the loop after a page was obtained. *)
Definition process_page (app : App) (site : Site) (html : Soup)
                        (status : Z) (method_hint : text)
  : list event * option exn :=
  match extract_price rt html with
  | Raise e => ([], Some e)
  | Ret (price, currency, method) =>
      let title :=
        py_or (match derive_title html with
               | Some t => JStr t
               | None => JNull
               end)
              (py_or (site_title site) (site_id site)) in
      let publish (price : option float) (method : text) :=
        [ Log INFO (u "Publishing price update.");
          PublishState (site_id site) price;
          PublishAttributes (site_id site) title (site_url site)
            (py_or currency EUR) (method ++ u "+" ++ method_hint) status ] in
      match price with
      | Some p =>
          let '(p, method, logged) := apply_divisor site p method in
          match check_bounds (min_price app) (max_price app) p method with
          | Accepted p' method' => (logged ++ publish (Some p') method', None)
          | OutOfRange =>
              (logged
               ++ [Log WARNING (u "Price outside configured bounds.")]
               ++ publish_error site (u "price_out_of_range")
                    (Some {| x_title := title; x_raw_price := p;
                             x_min := min_price app; x_max := max_price app;
                             x_method := method |}),
               None)
          end
      | None =>
          (Log WARNING (u "Failed to detect a price.") :: publish None method,
           None)
      end
  end.

(** One iteration of [for site in self.sites]: what it does, and the
    exception that leaves [scrape_once], if any. *)
Definition scrape_site (app : App) (site : Site) : list event * option exn :=
  let before :=
    [ Log DEBUG (u "Publishing MQTT discovery payload.");
      Discovery (site_id site);
      Log DEBUG (u "Fetching page.");
      Get (site_url site) PrimaryHeaders ] in
  match http_get site PrimaryHeaders with
  | FetchError rendered =>
      (before
       ++ [Log ERROR (u "Unexpected exception while fetching site.")]
       ++ publish_error site rendered None, None)
  | Response status html =>
      let try_alt := blocking status in
      if is_success status
      then
        let '(evs, out) := process_page app site html status (u "ok") in
        (before ++ evs, out)
      else if try_alt
      then
        let retry :=
          [ Log WARNING
              (u "Received blocking status; retrying with alternate headers.");
            Get (site_url site) AlternateHeaders ] in
        match http_get site AlternateHeaders with
        | FetchError _ => (before ++ retry, Some TransportError)
        | Response status' html' =>
            let '(evs, out) :=
              process_page app site html' status' (u "retry") in
            (before ++ retry ++ evs, out)
        end
      else
        (before
         ++ [Log ERROR (u "HTTP request failed after retries.")]
         ++ publish_error site (u "HTTP " ++ str_of_Z status) None, None)
  end.

Fixpoint scrape_sites (app : App) (l : list Site)
  : list event * option exn :=
  match l with
  | [] => ([Log INFO (u "Scrape cycle completed.")], None)
  | site :: rest =>
      match scrape_site app site with
      | (evs, Some e) => (evs, Some e)
      | (evs, None) =>
          let '(evs', out) := scrape_sites app rest in (evs ++ evs', out)
      end
  end.

Definition scrape_once (app : App) : list event * option exn :=
  match sites app with
  | [] => ([Log WARNING (u "No sites configured; skipping scrape cycle.")],
           None)
  | l =>
      let '(evs, out) := scrape_sites app l in
      (Log INFO (u "Starting scrape cycle.") :: evs, out)
  end.

End Scrape.

(** ** The force-refresh scheduler

    [loop], [_wait_for_force], [_run_scrape] and [_apply_force_request] all
    run on one asyncio event loop: [_handle_message] hands the callback over
    with [call_soon_threadsafe].  The loop runs one callback or one task
    step at a time, so the state changes only at the points where the
    [loop] coroutine is suspended.  A state records where it is suspended;
    a label is what the event loop runs next. *)

Module Scheduler.

Inductive reason : Type := Scheduled | Force.

(** [self.run_time] is [None] (interval mode) or a time of day. *)
Inductive mode : Type := Interval | Calendar.

Record config : Type := {
  cfg_mode : mode;
  scan_interval : Z
}.

(** Where the [loop] coroutine is suspended. *)
Inductive point : Type :=
| NotStarted
    (** the task of [loop()] was created and has not run yet *)
| AwaitWait (sleep_done force_done : bool)
    (** at [await asyncio.wait({sleep_task, force_task}, ...)] *)
| AwaitCancelled (result : bool)
    (** at [await sleep_task] or [await force_task], after [cancel()];
        [_wait_for_force] then returns [result] *)
| AwaitScrape (r : reason)
    (** inside [await self._run_scrape(reason=r)] *)
| AwaitBackoff.
    (** at [await asyncio.sleep(30)] in the exception handler *)

Record state : Type := {
  (** [self.force_event]: [None], or the flag of the [asyncio.Event] *)
  force_event : option bool;
  (** [self._pending_force_requests] *)
  pending : nat;
  at_point : point;
  (** the reasons of the cycles started so far, the latest first *)
  started : list reason
}.

Inductive label : Type :=
| Refresh        (** the callback [_apply_force_request] runs *)
| Start          (** the task of [loop()] runs its first step *)
| TimerFires     (** [sleep_task] completes *)
| ForceTaskDone  (** [force_task], that is [force_event.wait()], completes *)
| Resume         (** the coroutine resumes from [asyncio.wait] or from
                     the cancelled task *)
| ScrapeReturns  (** [_run_scrape] returns *)
| ScrapeRaises   (** [scrape_once] raises *)
| BackoffOver.   (** the 30 seconds are over *)

Definition initial : state :=
  {| force_event := None; pending := 0; at_point := NotStarted;
     started := [] |}.

Definition is_set (st : state) : bool :=
  match force_event st with
  | Some b => b
  | None => false
  end.

(** [_apply_force_request] *)
Definition _apply_force_request (st : state) : state :=
  match force_event st with
  | Some _ =>
      {| force_event := Some true; pending := pending st;
         at_point := at_point st; started := started st |}
  | None =>
      {| force_event := None; pending := S (pending st);
         at_point := at_point st; started := started st |}
  end.

(** [await self._run_scrape(reason=r)] up to its first suspension. *)
Definition _run_scrape (r : reason) (st : state) : state :=
  {| force_event := force_event st; pending := pending st;
     at_point := AwaitScrape r; started := r :: started st |}.

(** What [loop] does with the value of [_wait_for_force]. *)
Definition after_wait (result : bool) (st : state) : state :=
  if result then _run_scrape Force st else _run_scrape Scheduled st.

(** The wait [loop] asks for: [scan_interval] in interval mode; the
    seconds to the next run time, always positive, in calendar mode. *)
Definition positive_timeout (c : config) : bool :=
  match cfg_mode c with
  | Calendar => true
  | Interval => (0 <? scan_interval c)%Z
  end.

(** [_wait_for_force(timeout)] up to its first suspension, followed by
    what [loop] does when it returns at once. *)
Definition _wait_for_force (c : config) (st : state) : state :=
  let st :=
    match force_event st with
    | Some _ => st
    | None =>
        {| force_event := Some false; pending := pending st;
           at_point := at_point st; started := started st |}
    end in
  if is_set st
  then
    after_wait true
      {| force_event := Some false; pending := pending st;
         at_point := at_point st; started := started st |}
  else if negb (positive_timeout c)
  then after_wait false st
  else
    {| force_event := force_event st; pending := pending st;
       at_point := AwaitWait false false; started := started st |}.

(** The top of [while True] in [loop]. *)
Definition loop_top (c : config) (st : state) : state :=
  match cfg_mode c with
  | Calendar => _wait_for_force c st
  | Interval => _run_scrape Scheduled st
  end.

(** The first lines of [loop], before [while True]. *)
Definition loop_prologue (st : state) : state :=
  let flag :=
    match force_event st with
    | Some b => b
    | None => false
    end in
  match pending st with
  | O =>
      {| force_event := Some flag; pending := 0;
         at_point := at_point st; started := started st |}
  | S _ =>
      {| force_event := Some true; pending := 0;
         at_point := at_point st; started := started st |}
  end.

Definition at_ (p : point) (st : state) : state :=
  {| force_event := force_event st; pending := pending st;
     at_point := p; started := started st |}.

Definition clear (st : state) : state :=
  {| force_event := Some false; pending := pending st;
     at_point := at_point st; started := started st |}.

(** One step of the event loop; [None] when the label cannot run in
    this state. *)
Definition step (c : config) (st : state) (l : label) : option state :=
  match l, at_point st with
  | Refresh, _ => Some (_apply_force_request st)
  | Start, NotStarted => Some (loop_top c (loop_prologue st))
  | TimerFires, AwaitWait false fd => Some (at_ (AwaitWait true fd) st)
  | ForceTaskDone, AwaitWait sd false =>
      if is_set st then Some (at_ (AwaitWait sd true) st) else None
  | Resume, AwaitWait sd true =>
      (* [force_task in done]: clear, cancel the sleep and await it; a
         finished sleep is awaited without suspension *)
      if sd then Some (after_wait true (clear st))
      else Some (at_ (AwaitCancelled true) (clear st))
  | Resume, AwaitWait true false =>
      Some (at_ (AwaitCancelled false) st)
  | Resume, AwaitCancelled result => Some (after_wait result st)
  | ScrapeReturns, AwaitScrape _ => Some (_wait_for_force c st)
  | ScrapeRaises, AwaitScrape _ => Some (at_ AwaitBackoff st)
  | BackoffOver, AwaitBackoff => Some (loop_top c st)
  | _, _ => None
  end.

Fixpoint run (c : config) (st : state) (ls : list label) : option state :=
  match ls with
  | [] => Some st
  | l :: r =>
      match step c st l with
      | Some st' => run c st' r
      | None => None
      end
  end.

(** The request is latched: the flag is set, or the counter is not 0. *)
Definition latched (st : state) : bool :=
  is_set st || negb (Nat.eqb (pending st) 0).

(** The flag was cleared for a force cycle that is about to start. *)
Definition committed (st : state) : bool :=
  match at_point st with
  | AwaitCancelled true => true
  | _ => false
  end.

Definition is_force (r : reason) : bool :=
  match r with
  | Force => true
  | Scheduled => false
  end.

Definition is_refresh (l : label) : bool :=
  match l with
  | Refresh => true
  | _ => false
  end.

Definition forces (st : state) : nat :=
  List.length (filter is_force (started st)).

Definition refreshes (ls : list label) : nat :=
  List.length (filter is_refresh ls).

(** Truth as a number. *)
Definition b2n (b : bool) : nat := if b then 1 else 0.

(** What is owed: the force cycles started, the latched request and the
    cycle the loop is committed to. *)
Definition owed (st : state) : nat :=
  forces st + b2n (latched st) + b2n (committed st).

(** What holds in every state the loop reaches: the force task completes
    only with the flag set; the event exists once [loop] has started; and
    the counter is 0 once the event exists. *)
Definition coherent (st : state) : Prop :=
  (forall sd, at_point st = AwaitWait sd true -> is_set st = true)
  /\ (force_event st = None -> at_point st = NotStarted)
  /\ (force_event st <> None -> pending st = 0).

End Scheduler.

(** ** Vocabulary of the statements *)

(** [0 <= x] *)
Definition nonneg (x : float) : bool := fle zero x.

(** [x] is a normal binary64 number within half a unit in the last place
    of the positive rational [num / den]: a float nearest to it. *)
Definition nearest_binary64 (x : float) (num den : Z) : Prop :=
  match x with
  | S754_finite false m e =>
      (2 ^ 52 <= Zpos m < 2 ^ 53 /\ e <= 0 /\
       2 * Z.abs (Zpos m * den - num * 2 ^ (- e)) <= den)%Z
  | _ => False
  end.



(** The two readings of the separators, in the words of the
    specification: periods group and the comma is the decimal point; or
    commas group. *)
Definition european (candidate : text) : text :=
  replace comma [period] (replace period [] candidate).

Definition american (candidate : text) : text := replace comma [] candidate.

(** The text that the normaliser gives to [float], in the words of the
    specification. *)
Definition normalised (num : text) : text :=
  let candidate := replace blank [] (strip num) in
  if contains comma candidate && contains period candidate
  then
    if (find period candidate <? find comma candidate)%Z
    then european candidate
    else american candidate
  else european candidate.

(** A character of group 1: a digit or a separator. *)
Definition group_char (c : char) : Prop :=
  is_decimal c = true \/ PriceRe.is_sep c = true.

(** A character of a normalised group: a digit or a period. *)
Definition plain_char (c : char) : Prop :=
  is_decimal c = true \/ c = period.

(** Zero, a finite number or an infinity, with the sign bit clear. *)
Definition positive_float (x : float) : Prop :=
  match x with
  | S754_zero false | S754_infinity false | S754_finite false _ _ => True
  | _ => False
  end.

(** Not a NaN. *)
Definition not_nan (x : float) : Prop := is_nan x = false.

(** [x <= y] *)
Definition fle_prop (x y : float) : Prop := fle x y = true.

(** A message that carries a price: a state with a number, or the
    attributes of a successful scrape. *)
Definition is_price_update (e : event) : bool :=
  match e with
  | PublishState _ (Some _) => true
  | PublishAttributes _ _ _ _ _ _ => true
  | _ => false
  end.

Definition is_get (p : profile) (e : event) : bool :=
  match e, p with
  | Get _ PrimaryHeaders, PrimaryHeaders => true
  | Get _ AlternateHeaders, AlternateHeaders => true
  | _, _ => false
  end.


(** The option is not a number, or it is a zero. *)
Definition falls_back (rt : Builtins) (v : json) : Prop :=
  try_float rt v = None
  \/ exists z, try_float rt v = Some z /\ PyFloat.truthy z = false.

(** ** Inputs of the examples *)

(** A runtime for the examples.  It prints 100.0 as Python does; the
    examples print no other float and no container. *)
Definition example_runtime : Builtins :=
  {| float_repr := fun x => if SFeqb x f100 then u "100.0" else u "?";
     container_repr := fun _ => u "?";
     format_g := fun x => if SFeqb x f100 then u "100" else u "?" |}.

Definition no_element : text -> option Element := fun _ => None.

Definition element_of_text (t : text) : Element :=
  {| attr_get := fun _ => None; element_text := t |}.

Definition only (selector : text) (e : Element) : text -> option Element :=
  fun s => if text_eqb s selector then Some e else None.

Definition span_itemprop_price : text :=
  u "span[itemprop=" ++ [dq] ++ u "price" ++ [dq] ++ u "]".

(** [<span itemprop="price">E 1,234,567</span> <p>E 19,99</p>], with the
    euro sign for E. *)
Definition page_selector_unparsable : Soup :=
  {| json_scripts := [];
     select_one := only span_itemprop_price
                     (element_of_text (euro :: u " 1,234,567"));
     page_text := euro :: u " 1,234,567 " ++ euro :: u " 19,99";
     title_string := None |}.

(** [<p>E 1,234,567</p>] *)
Definition page_text_unparsable : Soup :=
  {| json_scripts := [];
     select_one := no_element;
     page_text := euro :: u " 1,234,567";
     title_string := None |}.

(** [<p>E 1000 E 10 E 20</p>] *)
Definition page_three_prices : Soup :=
  {| json_scripts := [];
     select_one := no_element;
     page_text := euro :: u " 1000 " ++ euro :: u " 10 " ++ euro :: u " 20";
     title_string := None |}.

(** [<p>E 10 E 20</p>] *)
Definition page_two_prices : Soup :=
  {| json_scripts := [];
     select_one := no_element;
     page_text := euro :: u " 10 " ++ euro :: u " 20";
     title_string := None |}.

(** A page with one [application/ld+json] script whose content is
    [{"offers": {"price": v, "priceCurrency": "EUR"}}], and with a
    conflicting [<span itemprop="price">E 1,00</span>]. *)
Definition page_with_offer (v : json) : Soup :=
  {| json_scripts :=
       [Some (JObj [(u "offers",
                     JObj [(u "price", v); (u "priceCurrency", EUR)])])];
     select_one := only span_itemprop_price
                     (element_of_text (euro :: u " 1,00"));
     page_text := euro :: u " 1,00";
     title_string := None |}.

Definition meta_itemprop_price : text :=
  u "meta[itemprop=" ++ [dq] ++ u "price" ++ [dq] ++ u "]".

(** [<meta itemprop="price" value="12">]: the tag has no [content]. *)
Definition page_meta_without_content : Soup :=
  {| json_scripts := [];
     select_one := only meta_itemprop_price (element_of_text []);
     page_text := [];
     title_string := None |}.

Definition site_with_divisor (d : option float) : Site :=
  {| site_id := JStr (u "a"); site_url := JStr (u "https://a.example/");
     site_title := JNull; site_headers := JObj []; price_divisor := d |}.

Definition site_A : Site := site_with_divisor None.

(** The entry of site a in the options, with a [price_divisor]. *)
Definition site_entry (d : json) : json :=
  JObj [ (u "id", JStr (u "a")); (u "url", JStr (u "https://a.example/"));
         (u "price_divisor", d) ].

Definition site_B : Site :=
  {| site_id := JStr (u "b"); site_url := JStr (u "https://b.example/");
     site_title := JNull; site_headers := JObj []; price_divisor := None |}.

Definition is_site_A (s : Site) : bool :=
  match site_id s with
  | JStr i => text_eqb i (u "a")
  | _ => false
  end.

(** Site a answers 403 and then the second request fails to connect;
    site b answers 200 with a page that shows three prices. *)
Definition network_blocked_then_down (s : Site) (p : profile) : fetch_result :=
  if is_site_A s
  then
    match p with
    | PrimaryHeaders => Response 403 page_text_unparsable
    | AlternateHeaders => FetchError (u "ConnectError: ")
    end
  else Response 200 page_three_prices.

(** [<p>Access denied</p>] *)
Definition page_access_denied : Soup :=
  {| json_scripts := [];
     select_one := no_element;
     page_text := u "Access denied";
     title_string := None |}.

(** Site a answers 403 to both requests, with a page that shows no
    price; site b answers as above. *)
Definition network_blocked_twice (s : Site) (p : profile) : fetch_result :=
  if is_site_A s
  then Response 403 page_access_denied
  else Response 200 page_three_prices.

Definition app_two_sites : App :=
  {| min_price := zero; max_price := f1e9; sites := [site_A; site_B] |}.

Definition bounds_app (lo hi : Z) : App :=
  {| min_price := of_Z lo; max_price := of_Z hi; sites := [site_A] |}.

(** ** The rest of [App.__init__]: run time and names *)

Definition colon : char := 58%N.
Definition slash : char := 47%N.

(** [s.split(sep)] for a one-character [sep]. *)
Fixpoint split_on (sep : char) (s : text) : list text :=
  match s with
  | [] => [[]]
  | c :: r =>
      if (c =? sep)%N then [] :: split_on sep r
      else
        match split_on sep r with
        | part :: parts => (c :: part) :: parts
        | [] => [[c]]
        end
  end.

(** [int(s)] for a [str]: white space around, an optional sign, decimal
    digits with single underscores between them. *)
Definition int_of_str (s : text) : py Z :=
  let s := rev (lstrip_float (rev (lstrip_float s))) in
  let '(neg, body) := split_sign s in
  let digits := filter (fun c => negb (c =? 95)%N) body in
  if underscores_ok None body && negb (is_emptyb digits)
     && forallb is_decimal digits
  then
    let n := Z.of_N (digits_value 0%N digits) in
    Ret (if neg then (- n)%Z else n)
  else Raise ValueError.

(** [s.strip(c)] for a one-character [c]. *)
Fixpoint lstrip_char (c : char) (s : text) : text :=
  match s with
  | x :: r => if (x =? c)%N then lstrip_char c r else s
  | [] => []
  end.

Definition strip_char (c : char) (s : text) : text :=
  rev (lstrip_char c (rev (lstrip_char c s))).

Module Calendar.

(** A [datetime.time] with seconds and microseconds 0. *)
Record time : Type := {
  hour : Z;
  minute : Z
}.

(** [dtime(hours, minutes)] *)
Definition dtime (hours minutes : Z) : py time :=
  if (0 <=? hours)%Z && (hours <? 24)%Z && (0 <=? minutes)%Z
     && (minutes <? 60)%Z
  then Ret {| hour := hours; minute := minutes |}
  else Raise ValueError.

(** A [datetime] without time zone: the ordinal of its date and the
    microseconds since midnight. *)
Record datetime : Type := {
  date : Z;
  since_midnight : Z
}.

(** The microseconds of [timedelta(days=1)]. *)
Definition day : Z := 86400000000.

(** [datetime.combine(d, t)] *)
Definition combine (d : Z) (t : time) : datetime :=
  {| date := d;
     since_midnight := ((hour t * 3600 + minute t * 60) * 1000000)%Z |}.

(** [a >= b] *)
Definition ge (a b : datetime) : bool :=
  (date b <? date a)%Z
  || ((date a =? date b)%Z && (since_midnight b <=? since_midnight a)%Z).

(** [a + timedelta(days=1)] *)
Definition add_day (a : datetime) : datetime :=
  {| date := (date a + 1)%Z; since_midnight := since_midnight a |}.

(** [a - b], in microseconds; [total_seconds()] divides them by 10**6. *)
Definition sub (a b : datetime) : Z :=
  ((date a - date b) * day + (since_midnight a - since_midnight b))%Z.

(** The [target] of [loop] in calendar mode. *)
Definition next_run (now : datetime) (run_time : time) : datetime :=
  let target := combine (date now) run_time in
  if ge now target then add_day target else target.

(** The wait of [loop] in calendar mode, in microseconds. *)
Definition wait (now : datetime) (run_time : time) : Z :=
  sub (next_run now run_time) now.

(** The clock gives a time of the day. *)
Definition clock_reading (now : datetime) : Prop :=
  (0 <= since_midnight now < day)%Z.

End Calendar.

(** The body of the [try] that reads [run_time]. *)
Definition run_time_of (run_time_str : json) : py Calendar.time :=
  match run_time_str with
  | JStr s =>
      match split_on colon s with
      | [a; b] =>
          hours <- int_of_str a ;;
          minutes <- int_of_str b ;;
          Calendar.dtime hours minutes
      | _ => Raise ValueError
      end
  | _ => Raise AttributeError
  end.

(** [self.run_time], and whether the warning was logged. *)
Definition init_run_time (options : list (text * json))
  : option Calendar.time * bool :=
  let run_time_str := get (u "run_time") options in
  if truthy run_time_str
  then
    match run_time_of run_time_str with
    | Ret t => (Some t, false)
    | Raise _ => (None, true)
    end
  else (None, false).

(** [mode = "scheduled" if self.run_time else "interval"]; a
    [datetime.time] is always true. *)
Definition init_mode (options : list (text * json)) : Scheduler.mode :=
  match fst (init_run_time options) with
  | Some _ => Scheduler.Calendar
  | None => Scheduler.Interval
  end.

(** [self.product_name] *)
Definition init_product_name (options : list (text * json)) : py text :=
  match py_or (get (u "product_name") options) (JStr []) with
  | JStr s =>
      let raw_product := strip s in
      Ret (if is_emptyb raw_product then u "Website Price Tracker"
           else raw_product)
  | _ => Raise AttributeError
  end.

(** [self.base_topic] *)
Definition init_base_topic (options : list (text * json)) : py text :=
  match get_default (u "base_topic") (JStr (u "price_tracker")) options with
  | JStr s =>
      let base_topic := strip_char slash (strip s) in
      Ret (if is_emptyb base_topic then u "price_tracker" else base_topic)
  | _ => Raise AttributeError
  end.

(** ** [_parse_level] of [logging_utils] *)

Module Logging.







End Logging.

(** ** The older add-on: [scrape_once] of [jura_s8_price_addon] *)

Module Jura.

Record Site : Type := {
  site_id : json;
  site_url : json;
  site_title : json;
  site_headers : json
}.

Record App : Type := {
  min_price : float;
  max_price : float;
  sites : list Site
}.

(** [x >= y] *)
Definition fge (x y : float) : bool := fle y x.

Section Scrape.

Variable rt : Builtins.

Variable http_get : Site -> profile -> fetch_result.

Definition publish_error (site : Site) (msg : text)
                         (extra : option out_of_range) : list event :=
  [ PublishState (site_id site) None;
    PublishError (site_id site) msg extra ].

(** The body of the loop after a page was obtained. *)
Definition process_page (app : App) (site : Site) (html : Soup)
                        (status : Z) (method_hint : text)
  : list event * option exn :=
  match extract_price rt html with
  | Raise e => ([], Some e)
  | Ret (price, currency, method) =>
      let title :=
        py_or (match derive_title html with
               | Some t => JStr t
               | None => JNull
               end)
              (py_or (site_title site) (site_id site)) in
      let publish (price : option float) (method : text) :=
        [ PublishState (site_id site) price;
          PublishAttributes (site_id site) title (site_url site)
            (py_or currency EUR) (method ++ u "+" ++ method_hint) status ] in
      match price with
      | Some p =>
          if negb (fle (min_price app) p && fle p (max_price app))
          then
            if fge (fdiv p f100) (min_price app)
               && fle (fdiv p f100) (max_price app)
            then (publish (Some (fdiv p f100))
                    (method ++ u "+heuristic_div100"), None)
            else if fge (fdiv p f10) (min_price app)
                    && fle (fdiv p f10) (max_price app)
            then (publish (Some (fdiv p f10))
                    (method ++ u "+heuristic_div10"), None)
            else
              (publish_error site (u "price_out_of_range")
                 (Some {| x_title := title; x_raw_price := p;
                          x_min := min_price app; x_max := max_price app;
                          x_method := method |}),
               None)
          else (publish (Some p) method, None)
      | None => (publish None method, None)
      end
  end.

(** One iteration of [for site in self.sites]. *)
Definition scrape_site (app : App) (site : Site) : list event * option exn :=
  let before :=
    [ Discovery (site_id site); Get (site_url site) PrimaryHeaders ] in
  match http_get site PrimaryHeaders with
  | FetchError rendered => (before ++ publish_error site rendered None, None)
  | Response status html =>
      let try_alt := blocking status in
      if is_success status
      then
        let '(evs, out) := process_page app site html status (u "ok") in
        (before ++ evs, out)
      else if try_alt
      then
        let retry := [ Get (site_url site) AlternateHeaders ] in
        match http_get site AlternateHeaders with
        | FetchError _ => (before ++ retry, Some TransportError)
        | Response status' html' =>
            let '(evs, out) :=
              process_page app site html' status' (u "retry") in
            (before ++ retry ++ evs, out)
        end
      else
        (before ++ publish_error site (u "HTTP " ++ str_of_Z status) None,
         None)
  end.

Fixpoint scrape_sites (app : App) (l : list Site)
  : list event * option exn :=
  match l with
  | [] => ([], None)
  | site :: rest =>
      match scrape_site app site with
      | (evs, Some e) => (evs, Some e)
      | (evs, None) =>
          let '(evs', out) := scrape_sites app rest in (evs ++ evs', out)
      end
  end.

Definition scrape_once (app : App) : list event * option exn :=
  scrape_sites app (sites app).

End Scrape.

End Jura.



(** ** Further vocabulary of the statements *)

Definition is_log (e : event) : bool :=
  match e with
  | Log _ _ => true
  | _ => false
  end.

Definition is_state (e : event) : bool :=
  match e with
  | PublishState _ _ => true
  | _ => false
  end.

Definition is_attributes (e : event) : bool :=
  match e with
  | PublishAttributes _ _ _ _ _ _ => true
  | _ => false
  end.

Definition is_error (e : event) : bool :=
  match e with
  | PublishError _ _ _ => true
  | _ => false
  end.

(** The site that a state, attributes or error message is about. *)
Definition report_site (e : event) : option json :=
  match e with
  | PublishState i _ => Some i
  | PublishAttributes i _ _ _ _ _ => Some i
  | PublishError i _ _ => Some i
  | _ => None
  end.

(** Every report of the list comes after a discovery message for its
    site. *)
Definition discovery_first (evs : list event) : Prop :=
  forall before e after i,
    evs = before ++ e :: after -> report_site e = Some i ->
    In (Discovery i) before.



(** The text ends with the given suffix. *)
Definition ends_with (suffix s : text) : Prop :=
  exists front, s = front ++ suffix.

(** A digit, or a period. *)
Definition digit_or_period (c : char) : bool :=
  is_decimal c || (c =? period)%N.

(** A digit, or a comma. *)
Definition digit_or_comma (c : char) : bool :=
  is_decimal c || (c =? comma)%N.

(** Neither the euro sign nor the letter E. *)
Definition no_marker (c : char) : bool :=
  negb (c =? euro)%N && negb (lower c =? 101)%N.

Definition is_scheduled (r : Scheduler.reason) : bool :=
  negb (Scheduler.is_force r).

(** The scheduled cycles started so far. *)
Definition scheduled_cycles (st : Scheduler.state) : nat :=
  List.length (filter is_scheduled (Scheduler.started st)).

Definition count_label (p : Scheduler.label -> bool)
                       (ls : list Scheduler.label) : nat :=
  List.length (filter p ls).

Definition is_timer (l : Scheduler.label) : bool :=
  match l with
  | Scheduler.TimerFires => true
  | _ => false
  end.

(** The labels after which interval mode runs a scheduled cycle without
    a timer: the start, the end of a back-off, and the return of a cycle
    when [scan_interval] is not positive. *)
Definition unprompted (c : Scheduler.config) (l : Scheduler.label) : bool :=
  match Scheduler.cfg_mode c, l with
  | Scheduler.Interval, Scheduler.Start => true
  | Scheduler.Interval, Scheduler.BackoffOver => true
  | Scheduler.Interval, Scheduler.ScrapeReturns =>
      negb (Scheduler.positive_timeout c)
  | _, _ => false
  end.

(** The timer has fired and its scheduled cycle has not started yet. *)
Definition timer_noticed (st : Scheduler.state) : bool :=
  match Scheduler.at_point st with
  | Scheduler.AwaitWait true _ => true
  | Scheduler.AwaitCancelled false => true
  | _ => false
  end.


(** Every site answers 200 with a page whose offer has the price [v]. *)
Definition network_offer (v : json) (s : Site) (p : profile) : fetch_result :=
  Response 200 (page_with_offer v).

(** * Proofs *)

(** * Facts about texts *)



Lemma In_replace (c old : char) (by_ s : text) :
  In c s -> c <> old -> In c (replace old by_ s).
Proof.
  intros Hin Hne. unfold replace. apply in_flat_map.
  exists c. split; auto.
  destruct (N.eqb_spec c old); [contradiction | left; reflexivity].
Qed.

(** * Facts about the grammar of [float] *)

Ltac to_prop :=
  repeat rewrite ?orb_true_iff, ?andb_true_iff, ?orb_false_iff,
    ?andb_false_iff, ?negb_true_iff, ?negb_false_iff,
    ?N.leb_le, ?N.eqb_eq, ?N.leb_gt, ?N.eqb_neq in *.












(** * The number normaliser *)

Lemma normalize_euro_normalised (num : text) :
  normalize_euro num = float_or_none (normalised num).
Proof.
  unfold normalize_euro, normalised, european, american.
  destruct (contains comma (replace blank [] (strip num))
            && contains period (replace blank [] (strip num)));
    [destruct (find period (replace blank [] (strip num))
               <? find comma (replace blank [] (strip num)))%Z |];
    reflexivity.
Qed.






(** * What [PRICE_RE] captures *)

Lemma take_decimal_chars (n : nat) (s d r : text) :
  PriceRe.take_decimal n s = (d, r) -> Forall group_char d.
Proof.
  revert s d r; induction n as [|n IH]; intros s d r H.
  - destruct s; inversion H; constructor.
  - destruct s as [|c s]; simpl in H; [inversion H; constructor |].
    destruct (is_decimal c) eqn:Hc.
    + destruct (PriceRe.take_decimal n s) as [ds rest] eqn:Hs.
      inversion H; subst. constructor; [left; exact Hc | eapply IH; eauto].
    + inversion H; constructor.
Qed.

Lemma groups3_chars (n : nat) (s g r : text) :
  List.length s <= n -> PriceRe.groups3 s = (g, r) -> Forall group_char g.
Proof.
  revert s g r; induction n as [|n IH]; intros s g r Hn H.
  - destruct s; [inversion H; constructor | simpl in Hn; lia].
  - destruct s as [|p [|a [|b [|c s]]]]; try (inversion H; constructor).
    cbn [PriceRe.groups3] in H.
    destruct (PriceRe.is_sep p) eqn:Hp; [| inversion H; constructor].
    destruct (is_decimal a) eqn:Ha; [| inversion H; constructor].
    destruct (is_decimal b) eqn:Hb; [| inversion H; constructor].
    destruct (is_decimal c) eqn:Hc; [| inversion H; constructor].
    cbn [andb] in H.
    destruct (PriceRe.groups3 s) as [g' rest] eqn:Hs.
    inversion H; subst.
    repeat (constructor; [(left; assumption) || (right; assumption) |]).
    eapply IH; [| exact Hs]. simpl in Hn. lia.
Qed.

Lemma frac2_chars (s f r : text) :
  PriceRe.frac2 s = (f, r) -> Forall group_char f.
Proof.
  destruct s as [|p [|a [|b s]]]; try (intros H; inversion H; constructor).
  cbn [PriceRe.frac2].
  destruct (PriceRe.is_sep p) eqn:Hp; [| intros H; inversion H; constructor].
  destruct (is_decimal a) eqn:Ha; [| intros H; inversion H; constructor].
  destruct (is_decimal b) eqn:Hb; [| intros H; inversion H; constructor].
  cbn [andb]. intros H; inversion H; subst.
  repeat (constructor; [(left; assumption) || (right; assumption) |]).
  constructor.
Qed.

Lemma number_group_chars (s g r : text) :
  PriceRe.number_group s = Some (g, r) -> Forall group_char g.
Proof.
  unfold PriceRe.number_group.
  destruct (PriceRe.take_decimal 4 s) as [d r1] eqn:Hd.
  destruct (is_emptyb d); [discriminate |].
  destruct (PriceRe.groups3 r1) as [g3 r2] eqn:Hg.
  destruct (PriceRe.frac2 r2) as [f r3] eqn:Hf.
  intros H; inversion H; subst.
  apply Forall_app; split; [eapply take_decimal_chars; eauto |].
  apply Forall_app; split;
    [eapply groups3_chars; eauto | eapply frac2_chars; eauto].
Qed.

Lemma match_at_chars (prev : option char) (s g : text) (n : nat) :
  PriceRe.match_at prev s = Some (g, n) -> Forall group_char g.
Proof.
  unfold PriceRe.match_at.
  destruct (PriceRe.currency_marker prev s) as [r|]; [| discriminate].
  destruct (PriceRe.number_group (lstrip r)) as [[g' rest]|] eqn:Hg;
    [| discriminate].
  intros H; inversion H; subst. eapply number_group_chars; eauto.
Qed.

Lemma search_chars (s g : text) :
  PriceRe.search s = Some g -> Forall group_char g.
Proof.
  unfold PriceRe.search. generalize (@None char) as prev.
  induction s as [|c s IH]; intros prev; cbn [PriceRe.search_from].
  - destruct (PriceRe.match_at prev []) as [[g' n]|] eqn:Hm; [| discriminate].
    intros H; inversion H; subst. eapply match_at_chars; eauto.
  - destruct (PriceRe.match_at prev (c :: s)) as [[g' n]|] eqn:Hm.
    + intros H; inversion H; subst. eapply match_at_chars; eauto.
    + apply IH.
Qed.

Lemma finditer_chars (s : text) :
  Forall (Forall group_char) (PriceRe.finditer s).
Proof.
  unfold PriceRe.finditer. generalize (@None char) as prev, 0 as skip.
  induction s as [|c s IH]; intros prev skip; cbn [PriceRe.finditer_from];
    [constructor |].
  destruct skip as [|k]; [| apply IH].
  destruct (PriceRe.match_at prev (c :: s)) as [[g n]|] eqn:Hm; [| apply IH].
  constructor; [eapply match_at_chars; eauto | apply IH].
Qed.

(** * The normaliser on a captured group *)

Lemma Forall_lstrip (P : char -> Prop) (s : text) :
  Forall P s -> Forall P (lstrip s).
Proof.
  induction 1 as [|c s Hc Hs IH]; simpl; [constructor |].
  destruct (is_space c); [exact IH | constructor; assumption].
Qed.

Lemma Forall_strip (P : char -> Prop) (s : text) :
  Forall P s -> Forall P (strip s).
Proof.
  intros H. unfold strip, rstrip.
  apply Forall_rev. apply Forall_lstrip. apply Forall_rev.
  apply Forall_lstrip. exact H.
Qed.

Lemma Forall_replace (P Q : char -> Prop) (old : char) (by_ s : text) :
  Forall P s -> Forall Q by_ -> (forall c, P c -> c <> old -> Q c) ->
  Forall Q (replace old by_ s).
Proof.
  intros Hs Hby Himp. unfold replace.
  induction Hs as [|c s Hc Hs IH]; simpl; [constructor |].
  apply Forall_app; split; [| exact IH].
  destruct (N.eqb_spec c old); [exact Hby | constructor; auto].
Qed.

Lemma group_not_comma (c : char) : group_char c -> c <> comma -> plain_char c.
Proof.
  intros [Hd | Hs] Hne; [left; exact Hd |].
  right. unfold PriceRe.is_sep in Hs. to_prop. tauto.
Qed.

Lemma Forall_lstrip_float_suffix (P : char -> Prop) (s : text) :
  Forall P s -> Forall P (lstrip_float s).
Proof.
  induction 1 as [|c s Hc Hs IH]; simpl; [constructor |].
  destruct (is_float_space c); [exact IH | constructor; assumption].
Qed.

Lemma plain_char_facts (c : char) :
  plain_char c ->
  (c =? 45)%N = false /\ (c =? 43)%N = false /\ (lower c =? 105)%N = false
  /\ (lower c =? 110)%N = false.
Proof.
  intros [Hd | ->]; [| repeat split; reflexivity].
  unfold is_decimal, lower, between in *. to_prop.
  destruct (N.leb_spec 65 c); destruct (N.leb_spec c 90); cbn;
    repeat split; rewrite ?N.eqb_neq; lia.
Qed.

(** * The sign of a rounded number *)

Lemma positive_float_facts (x : float) :
  positive_float x -> is_nan x = false /\ nonneg x = true.
Proof.
  destruct x as [[|]|[|]| |[|] m e]; simpl; intros H; try contradiction;
    split; reflexivity.
Qed.

Lemma shr_1_nonneg (mrs : shr_record) :
  (0 <= shr_m mrs)%Z -> (0 <= shr_m (shr_1 mrs))%Z.
Proof.
  destruct mrs as [m r s]. simpl.
  destruct m as [|[p|p|]|[p|p|]]; simpl; intros H; try lia.
Qed.

Lemma iter_shr_1_nonneg (p : positive) (mrs : shr_record) :
  (0 <= shr_m mrs)%Z -> (0 <= shr_m (iter_pos shr_1 p mrs))%Z.
Proof.
  revert mrs; induction p as [p IH | p IH |]; intros mrs H; simpl.
  - apply IH, IH, shr_1_nonneg, H.
  - apply IH, IH, H.
  - apply shr_1_nonneg, H.
Qed.

Lemma shr_fexp_nonneg (m e : Z) (l : location) :
  (0 <= m)%Z -> (0 <= shr_m (fst (shr_fexp prec emax m e l)))%Z.
Proof.
  intros H. unfold shr_fexp, shr.
  assert (H0 : (0 <= shr_m (shr_record_of_loc m l))%Z).
  { destruct l as [|[| |]]; simpl; exact H. }
  destruct (fexp prec emax (Zdigits2 m + e) - e)%Z; simpl; auto.
  apply iter_shr_1_nonneg, H0.
Qed.

Lemma round_nearest_even_nonneg (m : Z) (l : location) :
  (0 <= m)%Z -> (0 <= round_nearest_even m l)%Z.
Proof.
  intros H. unfold round_nearest_even.
  destruct l as [|[| |]]; try destruct (Z.even m); lia.
Qed.

Lemma binary_round_aux_positive (m e : Z) (l : location) :
  (0 <= m)%Z -> positive_float (binary_round_aux prec emax false m e l).
Proof.
  intros H. unfold binary_round_aux.
  pose proof (shr_fexp_nonneg m e l H) as H1.
  destruct (shr_fexp prec emax m e l) as [mrs' e'] eqn:E1. simpl in H1.
  pose proof (shr_fexp_nonneg
                (round_nearest_even (shr_m mrs') (loc_of_shr_record mrs'))
                e' loc_Exact
                (round_nearest_even_nonneg _ _ H1)) as H2.
  destruct (shr_fexp prec emax
              (round_nearest_even (shr_m mrs') (loc_of_shr_record mrs'))
              e' loc_Exact) as [mrs'' e''] eqn:E2.
  simpl in H2.
  destruct (shr_m mrs'') as [|p|p]; [exact I | | lia].
  destruct (e'' <=? emax - prec)%Z; exact I.
Qed.

Lemma binary_round_positive (m : positive) (e : Z) :
  positive_float (binary_round prec emax false m e).
Proof.
  unfold binary_round.
  destruct (shl_align m e (fexp prec emax (Z.pos (digits2_pos m) + e)))
    as [mz ez].
  apply binary_round_aux_positive. lia.
Qed.

Lemma of_decimal_positive (m : N) (e : Z) : positive_float (of_decimal false m e).
Proof.
  unfold of_decimal. destruct m as [|p]; [exact I |].
  destruct (0 <=? e)%Z eqn:He; [apply binary_round_positive |].
  unfold SFdiv_core_binary.
  set (m' := match _ with Z.pos _ => _ | Z0 => _ | Z.neg _ => _ end).
  assert (Hm' : (0 <= m')%Z).
  { subst m'.
    destruct (0 - 0 - Z.min (fexp prec emax (Zdigits2 (Z.pos p) + 0
                                             - (Zdigits2 (10 ^ (- e)) + 0)))
                            (0 - 0))%Z eqn:Hs; try lia.
    apply Z.shiftl_nonneg. lia. }
  assert (Hd : (0 < 10 ^ (- e))%Z).
  { apply Z.leb_gt in He. apply Z.pow_pos_nonneg; lia. }
  pose proof (Z.div_pos m' (10 ^ (- e)) Hm' Hd) as Hq.
  unfold Z.div in Hq.
  destruct (Z.div_eucl m' (10 ^ (- e))) as [q r].
  apply binary_round_aux_positive. exact Hq.
Qed.

(** [float] on a text of digits and periods gives no negative number and
    no NaN. *)
Lemma py_float_plain (t : text) (x : float) :
  Forall plain_char t -> py_float t = Ret x -> positive_float x.
Proof.
  intros Ht. unfold py_float.
  assert (Hs : Forall plain_char (rev (lstrip_float (rev (lstrip_float t))))).
  { apply Forall_rev, Forall_lstrip_float_suffix, Forall_rev,
      Forall_lstrip_float_suffix, Ht. }
  remember (rev (lstrip_float (rev (lstrip_float t)))) as s eqn:Es. clear Es Ht.
  destruct s as [|c s].
  - cbn. discriminate.
  - inversion Hs as [|c' s' Hc Hs']; subst.
    destruct (plain_char_facts c Hc) as [H45 [H43 [Hi Hn]]].
    unfold split_sign. rewrite H45, H43.
    cbn [map text_eqb u list_ascii_of_string]. 
    change (N_of_ascii "i") with 105%N. change (N_of_ascii "n") with 110%N.
    rewrite Hi, Hn. cbn [andb orb].
    destruct (underscores_ok None (c :: s)); [| discriminate].
    destruct (parse_decimal _) as [[m e]|]; [| discriminate].
    intros H; inversion H; subst. apply of_decimal_positive.
Qed.

Lemma normalize_euro_group (g : text) (x : float) :
  Forall group_char g -> normalize_euro g = Some x -> positive_float x.
Proof.
  intros Hg. unfold normalize_euro, float_or_none.
  set (candidate := replace blank [] (strip g)).
  assert (Hc : Forall group_char candidate).
  { subst candidate. eapply Forall_replace;
      [apply Forall_strip; exact Hg | constructor | auto]. }
  clearbody candidate.
  assert (H1 : Forall plain_char
                 (replace comma [period] (replace period [] candidate))).
  { eapply Forall_replace with (P := group_char).
    - eapply Forall_replace; [exact Hc | constructor | auto].
    - constructor; [right; reflexivity | constructor].
    - apply group_not_comma. }
  assert (H2 : Forall plain_char (replace comma [] candidate)).
  { eapply Forall_replace; [exact Hc | constructor | apply group_not_comma]. }
  destruct (contains comma candidate && contains period candidate);
    [destruct (find period candidate <? find comma candidate)%Z |];
    match goal with
    | |- context [py_float ?t] =>
        destruct (py_float t) as [y|] eqn:Hy; [| discriminate];
        intros H; inversion H; subst;
        eapply py_float_plain; [| exact Hy]; assumption
    end.
Qed.

(** * The order of floats and the sort *)

Ltac cmp_cases :=
  repeat match goal with
  | H : context [Pos.compare_cont Eq ?a ?b] |- _ =>
      change (Pos.compare_cont Eq a b) with (Pos.compare a b) in H
  | |- context [Pos.compare_cont Eq ?a ?b] =>
      change (Pos.compare_cont Eq a b) with (Pos.compare a b)
  end;
  repeat match goal with
  | H : context [Z.compare ?a ?b] |- _ =>
      destruct (Z.compare_spec a b); simpl in H; try discriminate H
  | |- context [Z.compare ?a ?b] =>
      destruct (Z.compare_spec a b); simpl
  | H : context [Pos.compare ?a ?b] |- _ =>
      destruct (Pos.compare_spec a b); simpl in H; try discriminate H
  | |- context [Pos.compare ?a ?b] =>
      destruct (Pos.compare_spec a b); simpl
  end;
  try discriminate; try reflexivity; try lia.

Lemma flt_fle (x y : float) : flt x y = true -> fle x y = true.
Proof.
  unfold flt, fle, SFltb, SFleb.
  destruct (SFcompare x y) as [[| |]|]; auto; discriminate.
Qed.

Lemma flt_false_fle (x y : float) :
  is_nan x = false -> is_nan y = false -> flt x y = false -> fle y x = true.
Proof.
  unfold flt, fle, SFltb, SFleb.
  destruct x as [[|]|[|]| |[|] m1 e1], y as [[|]|[|]| |[|] m2 e2];
    simpl; intros Hx Hy H; try discriminate; try reflexivity; cmp_cases.
Qed.

Lemma fle_trans (x y z : float) :
  fle x y = true -> fle y z = true -> fle x z = true.
Proof.
  unfold fle, SFleb.
  destruct x as [[|]|[|]| |[|] m1 e1], y as [[|]|[|]| |[|] m2 e2],
    z as [[|]|[|]| |[|] m3 e3];
    simpl; intros H1 H2; try discriminate; try reflexivity; cmp_cases.
Qed.

Lemma sort_insert_perm (x : float) (l : list float) :
  Permutation (sort_insert x l) (x :: l).
Proof.
  induction l as [|y r IH]; simpl; [reflexivity |].
  destruct (flt x y); [reflexivity |].
  rewrite IH. apply perm_swap.
Qed.

Lemma fold_insert_perm (l acc : list float) :
  Permutation (fold_left (fun a x => sort_insert x a) l acc) (l ++ acc).
Proof.
  revert acc; induction l as [|x l IH]; intros acc; simpl; [reflexivity |].
  rewrite IH. rewrite sort_insert_perm. symmetry. apply Permutation_middle.
Qed.

Lemma py_sort_perm (l : list float) : Permutation (py_sort l) l.
Proof.
  unfold py_sort. rewrite fold_insert_perm, app_nil_r. reflexivity.
Qed.

Lemma sort_insert_sorted (x : float) (l : list float) :
  not_nan x -> Forall not_nan l -> StronglySorted fle_prop l ->
  StronglySorted fle_prop (sort_insert x l).
Proof.
  intros Hx Hl Hs. induction Hs as [|y r Hr IH Hy]; simpl.
  - constructor; constructor.
  - inversion Hl as [|y' r' Hny Hnr]; subst.
    destruct (flt x y) eqn:Hxy.
    + constructor; [constructor; assumption |].
      apply flt_fle in Hxy. constructor; [exact Hxy |].
      eapply Forall_impl; [| exact Hy].
      intros z Hz. eapply fle_trans; eauto.
    + constructor; [apply IH; assumption |].
      eapply Permutation_Forall; [symmetry; apply sort_insert_perm |].
      constructor; [apply flt_false_fle; assumption | exact Hy].
Qed.

Lemma fold_insert_sorted (l acc : list float) :
  Forall not_nan l -> Forall not_nan acc -> StronglySorted fle_prop acc ->
  StronglySorted fle_prop (fold_left (fun a x => sort_insert x a) l acc).
Proof.
  revert acc; induction l as [|x l IH]; intros acc Hl Ha Hs; simpl; auto.
  inversion Hl as [|x' l' Hx Hl']; subst.
  apply IH; auto.
  - eapply Permutation_Forall; [symmetry; apply sort_insert_perm |].
    constructor; assumption.
  - apply sort_insert_sorted; assumption.
Qed.

Lemma py_sort_sorted (l : list float) :
  Forall not_nan l -> StronglySorted fle_prop (py_sort l).
Proof.
  intros H. apply fold_insert_sorted; auto; constructor.
Qed.

Lemma sorted_split (l1 l2 : list float) (a : float) :
  StronglySorted fle_prop (l1 ++ a :: l2) ->
  Forall (fun y => fle y a = true) l1 /\ Forall (fun y => fle a y = true) l2.
Proof.
  induction l1 as [|y l1 IH]; simpl; intros H.
  - inversion H; subst. split; [constructor | assumption].
  - inversion H as [|y' r Hr Hy]; subst.
    destruct (IH Hr) as [H1 H2]. split; [| exact H2].
    constructor; [| exact H1].
    rewrite Forall_forall in Hy. apply Hy. apply in_elt.
Qed.

(** The element in the middle of a sorted list has half of the elements,
    rounded down, before it; none of them is greater, and none of those
    after it is less. *)
Lemma middle_of_sorted (l : list float) :
  Forall not_nan l -> l <> [] ->
  exists x before after,
    nth_error (py_sort l) (Nat.div (List.length (py_sort l)) 2) = Some x
    /\ Permutation (before ++ x :: after) l
    /\ List.length before = Nat.div (List.length l) 2
    /\ Forall (fun y => fle y x = true) before
    /\ Forall (fun y => fle x y = true) after.
Proof.
  intros Hn Hne.
  pose proof (py_sort_perm l) as Hp.
  pose proof (Permutation_length Hp) as Hlen.
  assert (Hpos : 0 < List.length l).
  { destruct l; [congruence | simpl; lia]. }
  destruct (nth_error (py_sort l) (Nat.div (List.length (py_sort l)) 2))
    as [x|] eqn:Hx.
  - destruct (nth_error_split _ _ Hx) as [before [after [Hs Hb]]].
    exists x, before, after.
    split; [reflexivity |].
    split; [rewrite <- Hs; exact Hp |].
    split; [rewrite Hb, Hlen; reflexivity |].
    apply sorted_split. rewrite <- Hs. apply py_sort_sorted, Hn.
  - apply nth_error_None in Hx. rewrite Hlen in Hx.
    pose proof (Nat.div_lt (List.length l) 2 Hpos). lia.
Qed.

(** * The rule for digit texts is not reached *)

Lemma decimal_facts (c : char) :
  is_decimal c = true ->
  is_space c = false /\ is_float_space c = false
  /\ c <> blank /\ c <> period /\ c <> comma /\ c <> 95%N
  /\ (c =? 45)%N = false /\ (c =? 43)%N = false /\ lower c = c.
Proof.
  unfold is_decimal, is_space, is_float_space, lower, blank, period, comma,
    between.
  intros H. to_prop.
  assert (E : ((65 <=? c) && (c <=? 90))%N = false).
  { apply andb_false_iff. left. apply N.leb_gt. lia. }
  rewrite E. to_prop. repeat split; try lia.
Qed.

Lemma lstrip_decimal (s : text) :
  Forall (fun c => is_decimal c = true) s -> lstrip s = s.
Proof.
  destruct 1 as [|c s Hc Hs]; [reflexivity |]. simpl.
  destruct (decimal_facts c Hc) as [-> _]. reflexivity.
Qed.

Lemma lstrip_float_decimal (s : text) :
  Forall (fun c => is_decimal c = true) s -> lstrip_float s = s.
Proof.
  destruct 1 as [|c s Hc Hs]; [reflexivity |]. simpl.
  destruct (decimal_facts c Hc) as [_ [-> _]]. reflexivity.
Qed.

Lemma strip_decimal (s : text) :
  Forall (fun c => is_decimal c = true) s -> strip s = s.
Proof.
  intros H. unfold strip, rstrip. rewrite (lstrip_decimal s H).
  rewrite lstrip_decimal; [apply rev_involutive | apply Forall_rev, H].
Qed.

Lemma replace_absent (c : char) (by_ s : text) :
  Forall (fun x => x <> c) s -> replace c by_ s = s.
Proof.
  unfold replace. induction 1 as [|x s Hx Hs IH]; simpl; [reflexivity |].
  destruct (N.eqb_spec x c); [contradiction |]. simpl. rewrite IH. reflexivity.
Qed.

Lemma contains_absent (c : char) (s : text) :
  Forall (fun x => x <> c) s -> contains c s = false.
Proof.
  unfold contains. induction 1 as [|x s Hx Hs IH]; simpl; [reflexivity |].
  destruct (N.eqb_spec x c); [contradiction | exact IH].
Qed.

Lemma span_decimal_all (s : text) :
  Forall (fun c => is_decimal c = true) s -> span_decimal s = (s, []).
Proof.
  induction 1 as [|c s Hc Hs IH]; simpl; [reflexivity |].
  rewrite Hc, IH. reflexivity.
Qed.

Lemma underscores_ok_absent (prev : option char) (s : text) :
  Forall (fun x => x <> 95%N) s -> underscores_ok prev s = true.
Proof.
  intros H. revert prev. induction H as [|x s Hx Hs IH]; intros prev; simpl;
    [reflexivity |].
  destruct (N.eqb_spec x 95); [contradiction | apply IH].
Qed.

Lemma filter_absent (s : text) :
  Forall (fun x => x <> 95%N) s ->
  filter (fun c => negb (c =? 95)%N) s = s.
Proof.
  induction 1 as [|x s Hx Hs IH]; simpl; [reflexivity |].
  destruct (N.eqb_spec x 95); [contradiction |]. simpl. rewrite IH.
  reflexivity.
Qed.

Lemma py_float_decimal (s : text) :
  s <> [] -> Forall (fun c => is_decimal c = true) s ->
  py_float s = Ret (of_decimal false (digits_value 0 s) 0).
Proof.
  intros Hne H.
  assert (H95 : Forall (fun x => x <> 95%N) s).
  { eapply Forall_impl; [| exact H]. intros c Hc. apply decimal_facts, Hc. }
  unfold py_float. rewrite (lstrip_float_decimal s H).
  rewrite lstrip_float_decimal by (apply Forall_rev, H).
  rewrite rev_involutive.
  destruct s as [|c r]; [congruence |].
  inversion H as [|c' r' Hc Hr]; subst.
  destruct (decimal_facts c Hc) as [_ [_ [_ [_ [_ [_ [H45 [H43 Hlow]]]]]]]].
  unfold split_sign. rewrite H45, H43.
  assert (Hi : (c =? 105)%N = false /\ (c =? 110)%N = false).
  { unfold is_decimal, between in Hc. to_prop. lia. }
  destruct Hi as [Hi Hn].
  cbn [map text_eqb u list_ascii_of_string].
  change (N_of_ascii "i") with 105%N. change (N_of_ascii "n") with 110%N.
  rewrite Hlow, Hi, Hn. cbn [andb orb].
  rewrite (underscores_ok_absent None (c :: r) H95).
  rewrite (filter_absent (c :: r) H95).
  unfold parse_decimal. rewrite (span_decimal_all (c :: r) H).
  cbn [is_emptyb andb]. rewrite app_nil_r. reflexivity.
Qed.

(** A text of decimal digits is parsed by [try_float], so [_as_eur] does
    not reach its rule for digit texts, and the text is never divided. *)
Lemma decimal_text_is_parsed (rt : Builtins) (s : text) :
  isdigit s = true -> forallb is_decimal s = true ->
  try_float rt (JStr s) = Some (of_decimal false (digits_value 0 s) 0)
  /\ _as_eur rt (JStr s) = Ret (Some (of_decimal false (digits_value 0 s) 0)).
Proof.
  intros Hd Hall.
  assert (Hne : s <> []) by (intros ->; discriminate Hd).
  assert (H : Forall (fun c => is_decimal c = true) s)
    by (apply Forall_forall; exact (proj1 (forallb_forall _ _) Hall)).
  assert (Hno : forall c, (forall x, is_decimal x = true -> x <> c) ->
                          Forall (fun x => x <> c) s).
  { intros c Hc. eapply Forall_impl; [| exact H]. exact Hc. }
  assert (Hb : Forall (fun x => x <> blank) s)
    by (apply Hno; intros x Hx; apply decimal_facts, Hx).
  assert (Hp : Forall (fun x => x <> period) s)
    by (apply Hno; intros x Hx; apply decimal_facts, Hx).
  assert (Hk : Forall (fun x => x <> comma) s)
    by (apply Hno; intros x Hx; apply decimal_facts, Hx).
  assert (Ht : try_float rt (JStr s)
               = Some (of_decimal false (digits_value 0 s) 0)).
  { unfold try_float. cbn [py_str].
    rewrite (strip_decimal s H), (replace_absent blank [] s Hb).
    rewrite (contains_absent comma s Hk). cbn [andb].
    rewrite (replace_absent period [] s Hp).
    rewrite (replace_absent comma [period] s Hk).
    unfold float_or_none. rewrite (py_float_decimal s Hne H). reflexivity. }
  split; [exact Ht |].
  unfold _as_eur. rewrite Ht. cbn [is_int]. rewrite andb_false_r.
  reflexivity.
Qed.

(** * The extractor: the structured-data strategy *)

Lemma scan_items_method (rt : Builtins) (items : list json)
                        (p : option float) (c : json) (m : text) :
  scan_items rt items = Ret (Some (p, c, m)) ->
  m = u "jsonld" \/ m = u "jsonld-root".
Proof.
  induction items as [|obj rest IH]; simpl; [discriminate |].
  destruct obj as [| b | z | f | s | l | o]; auto.
  destruct (get (u "offers") o) as [| b | z | f | s | l | offers];
    simpl;
    try (destruct (has_key (u "price") o); auto;
         destruct (_as_eur rt (get (u "price") o)) as [[x|]|e]; simpl; auto;
         [ intros H; inversion H; auto | discriminate ]).
  destruct (_as_eur rt (py_or (get (u "price") offers)
                              (get (u "lowPrice") offers))) as [[x|]|e];
    simpl.
  - intros H; inversion H; auto.
  - destruct (has_key (u "price") o); auto.
    destruct (_as_eur rt (get (u "price") o)) as [[x|]|e]; simpl; auto;
      [ intros H; inversion H; auto | discriminate ].
  - discriminate.
Qed.

(** C2 (as amended).  In the structured-data strategy an integer whose
    float is at least 10000 is divided by 100, and a smaller integer is
    kept; a value that is neither an integer nor a text made of digits is
    never divided: it is what [try_float] gives.  The method of a
    structured-data result is [jsonld] or [jsonld-root], with or without
    the division; so the integer 12999 gives the float nearest to 129.99
    with the method [jsonld]. *)
Theorem cents_heuristic (rt : Builtins) :
  (forall n parsed,
     try_float rt (JInt n) = Some parsed -> fle f10000 parsed = true ->
     _as_eur rt (JInt n) = Ret (Some (fdiv parsed f100)))
  /\ (forall n parsed,
        try_float rt (JInt n) = Some parsed -> fle f10000 parsed = false ->
        _as_eur rt (JInt n) = Ret (Some parsed))
  /\ (forall v,
        is_int v = false -> (forall s, v = JStr s -> isdigit s = false) ->
        _as_eur rt v = Ret (try_float rt v))
  /\ (forall items p c m,
        scan_items rt items = Ret (Some (p, c, m)) ->
        m = u "jsonld" \/ m = u "jsonld-root")
  /\ (exists x,
        extract_price rt (page_with_offer (JInt 12999))
        = Ret (Some x, EUR, u "jsonld")
        /\ nearest_binary64 x 12999 100).
Proof.
  split; [| split; [| split; [| split]]].
  - intros n parsed Hp Hge. unfold _as_eur. rewrite Hp, Hge. reflexivity.
  - intros n parsed Hp Hlt. unfold _as_eur. rewrite Hp, Hlt. reflexivity.
  - intros v Hint Hstr. unfold _as_eur.
    destruct (try_float rt v) as [parsed|] eqn:Hp.
    + rewrite Hint, andb_false_r. reflexivity.
    + destruct v as [| b | z | f | s | l | o]; try reflexivity.
      rewrite (Hstr s eq_refl). reflexivity.
  - intros items p c m. apply scan_items_method.
  - eexists. split; [vm_compute; reflexivity |].
    vm_compute. intuition discriminate.
Qed.

Lemma cents_heuristic_witness :
  try_float example_runtime (JInt 12999) = Some (of_Z 12999)
  /\ fle f10000 (of_Z 12999) = true
  /\ _as_eur example_runtime (JInt 12999)
     = Ret (Some (fdiv (of_Z 12999) f100))
  /\ is_int (JStr (u "129,99")) = false
  /\ isdigit (u "129,99") = false
  /\ _as_eur example_runtime (JStr (u "129,99"))
     = Ret (try_float example_runtime (JStr (u "129,99"))).
Proof.
  split; [reflexivity |].
  split; [reflexivity |].
  split.
  { exact (proj1 (cents_heuristic example_runtime) 12999%Z (of_Z 12999)
             eq_refl eq_refl). }
  split; [reflexivity |].
  split; [reflexivity |].
  apply (proj1 (proj2 (proj2 (cents_heuristic example_runtime)))).
  - reflexivity.
  - intros s H. inversion H; subst. reflexivity.
Defined.

(** C2, counterexample.  The text "12999" is made of digits and is at
    least 10000, yet it is not divided by 100: [try_float] parses it, so the
    rule for digit texts is not reached.  And the result for the integer
    12999, which is divided, has the same method as the result for the
    integer 129, which is not: no method says that cents were adjusted. *)
Lemma digit_text_is_not_divided :
  isdigit (u "12999") = true
  /\ _as_eur example_runtime (JStr (u "12999")) = Ret (Some (of_Z 12999))
  /\ of_Z 12999 <> fdiv (of_Z 12999) f100
  /\ extract_price example_runtime (page_with_offer (JStr (u "12999")))
     = Ret (Some (of_Z 12999), EUR, u "jsonld")
  /\ extract_price example_runtime (page_with_offer (JInt 12999))
     = Ret (Some (fdiv (of_Z 12999) f100), EUR, u "jsonld")
  /\ extract_price example_runtime (page_with_offer (JInt 129))
     = Ret (Some (of_Z 129), EUR, u "jsonld").
Proof.
  repeat split; try (vm_compute; reflexivity).
  vm_compute. discriminate.
Qed.

(** The order of the strategies: the first one that returns decides. *)
Lemma strategy_order (rt : Builtins) (html : Soup) :
  (forall r, scan_scripts rt (json_scripts html) = Ret (Some r) ->
             extract_price rt html = Ret r)
  /\ (forall r, scan_scripts rt (json_scripts html) = Ret None ->
                scan_hints html META_HINTS = Ret (Some r) ->
                extract_price rt html = Ret r)
  /\ (scan_scripts rt (json_scripts html) = Ret None ->
      scan_hints html META_HINTS = Ret None ->
      extract_price rt html = Ret (text_fallback html)).
Proof.
  unfold extract_price. repeat split.
  - intros r H. rewrite H. reflexivity.
  - intros r H1 H2. rewrite H1. cbn [bind]. rewrite H2. reflexivity.
  - intros H1 H2. rewrite H1. cbn [bind]. rewrite H2. reflexivity.
Qed.

(** C1, at the failing input.  The page has no structured data; its
    [span] with [itemprop="price"] shows 1,234,567 after the euro sign,
    which matches [PRICE_RE] and which [normalize_euro] cannot parse; the
    text of the page also shows 19,99.  The selector strategy returns a
    null price with its own method, although the text fallback gives the
    float nearest to 19.99.  A [meta] tag with [itemprop="price"] and
    without [content] makes [extract_price] raise.  On a page with a
    structured price and a conflicting selector price the structured price
    is returned. *)
Theorem selector_match_returns_null_price :
  PriceRe.search (strip (euro :: u " 1,234,567")) = Some (u "1,234,567")
  /\ normalize_euro (u "1,234,567") = None
  /\ extract_price example_runtime page_selector_unparsable
     = Ret (None, EUR, u "selector:" ++ span_itemprop_price)
  /\ (exists x,
        text_fallback page_selector_unparsable
        = (Some x, EUR, u "text-fallback")
        /\ nearest_binary64 x 1999 100)
  /\ extract_price example_runtime page_meta_without_content
     = Raise AttributeError
  /\ extract_price example_runtime (page_with_offer (JInt 129))
     = Ret (Some (of_Z 129), EUR, u "jsonld").
Proof.
  split; [vm_compute; reflexivity |].
  split; [vm_compute; reflexivity |].
  split; [vm_compute; reflexivity |].
  split; [| split; vm_compute; reflexivity].
  eexists. split; [vm_compute; reflexivity |].
  vm_compute. intuition discriminate.
Qed.

(** * The extractor: the result on every path *)

Lemma scan_scripts_method (rt : Builtins) (scripts : list (option json))
                          (p : option float) (c : json) (m : text) :
  scan_scripts rt scripts = Ret (Some (p, c, m)) ->
  m = u "jsonld" \/ m = u "jsonld-root".
Proof.
  induction scripts as [|[data|] rest IH]; simpl; [discriminate | | exact IH].
  destruct (scan_items rt match data with JArr l => l | _ => [data] end)
    as [[[[p' c'] m']|]|e] eqn:Hi; simpl; [| exact IH | discriminate].
  intros H; inversion H; subst. eapply scan_items_method; eauto.
Qed.

Lemma scan_hints_spec (html : Soup) (hints : list (text * option text))
                      (p : option float) (c : json) (m : text) :
  scan_hints html hints = Ret (Some (p, c, m)) ->
  exists selector group1,
    m = u "selector:" ++ selector /\ c = EUR
    /\ Forall group_char group1 /\ p = normalize_euro group1.
Proof.
  induction hints as [|[selector attr] rest IH]; simpl; [discriminate |].
  destruct (select_one html selector) as [element|]; [| exact IH].
  destruct (match attr with
            | Some a =>
                match attr_get element a with
                | Some v => Ret v
                | None => Raise AttributeError
                end
            | None => Ret (element_text element)
            end) as [raw|e]; simpl; [| discriminate].
  destruct (PriceRe.search (strip raw)) as [g|] eqn:Hg; [| exact IH].
  intros H; inversion H; subst.
  exists selector, g. repeat split. eapply search_chars; eauto.
Qed.

Lemma drop_none_in (x : float) (l : list (option float)) :
  In x (drop_none l) <-> In (Some x) l.
Proof.
  induction l as [|[y|] l IH]; simpl; [tauto | |].
  - rewrite IH. split; intros [H | H]; auto; left; congruence.
  - rewrite IH. split; [auto | intros [H | H]; [discriminate | auto]].
Qed.

Lemma candidates_positive (t : text) :
  Forall positive_float
    (drop_none (map normalize_euro (PriceRe.finditer t))).
Proof.
  apply Forall_forall. intros x Hx.
  apply drop_none_in in Hx. apply in_map_iff in Hx.
  destruct Hx as [g [Hg Hin]].
  pose proof (finditer_chars t) as Hc. rewrite Forall_forall in Hc.
  eapply normalize_euro_group; [apply Hc; exact Hin | exact Hg].
Qed.

Lemma candidates_not_nan (t : text) :
  Forall not_nan (drop_none (map normalize_euro (PriceRe.finditer t))).
Proof.
  eapply Forall_impl; [| apply candidates_positive].
  intros x Hx. apply positive_float_facts in Hx. apply Hx.
Qed.

Lemma text_fallback_cases (html : Soup) :
  let cs := drop_none (map normalize_euro (PriceRe.finditer (page_text html))) in
  (cs = [] /\ text_fallback html = (None, EUR, u "none"))
  \/ (cs <> []
      /\ text_fallback html
         = (nth_error (py_sort cs) (Nat.div (List.length (py_sort cs)) 2),
            EUR, u "text-fallback")).
Proof.
  intros cs. unfold text_fallback. fold cs.
  destruct cs as [|x cs']; [left; split; reflexivity |].
  right. split; [discriminate | reflexivity].
Qed.

(** C7, counterexample.  A structured price -5 is returned as it is, and
    a structured price "nan" is returned as a NaN. *)
Lemma structured_price_negative_or_nan :
  extract_price example_runtime (page_with_offer (JInt (-5)))
  = Ret (Some (of_Z (-5)), EUR, u "jsonld")
  /\ nonneg (of_Z (-5)) = false
  /\ extract_price example_runtime (page_with_offer (JStr (u "nan")))
     = Ret (Some S754_nan, EUR, u "jsonld")
  /\ is_finite S754_nan = false.
Proof. repeat split; vm_compute; reflexivity. Qed.

(** C7 (as amended).  On every path on which [extract_price] returns, the
    method is not empty.  When the structured-data strategy yields nothing,
    the price is null or a number that is not negative and not a NaN (it
    can be the positive infinity); when the other strategies yield nothing
    either, the price is null and the method is [none]. *)
Theorem extraction_invariant (rt : Builtins) (html : Soup)
                             (p : option float) (c : json) (m : text) :
  extract_price rt html = Ret (p, c, m) ->
  m <> []
  /\ (scan_scripts rt (json_scripts html) = Ret None ->
      forall x, p = Some x -> is_nan x = false /\ nonneg x = true)
  /\ (scan_scripts rt (json_scripts html) = Ret None ->
      scan_hints html META_HINTS = Ret None ->
      drop_none (map normalize_euro (PriceRe.finditer (page_text html))) = [] ->
      p = None /\ m = u "none").
Proof.
  unfold extract_price.
  destruct (scan_scripts rt (json_scripts html)) as [[r|]|e] eqn:Hs;
    cbn [bind]; [| | discriminate].
  - intros H; inversion H; subst.
    split; [| split; intros Hx; discriminate Hx].
    destruct (scan_scripts_method _ _ _ _ _ Hs) as [-> | ->]; discriminate.
  - destruct (scan_hints html META_HINTS) as [[r|]|e] eqn:Hh;
      cbn [bind]; [| | discriminate].
    + intros H; inversion H; subst.
      destruct (scan_hints_spec _ _ _ _ _ Hh) as [sel [g [-> [_ [Hg ->]]]]].
      split; [discriminate |].
      split; [| intros _ Hx; discriminate Hx].
      intros _ x Hx. apply positive_float_facts.
      eapply normalize_euro_group; [exact Hg | exact Hx].
    + intros H; inversion H as [Ht]; clear H.
      destruct (text_fallback_cases html) as [[_ Hc] | [Hne Hc]];
        rewrite Hc in Ht; inversion Ht; subst; clear Ht.
      * split; [discriminate |].
        split; [intros _ x Hx; discriminate | intros; split; reflexivity].
      * split; [discriminate |].
        split; [| intros _ _ He; contradiction].
        intros _ x Hx.
        apply nth_error_In in Hx.
        apply (Permutation_in _ (py_sort_perm _)) in Hx.
        pose proof (candidates_positive (page_text html)) as Hp.
        rewrite Forall_forall in Hp. apply positive_float_facts, Hp, Hx.
Qed.

Lemma extraction_invariant_witness :
  extract_price example_runtime page_three_prices
  = Ret (Some (of_Z 20), EUR, u "text-fallback")
  /\ scan_scripts example_runtime (json_scripts page_three_prices) = Ret None
  /\ u "text-fallback" <> []
  /\ is_nan (of_Z 20) = false /\ nonneg (of_Z 20) = true.
Proof.
  split; [reflexivity |].
  split; [reflexivity |].
  destruct (extraction_invariant example_runtime page_three_prices
              (Some (of_Z 20)) EUR (u "text-fallback") eq_refl)
    as [Hm [Hp _]].
  split; [exact Hm |].
  exact (Hp eq_refl (of_Z 20) eq_refl).
Defined.

(** C6, counterexample.  The text of the page holds a match of
    [PRICE_RE], the first two strategies yield nothing, and yet the result
    is a null price with the method [none]: the match cannot be parsed.
    And with the two matches 10 and 20 the result is 20, the greater of the
    two middle values. *)
Lemma unparsable_match_gives_none :
  PriceRe.finditer (page_text page_text_unparsable) = [u "1,234,567"]
  /\ scan_scripts example_runtime (json_scripts page_text_unparsable)
     = Ret None
  /\ scan_hints page_text_unparsable META_HINTS = Ret None
  /\ extract_price example_runtime page_text_unparsable
     = Ret (None, EUR, u "none")
  /\ extract_price example_runtime page_two_prices
     = Ret (Some (of_Z 20), EUR, u "text-fallback").
Proof. repeat split; vm_compute; reflexivity. Qed.

(** C6 (as amended).  When the first two strategies yield nothing and at
    least one match in the text of the page can be parsed, the result is
    the element in the middle of the sorted list of the parsed matches,
    with the method [text-fallback]: half of the list, rounded down, comes
    before it and holds nothing greater, and nothing after it is less; with
    an even number of matches it is the greater of the two middle ones.
    For the matches 1000, 10 and 20 the result is 20. *)
Theorem text_fallback_median (rt : Builtins) (html : Soup) :
  scan_scripts rt (json_scripts html) = Ret None ->
  scan_hints html META_HINTS = Ret None ->
  drop_none (map normalize_euro (PriceRe.finditer (page_text html))) <> [] ->
  (exists x before after,
     extract_price rt html = Ret (Some x, EUR, u "text-fallback")
     /\ Permutation (before ++ x :: after)
          (drop_none (map normalize_euro (PriceRe.finditer (page_text html))))
     /\ List.length before
        = Nat.div
            (List.length
               (drop_none
                  (map normalize_euro (PriceRe.finditer (page_text html)))))
            2
     /\ Forall (fun y => fle y x = true) before
     /\ Forall (fun y => fle x y = true) after)
  /\ extract_price rt page_three_prices
     = Ret (Some (of_Z 20), EUR, u "text-fallback").
Proof.
  intros Hs Hh Hne. split; [| vm_compute; reflexivity].
  destruct (middle_of_sorted _ (candidates_not_nan (page_text html)) Hne)
    as [x [before [after [Hx [Hp [Hl [Hb Ha]]]]]]].
  exists x, before, after.
  split; [| repeat split; assumption].
  unfold extract_price. rewrite Hs. cbn [bind]. rewrite Hh. cbn [bind].
  destruct (text_fallback_cases html) as [[Hc _] | [_ Hc]];
    [contradiction |].
  rewrite Hc, Hx. reflexivity.
Qed.

Lemma text_fallback_median_witness :
  scan_scripts example_runtime (json_scripts page_three_prices) = Ret None
  /\ scan_hints page_three_prices META_HINTS = Ret None
  /\ drop_none (map normalize_euro (PriceRe.finditer (page_text page_three_prices)))
     = [of_Z 1000; of_Z 10; of_Z 20]
  /\ exists x before after,
       extract_price example_runtime page_three_prices
       = Ret (Some x, EUR, u "text-fallback")
       /\ Permutation (before ++ x :: after) [of_Z 1000; of_Z 10; of_Z 20]
       /\ List.length before = 1.
Proof.
  split; [reflexivity |].
  split; [reflexivity |].
  split; [reflexivity |].
  destruct (proj1 (text_fallback_median example_runtime page_three_prices
                     eq_refl eq_refl
                     ltac:(vm_compute; discriminate)))
    as [x [before [after [Hx [Hp [Hl _]]]]]].
  exists x, before, after.
  split; [exact Hx |]. split; [exact Hp | exact Hl].
Defined.

(** * The bounds check and the divisor *)









(** * The option coercions *)

(** C10.  An option [min_price] or [max_price] that is missing, that is
    not a number, or that is a zero gives the bound 0.0 or 1e9; so
    [max_price] "0" gives 1e9.  A [price_divisor] that is a zero gives a
    site without divisor, for which the price and the method are unchanged
    and nothing is logged. *)
Theorem falsy_or_coercions (rt : Builtins) (options : list (text * json))
                           (app : App) :
  App_init rt options = Ret app ->
  ((lookup (u "min_price") options = None
    \/ falls_back rt (get (u "min_price") options)) ->
   min_price app = zero)
  /\ ((lookup (u "max_price") options = None
       \/ falls_back rt (get (u "max_price") options)) ->
      max_price app = f1e9)
  /\ (forall m site z,
        init_site rt (JObj m) = Ret site ->
        try_float rt (get (u "price_divisor") m) = Some z ->
        PyFloat.truthy z = false ->
        price_divisor site = None
        /\ forall p method, apply_divisor rt site p method = (p, method, []))
  /\ (exists app',
        App_init example_runtime [(u "max_price", JStr (u "0"))] = Ret app'
        /\ max_price app' = f1e9).
Proof.
  intros Hinit.
  assert (Hmiss : forall k, lookup k options = None ->
                            falls_back rt (get k options)).
  { intros k Hk. left. unfold get, get_default. rewrite Hk. reflexivity. }
  assert (Hor : forall v d, falls_back rt v -> float_or (try_float rt v) d = d).
  { intros v d [Hn | [z [Hz Ht]]]; unfold float_or.
    - rewrite Hn. reflexivity.
    - rewrite Hz, Ht. reflexivity. }
  unfold App_init in Hinit.
  destruct (match get_default (u "sites") (JArr []) options with
            | JArr l => init_sites rt l
            | JObj [] | JStr [] => Ret []
            | _ => Raise TypeError
            end) as [ss | e]; simpl in Hinit; [| discriminate].
  inversion Hinit; subst app; clear Hinit. cbn [min_price max_price].
  split; [| split; [| split]].
  - intros [Hk | Hf]; apply Hor; auto.
  - intros [Hk | Hf]; apply Hor; auto.
  - intros m site z Hs Hz Ht. unfold init_site in Hs.
    destruct (subscript (u "id") m) as [i | e]; simpl in Hs; [| discriminate].
    destruct (subscript (u "url") m) as [l | e]; simpl in Hs; [| discriminate].
    inversion Hs; subst site; clear Hs.
    assert (Hd : float_or_None (try_float rt (get (u "price_divisor") m)) = None).
    { unfold float_or_None. rewrite Hz, Ht. reflexivity. }
    split; [exact Hd |].
    intros p method. unfold apply_divisor. cbn [price_divisor]. rewrite Hd.
    reflexivity.
  - eexists. split; reflexivity.
Qed.

Lemma falsy_or_coercions_witness :
  App_init example_runtime
    [ (u "max_price", JStr (u "0")); (u "min_price", JStr (u "n/a"));
      (u "sites", JArr [site_entry (JStr (u "0,0"))]) ]
  = Ret {| min_price := zero; max_price := f1e9; sites := [site_A] |}
  /\ falls_back example_runtime (JStr (u "0"))
  /\ falls_back example_runtime (JStr (u "n/a"))
  /\ max_price {| min_price := zero; max_price := f1e9; sites := [site_A] |}
     = f1e9.
Proof.
  split; [reflexivity |].
  split; [right; eexists; split; reflexivity |].
  split; [left; reflexivity |].
  apply (proj1 (proj2 (falsy_or_coercions example_runtime
           [ (u "max_price", JStr (u "0")); (u "min_price", JStr (u "n/a"));
             (u "sites", JArr [site_entry (JStr (u "0,0"))]) ]
           _ eq_refl))).
  right. right. eexists. split; reflexivity.
Defined.

(** * The cycle: fetching *)

Lemma blocking_is_failure (status : Z) :
  blocking status = true -> is_success status = false.
Proof.
  unfold blocking, is_success. intros H.
  apply orb_true_iff in H. destruct H as [H | H]; apply Z.eqb_eq in H;
    subst; reflexivity.
Qed.

Lemma process_page_no_request (rt : Builtins) (app : App) (site : Site)
                              (html : Soup) (status : Z) (hint : text)
                              (p : profile) :
  existsb (is_get p) (fst (process_page rt app site html status hint)) = false.
Proof.
  unfold process_page.
  destruct (extract_price rt html) as [[[price currency] method]|e];
    [| reflexivity].
  destruct price as [x|]; [| destruct p; reflexivity].
  unfold apply_divisor.
  destruct (price_divisor site) as [d|];
    [destruct (PyFloat.truthy d); [destruct (flt zero d) |] |];
    match goal with
    | |- context [check_bounds ?a ?b ?c ?d] => destruct (check_bounds a b c d)
    end; destruct p; reflexivity.
Qed.

(** The first request of a site.  A transport exception, and a status
    that is not 2xx, 403 or 406, are terminal for the site: the error and
    a null state are published, no second request is made, and the loop
    goes on with the next site.  A status 403 or 406 is followed by one
    request with the alternate headers. *)
Lemma first_request_outcomes (rt : Builtins)
                             (http_get : Site -> profile -> fetch_result)
                             (app : App) (site : Site) :
  (forall rendered,
     http_get site PrimaryHeaders = FetchError rendered ->
     exists evs,
       scrape_site rt http_get app site = (evs, None)
       /\ In (PublishState (site_id site) None) evs
       /\ In (PublishError (site_id site) rendered None) evs
       /\ existsb (is_get AlternateHeaders) evs = false
       /\ existsb is_price_update evs = false)
  /\ (forall status html,
        http_get site PrimaryHeaders = Response status html ->
        is_success status = false -> blocking status = false ->
        exists evs,
          scrape_site rt http_get app site = (evs, None)
          /\ In (PublishState (site_id site) None) evs
          /\ In (PublishError (site_id site) (u "HTTP " ++ str_of_Z status)
                   None) evs
          /\ existsb (is_get AlternateHeaders) evs = false
          /\ existsb is_price_update evs = false)
  /\ (forall status html,
        http_get site PrimaryHeaders = Response status html ->
        blocking status = true ->
        List.length (filter (is_get AlternateHeaders)
                       (fst (scrape_site rt http_get app site))) = 1)
  /\ (forall evs rest,
        scrape_site rt http_get app site = (evs, None) ->
        scrape_sites rt http_get app (site :: rest)
        = (evs ++ fst (scrape_sites rt http_get app rest),
           snd (scrape_sites rt http_get app rest))).
Proof.
  split; [| split; [| split]].
  - intros rendered H. unfold scrape_site. rewrite H.
    eexists. split; [reflexivity |]. cbn. repeat split; auto 10.
  - intros status html H Hs Hb. unfold scrape_site. rewrite H, Hs, Hb.
    eexists. split; [reflexivity |]. cbn. repeat split; auto 10.
  - intros status html H Hb. unfold scrape_site.
    rewrite H, (blocking_is_failure status Hb), Hb.
    destruct (http_get site AlternateHeaders) as [status' html' | r];
      [| reflexivity].
    pose proof (process_page_no_request rt app site html' status' (u "retry")
                  AlternateHeaders) as Hn.
    destruct (process_page rt app site html' status' (u "retry"))
      as [evs out]. cbn [fst] in *.
    rewrite !filter_app. cbn.
    assert (Hf : filter (is_get AlternateHeaders) evs = []).
    { clear - Hn. induction evs as [|e evs IH]; [reflexivity |].
      cbn in *. apply orb_false_iff in Hn. destruct Hn as [He Hr].
      rewrite He. apply IH, Hr. }
    rewrite Hf. reflexivity.
  - intros evs rest H. cbn [scrape_sites]. rewrite H.
    destruct (scrape_sites rt http_get app rest). reflexivity.
Qed.

(** C9, at the failing input.  Site a answers 403 and its second request,
    with the alternate headers, fails in the transport; site b is next.
    The exception leaves [scrape_once]: the cycle ends after the second
    request, no error is published for site a, and site b is not fetched,
    although on its own it would publish a price.  When site a answers 403
    to the second request as well, no error is published either: the body
    of that answer is parsed and a null price is published with the
    status 403. *)
Theorem retry_failure_aborts_cycle :
  scrape_once example_runtime network_blocked_then_down app_two_sites
  = ([ Log INFO (u "Starting scrape cycle.");
       Log DEBUG (u "Publishing MQTT discovery payload.");
       Discovery (site_id site_A);
       Log DEBUG (u "Fetching page.");
       Get (site_url site_A) PrimaryHeaders;
       Log WARNING
         (u "Received blocking status; retrying with alternate headers.");
       Get (site_url site_A) AlternateHeaders ],
     Some TransportError)
  /\ (exists evs,
        scrape_site example_runtime network_blocked_then_down app_two_sites
          site_B = (evs, None)
        /\ existsb is_price_update evs = true)
  /\ scrape_site example_runtime network_blocked_twice app_two_sites site_A
     = ([ Log DEBUG (u "Publishing MQTT discovery payload.");
          Discovery (site_id site_A);
          Log DEBUG (u "Fetching page.");
          Get (site_url site_A) PrimaryHeaders;
          Log WARNING
            (u "Received blocking status; retrying with alternate headers.");
          Get (site_url site_A) AlternateHeaders;
          Log WARNING (u "Failed to detect a price.");
          Log INFO (u "Publishing price update.");
          PublishState (site_id site_A) None;
          PublishAttributes (site_id site_A) (site_id site_A)
            (site_url site_A) EUR (u "none+retry") 403 ],
        None).
Proof.
  split; [vm_compute; reflexivity |].
  split; [| vm_compute; reflexivity].
  eexists. split; vm_compute; reflexivity.
Qed.

(** * The scheduler *)

Import Scheduler.

Lemma run_app (c : config) (l1 l2 : list label) (st : state) :
  run c st (l1 ++ l2)
  = match run c st l1 with
    | Some st' => run c st' l2
    | None => None
    end.
Proof.
  revert st; induction l1 as [|l l1 IH]; intros st; simpl; [reflexivity |].
  destruct (step c st l); [apply IH | reflexivity].
Qed.

Lemma refreshes_app (l1 l2 : list label) :
  refreshes (l1 ++ l2) = refreshes l1 + refreshes l2.
Proof. unfold refreshes. rewrite filter_app, length_app. reflexivity. Qed.

(** Requests that arrive while the event exists coalesce in its flag. *)
Lemma run_refresh_event (c : config) (k : nat) (st : state) (b : bool) :
  force_event st = Some b ->
  run c st (List.repeat Refresh (S k))
  = Some {| force_event := Some true; pending := pending st;
            at_point := at_point st; started := started st |}.
Proof.
  revert st b; induction k as [|k IH]; intros st b Hb.
  - simpl. unfold _apply_force_request. rewrite Hb. reflexivity.
  - change (List.repeat Refresh (S (S k)))
      with (Refresh :: List.repeat Refresh (S k)).
    cbn [run step]. rewrite (IH _ true).
    + unfold _apply_force_request. rewrite Hb. reflexivity.
    + unfold _apply_force_request. rewrite Hb. reflexivity.
Qed.

(** Requests that arrive before the event exists are counted. *)
Lemma run_refresh_pending (c : config) (k : nat) (st : state) :
  force_event st = None ->
  run c st (List.repeat Refresh k)
  = Some {| force_event := None; pending := k + pending st;
            at_point := at_point st; started := started st |}.
Proof.
  revert st; induction k as [|k IH]; intros st Hn.
  - simpl. destruct st; simpl in *; subst; reflexivity.
  - cbn [List.repeat run step]. rewrite IH.
    + unfold _apply_force_request. rewrite Hn. cbn.
      rewrite Nat.add_succ_r. reflexivity.
    + unfold _apply_force_request. rewrite Hn. reflexivity.
Qed.

Ltac sched_unfold :=
  unfold owed, forces, latched, committed, is_set, loop_top, loop_prologue,
    _wait_for_force, after_wait, _run_scrape, _apply_force_request,
    positive_timeout, clear, at_ in *.

Ltac sched_finish :=
  cbn in *; repeat split; intros;
  try discriminate; try congruence; try reflexivity; try lia.

Lemma step_owed (c : config) (st st' : state) (l : label) :
  coherent st -> step c st l = Some st' ->
  coherent st' /\ owed st' <= owed st + b2n (is_refresh l).
Proof.
  intros [Hfd [Hev Hpd]] Hstep.
  destruct st as [ev pd pt hist]. cbn [at_point force_event pending] in *.
  assert (Hpd0 : forall b, ev = Some b -> pd = 0).
  { intros b Hb. apply Hpd. rewrite Hb. discriminate. }
  unfold coherent.
  destruct l; cbn [step at_point] in Hstep.
  - (* Refresh *)
    inversion Hstep; subst st'; clear Hstep.
    destruct ev as [b|].
    + rewrite (Hpd0 b eq_refl) in *. sched_unfold.
      destruct b, pt as [| ? [|] | [|] | ? |]; sched_finish;
        try (specialize (Hfd _ eq_refl); discriminate Hfd).
    + specialize (Hev eq_refl). subst pt. sched_unfold.
      destruct pd; sched_finish.
  - (* Start *)
    destruct pt; try discriminate.
    inversion Hstep; subst st'; clear Hstep.
    sched_unfold.
    destruct (cfg_mode c), pd as [|pd], ev as [[|]|]; cbn;
      try destruct (0 <? scan_interval c)%Z;
      try (specialize (Hpd0 _ eq_refl); discriminate Hpd0);
      sched_finish.
  - (* TimerFires *)
    destruct pt as [| [|] fd | | |]; try discriminate.
    inversion Hstep; subst st'; clear Hstep.
    destruct ev as [b|]; [| specialize (Hev eq_refl); discriminate Hev].
    rewrite (Hpd0 b eq_refl) in *. sched_unfold.
    destruct fd, b; sched_finish.
    specialize (Hfd _ eq_refl). discriminate Hfd.
  - (* ForceTaskDone *)
    destruct pt as [| sd [|] | | |]; try discriminate.
    destruct ev as [b|]; [| specialize (Hev eq_refl); discriminate Hev].
    rewrite (Hpd0 b eq_refl) in *. sched_unfold. cbn in Hstep.
    destruct b; [| discriminate].
    inversion Hstep; subst st'; clear Hstep. sched_finish.
  - (* Resume *)
    destruct ev as [b|]; [| specialize (Hev eq_refl); subst pt; discriminate].
    rewrite (Hpd0 b eq_refl) in *.
    destruct pt as [| sd fd | result | |]; try discriminate.
    + destruct fd.
      * specialize (Hfd _ eq_refl). sched_unfold. cbn in Hfd. subst b.
        destruct sd; inversion Hstep; subst st'; clear Hstep; sched_finish.
      * destruct sd; try discriminate.
        inversion Hstep; subst st'; clear Hstep. sched_unfold.
        destruct b; sched_finish.
    + inversion Hstep; subst st'; clear Hstep. sched_unfold.
      destruct result, b; sched_finish.
  - (* ScrapeReturns *)
    destruct pt; try discriminate.
    destruct ev as [b|]; [| specialize (Hev eq_refl); discriminate Hev].
    rewrite (Hpd0 b eq_refl) in *.
    inversion Hstep; subst st'; clear Hstep. sched_unfold.
    destruct b; cbn; destruct (cfg_mode c);
      try destruct (0 <? scan_interval c)%Z; sched_finish.
  - (* ScrapeRaises *)
    destruct pt; try discriminate.
    destruct ev as [b|]; [| specialize (Hev eq_refl); discriminate Hev].
    rewrite (Hpd0 b eq_refl) in *.
    inversion Hstep; subst st'; clear Hstep. sched_unfold.
    destruct b; sched_finish.
  - (* BackoffOver *)
    destruct pt; try discriminate.
    destruct ev as [b|]; [| specialize (Hev eq_refl); discriminate Hev].
    rewrite (Hpd0 b eq_refl) in *.
    inversion Hstep; subst st'; clear Hstep. sched_unfold.
    destruct b; cbn; destruct (cfg_mode c);
      try destruct (0 <? scan_interval c)%Z; sched_finish.
Qed.

Lemma run_owed (c : config) (ls : list label) (st st' : state) :
  coherent st -> run c st ls = Some st' ->
  coherent st' /\ owed st' <= owed st + refreshes ls.
Proof.
  revert st; induction ls as [|l ls IH]; intros st Hco Hrun.
  - inversion Hrun; subst. split; [assumption | unfold refreshes; simpl; lia].
  - cbn [run] in Hrun. destruct (step c st l) as [st1|] eqn:Hstep;
      [| discriminate].
    destruct (step_owed c st st1 l Hco Hstep) as [Hco1 H1].
    destruct (IH st1 Hco1 Hrun) as [Hco' H'].
    split; [assumption |].
    change (l :: ls) with ([l] ++ ls). rewrite refreshes_app.
    unfold refreshes at 1. cbn [filter].
    destruct (is_refresh l); cbn in *; lia.
Qed.

Lemma step_keeps_latch (c : config) (st st' : state) (l : label) :
  step c st l = Some st' -> latched st = true ->
  latched st' = true \/ committed st' = true
  \/ started st' = Force :: started st.
Proof.
  intros Hstep Hl.
  destruct st as [ev pd pt hist].
  unfold latched, is_set in Hl. cbn in Hl.
  destruct l; cbn [step at_point] in Hstep.
  - inversion Hstep; subst st'. left.
    unfold _apply_force_request, latched, is_set; cbn.
    destruct ev as [b|]; cbn; [reflexivity | reflexivity].
  - destruct pt; try discriminate. inversion Hstep; subst st'; clear Hstep.
    unfold loop_top, loop_prologue, _wait_for_force, after_wait, _run_scrape,
      positive_timeout, latched, committed, is_set; cbn.
    destruct (cfg_mode c), pd as [|pd], ev as [[|]|]; cbn in *;
      try discriminate; auto.
  - destruct pt as [| [|] fd | | |]; try discriminate.
    inversion Hstep; subst st'. left. exact Hl.
  - destruct pt as [| sd [|] | | |]; try discriminate.
    destruct (is_set _); [| discriminate].
    inversion Hstep; subst st'. left. exact Hl.
  - destruct pt as [| sd fd | result | |]; try discriminate.
    + destruct fd.
      * destruct sd; inversion Hstep; subst st'; cbn; auto.
      * destruct sd; try discriminate. inversion Hstep; subst st'.
        left. exact Hl.
    + inversion Hstep; subst st'. left.
      destruct result; exact Hl.
  - destruct pt; try discriminate. inversion Hstep; subst st'; clear Hstep.
    unfold _wait_for_force, after_wait, _run_scrape, latched, committed,
      is_set; cbn.
    destruct ev as [[|]|]; cbn in *; auto;
      destruct (positive_timeout c); cbn; auto.
  - destruct pt; try discriminate. inversion Hstep; subst st'.
    left. exact Hl.
  - destruct pt; try discriminate. inversion Hstep; subst st'; clear Hstep.
    unfold loop_top, _wait_for_force, after_wait, _run_scrape, latched,
      committed, is_set; cbn.
    destruct (cfg_mode c), ev as [[|]|]; cbn in *; auto;
      destruct (positive_timeout c); cbn; auto.
Qed.

(** C4.  The refresh request is a latch.  [_apply_force_request] can run
    in every state and leaves the request latched, in the flag of the event
    or, before the event exists, in the counter.  A latched request stays
    latched until the flag is cleared for a force cycle.  From the start of
    the program, the force cycles started, the latched request and the
    cycle the loop is committed to never outnumber the requests.  One or
    more requests during the wait end it without the timer, and the cycle
    that follows is a force cycle.  One or more requests during a cycle
    are followed, when the cycle returns, by one force cycle, and when that
    one returns by no further force cycle.  One or more requests before
    [loop] starts are followed by one force cycle: after the first
    scheduled cycle in interval mode, at once in calendar mode. *)
Theorem refresh_is_latched (c : config) :
  (forall st, exists st',
      step c st Refresh = Some st' /\ latched st' = true
      /\ at_point st' = at_point st /\ started st' = started st)
  /\ (forall st l st',
        step c st l = Some st' -> latched st = true ->
        latched st' = true \/ committed st' = true
        \/ started st' = Force :: started st)
  /\ (forall ls st,
        run c initial ls = Some st ->
        forces st + b2n (latched st) + b2n (committed st) <= refreshes ls)
  /\ (forall st k,
        at_point st = AwaitWait false false -> force_event st = Some false ->
        exists st',
          run c st (List.repeat Refresh (S k) ++ [ForceTaskDone; Resume; Resume])
          = Some st'
          /\ at_point st' = AwaitScrape Force
          /\ started st' = Force :: started st
          /\ force_event st' = Some false)
  /\ (forall st r k,
        at_point st = AwaitScrape r -> force_event st = Some false ->
        exists st1 st2,
          run c st (List.repeat Refresh (S k) ++ [ScrapeReturns]) = Some st1
          /\ at_point st1 = AwaitScrape Force
          /\ started st1 = Force :: started st
          /\ force_event st1 = Some false
          /\ run c st1 [ScrapeReturns] = Some st2
          /\ forces st2 = forces st1)
  /\ (forall k, exists st1,
        run c initial (List.repeat Refresh (S k) ++ [Start]) = Some st1
        /\ match cfg_mode c with
           | Interval =>
               started st1 = [Scheduled] /\ latched st1 = true
               /\ exists st2 st3,
                    run c st1 [ScrapeReturns] = Some st2
                    /\ started st2 = [Force; Scheduled]
                    /\ latched st2 = false
                    /\ run c st2 [ScrapeReturns] = Some st3
                    /\ forces st3 = 1
           | Calendar =>
               started st1 = [Force] /\ latched st1 = false
               /\ exists st2,
                    run c st1 [ScrapeReturns] = Some st2
                    /\ at_point st2 = AwaitWait false false
                    /\ started st2 = [Force]
           end).
Proof.
  split; [| split; [| split; [| split; [| split]]]].
  - intros st. eexists. split; [reflexivity |].
    destruct st as [[b|] pd pt hist]; cbn; repeat split.
  - intros st l st'. apply step_keeps_latch.
  - intros ls st Hrun.
    assert (Hco : coherent initial).
    { unfold coherent, initial; cbn. repeat split; intros; congruence. }
    destruct (run_owed c ls initial st Hco Hrun) as [_ H].
    unfold owed in H. cbn in H. exact H.
  - intros [ev pd pt hist] k Hpt Hev. cbn in Hpt, Hev. subst pt ev.
    rewrite run_app. erewrite run_refresh_event by reflexivity.
    eexists. split; [reflexivity |]. repeat split.
  - intros [ev pd pt hist] r k Hpt Hev. cbn in Hpt, Hev. subst pt ev.
    rewrite run_app. erewrite run_refresh_event by reflexivity.
    eexists. eexists. split; [reflexivity |]. cbn.
    repeat (split; [reflexivity |]).
    sched_unfold. cbn. destruct (cfg_mode c); cbn;
      try destruct (0 <? scan_interval c)%Z; reflexivity.
  - intros k. rewrite run_app. erewrite run_refresh_pending by reflexivity.
    destruct c as [[|] interval].
    + cbn -[positive_timeout]. unfold _wait_for_force.
      cbn -[positive_timeout].
      eexists. split; [reflexivity |]. cbn -[positive_timeout].
      repeat (split; [reflexivity |]).
      destruct (positive_timeout _); cbn;
        do 2 eexists; repeat split; reflexivity.
    + cbn. eexists. split; [reflexivity |]. cbn.
      repeat (split; [reflexivity |]).
      eexists. repeat split; reflexivity.
Qed.

Lemma refresh_is_latched_witness :
  let c := {| cfg_mode := Interval; scan_interval := 1800 |} in
  let waiting :=
    {| force_event := Some false; pending := 0;
       at_point := AwaitWait false false; started := [Scheduled] |} in
  at_point waiting = AwaitWait false false
  /\ force_event waiting = Some false
  /\ (exists st',
        run c waiting [Refresh; Refresh; ForceTaskDone; Resume; Resume]
        = Some st'
        /\ at_point st' = AwaitScrape Force
        /\ started st' = Force :: started waiting
        /\ force_event st' = Some false)
  /\ run c initial [Refresh; Refresh; Start; ScrapeReturns; ScrapeReturns]
     = Some {| force_event := Some false; pending := 0;
               at_point := AwaitWait false false;
               started := [Force; Scheduled] |}
  /\ 1 + 0 + 0 <= refreshes [Refresh; Refresh; Start; ScrapeReturns; ScrapeReturns].
Proof.
  intros c waiting.
  split; [reflexivity |].
  split; [reflexivity |].
  split.
  { exact (proj1 (proj2 (proj2 (proj2 (refresh_is_latched c))))
             waiting 1 eq_refl eq_refl). }
  split; [reflexivity |].
  exact (proj1 (proj2 (proj2 (refresh_is_latched c)))
           [Refresh; Refresh; Start; ScrapeReturns; ScrapeReturns]
           _ eq_refl).
Defined.

(** * Numbers: integers and separators *)

Lemma u_cons (c : ascii) (s : string) : u (String c s) = N_of_ascii c :: u s.
Proof. reflexivity. Qed.

Lemma digits_value_uint_acc (d : Decimal.uint) (acc : positive) :
  digits_value (Npos acc) (u (NilEmpty.string_of_uint d))
  = Npos (Pos.of_uint_acc d acc).
Proof.
  revert acc.
  induction d; intros acc; cbn [NilEmpty.string_of_uint Pos.of_uint_acc];
    rewrite ?u_cons; cbn [digits_value];
    try reflexivity;
    rewrite <- IHd; f_equal;
    match goal with
    | |- context [digit_value ?c] =>
        let v := eval vm_compute in (digit_value c) in
        change (digit_value c) with v
    end; lia.
Qed.

Lemma digits_value_uint (d : Decimal.uint) :
  digits_value 0 (u (NilEmpty.string_of_uint d)) = Pos.of_uint d.
Proof.
  induction d; cbn [NilEmpty.string_of_uint Pos.of_uint];
    rewrite ?u_cons; cbn [digits_value];
    try reflexivity; try exact IHd;
    match goal with
    | |- digits_value ?a _ = N.pos (Pos.of_uint_acc _ ?b) =>
        change a with (N.pos b)
    end; apply digits_value_uint_acc.
Qed.

Lemma uint_decimal (d : Decimal.uint) :
  Forall (fun c => is_decimal c = true) (u (NilEmpty.string_of_uint d)).
Proof.
  induction d; cbn [NilEmpty.string_of_uint]; rewrite ?u_cons;
    constructor; try reflexivity; exact IHd.
Qed.

Lemma uint_nonempty (d : Decimal.uint) :
  d <> Decimal.Nil -> u (NilEmpty.string_of_uint d) <> [].
Proof.
  destruct d; intros H; try congruence;
    cbn [NilEmpty.string_of_uint]; rewrite u_cons; discriminate.
Qed.

Lemma string_of_uint_nonnil (d : Decimal.uint) :
  d <> Decimal.Nil ->
  NilZero.string_of_uint d = NilEmpty.string_of_uint d.
Proof. destruct d; intros H; try congruence; reflexivity. Qed.

Lemma str_of_Z_pos (p : positive) :
  str_of_Z (Zpos p) = u (NilEmpty.string_of_uint (Pos.to_uint p)).
Proof.
  unfold str_of_Z. cbn [Z.to_int NilZero.string_of_int].
  rewrite string_of_uint_nonnil by apply DecimalPos.Unsigned.to_uint_nonnil.
  reflexivity.
Qed.

Lemma str_of_Z_neg (p : positive) :
  str_of_Z (Zneg p) = 45%N :: u (NilEmpty.string_of_uint (Pos.to_uint p)).
Proof.
  unfold str_of_Z. cbn [Z.to_int NilZero.string_of_int].
  rewrite string_of_uint_nonnil by apply DecimalPos.Unsigned.to_uint_nonnil.
  reflexivity.
Qed.

(** Texts without white space are not stripped. *)
Lemma lstrip_no_space (s : text) :
  Forall (fun c => is_space c = false) s -> lstrip s = s.
Proof.
  destruct s as [| c r]; [reflexivity |].
  intros H. inversion H as [| ? ? Hc _]; subst. simpl. now rewrite Hc.
Qed.

Lemma strip_no_space (s : text) :
  Forall (fun c => is_space c = false) s -> strip s = s.
Proof.
  intros H. unfold strip, rstrip.
  rewrite (lstrip_no_space s H).
  rewrite lstrip_no_space by (apply Forall_rev; exact H).
  apply rev_involutive.
Qed.

Lemma lstrip_float_no_space (s : text) :
  Forall (fun c => is_float_space c = false) s -> lstrip_float s = s.
Proof.
  destruct s as [| c r]; [reflexivity |].
  intros H. inversion H as [| ? ? Hc _]; subst. simpl. now rewrite Hc.
Qed.

Lemma strip_float_no_space (s : text) :
  Forall (fun c => is_float_space c = false) s ->
  rev (lstrip_float (rev (lstrip_float s))) = s.
Proof.
  intros H. rewrite (lstrip_float_no_space s H).
  rewrite lstrip_float_no_space by (apply Forall_rev; exact H).
  apply rev_involutive.
Qed.

(** A text without white space and without separators reaches [float]
    as it is. *)
Lemma normalised_plain (s : text) :
  Forall (fun c => is_space c = false /\ c <> period /\ c <> comma) s ->
  normalised s = s.
Proof.
  intros H. unfold normalised, european.
  rewrite strip_no_space
    by (eapply Forall_impl; [| exact H]; intros c Hc; apply Hc).
  assert (Hb : replace blank [] s = s).
  { apply replace_absent. eapply Forall_impl; [| exact H].
    intros c [Hs _] ->. discriminate Hs. }
  rewrite Hb.
  assert (Hp : replace period [] s = s).
  { apply replace_absent. eapply Forall_impl; [| exact H].
    intros c Hc. apply Hc. }
  assert (Hc : replace comma [period] s = s).
  { apply replace_absent. eapply Forall_impl; [| exact H].
    intros c Hc. apply Hc. }
  rewrite contains_absent
    by (eapply Forall_impl; [| exact H]; intros c Hx; apply Hx).
  cbn [andb]. now rewrite Hp, Hc.
Qed.

Lemma try_float_normalised (rt : Builtins) (v : json) :
  v <> JNull -> try_float rt v = float_or_none (normalised (py_str rt v)).
Proof. destruct v; intros H; try reflexivity; congruence. Qed.

Lemma py_float_negative_decimal (s : text) :
  s <> [] -> Forall (fun c => is_decimal c = true) s ->
  py_float (45%N :: s) = Ret (of_decimal true (digits_value 0 s) 0).
Proof.
  intros Hne Hall.
  assert (Hfs : Forall (fun c => is_float_space c = false) (45%N :: s)).
  { constructor; [reflexivity |].
    eapply Forall_impl; [| exact Hall]. intros c Hc.
    apply (decimal_facts c Hc). }
  unfold py_float. rewrite (strip_float_no_space _ Hfs).
  cbn [split_sign N.eqb Pos.eqb].
  change ((45 =? 45)%N) with true. cbv iota.
  assert (Hlow : map lower s = s).
  { clear Hne Hfs. induction Hall as [| c r Hc _ IH]; [reflexivity |].
    simpl. rewrite IH. f_equal. apply (decimal_facts c Hc). }
  rewrite Hlow.
  destruct s as [| c r]; [congruence |].
  inversion Hall as [| ? ? Hc Hr]; subst.
  assert (Hi : (c =? 105)%N = false /\ (c =? 110)%N = false).
  { unfold is_decimal, between in Hc. to_prop. lia. }
  destruct Hi as [Hi Hn].
  assert (Hw : text_eqb (c :: r) (u "inf") || text_eqb (c :: r) (u "infinity")
               = false).
  { change (u "inf") with [105%N; 110%N; 102%N].
    change (u "infinity")
      with [105%N; 110%N; 102%N; 105%N; 110%N; 105%N; 116%N; 121%N].
    cbn [text_eqb]. now rewrite Hi. }
  rewrite Hw.
  assert (Hw2 : text_eqb (c :: r) (u "nan") = false).
  { change (u "nan") with [110%N; 97%N; 110%N]. cbn [text_eqb].
    now rewrite Hn. }
  rewrite Hw2.
  assert (Hu : Forall (fun x => x <> 95%N) (c :: r)).
  { eapply Forall_impl; [| exact Hall]. intros x Hx.
    apply (decimal_facts x Hx). }
  rewrite underscores_ok_absent
    by (constructor; [discriminate | exact Hu]).
  rewrite (filter_absent _ Hu).
  unfold parse_decimal. rewrite (span_decimal_all _ Hall).
  cbn [is_emptyb andb app List.length Z.of_nat Z.opp].
  rewrite app_nil_r. reflexivity.
Qed.

Lemma of_decimal_integer (neg : bool) (p : positive) :
  of_decimal neg (Npos p) 0 = binary_round prec emax neg p 0.
Proof.
  unfold of_decimal. cbn [Z.leb Z.compare Z.pow Z.to_pos].
  change (Z.to_pos (10 ^ 0)) with 1%positive.
  now rewrite Pos.mul_1_r.
Qed.

Lemma try_float_int (rt : Builtins) (z : Z) :
  try_float rt (JInt z) = Some (of_Z z).
Proof.
  rewrite try_float_normalised by discriminate.
  cbn [py_str].
  destruct z as [| p | p].
  - reflexivity.
  - rewrite str_of_Z_pos.
    pose proof (uint_decimal (Pos.to_uint p)) as Hd.
    rewrite normalised_plain.
    2:{ eapply Forall_impl; [| exact Hd]. intros c Hc.
        pose proof (decimal_facts c Hc). tauto. }
    unfold float_or_none.
    rewrite py_float_decimal;
      [| apply uint_nonempty, DecimalPos.Unsigned.to_uint_nonnil | exact Hd].
    rewrite digits_value_uint, DecimalPos.Unsigned.of_to.
    now rewrite of_decimal_integer.
  - rewrite str_of_Z_neg.
    pose proof (uint_decimal (Pos.to_uint p)) as Hd.
    rewrite normalised_plain.
    2:{ constructor; [repeat split; discriminate |].
        eapply Forall_impl; [| exact Hd]. intros c Hc.
        pose proof (decimal_facts c Hc). tauto. }
    unfold float_or_none.
    rewrite py_float_negative_decimal;
      [| apply uint_nonempty, DecimalPos.Unsigned.to_uint_nonnil | exact Hd].
    rewrite digits_value_uint, DecimalPos.Unsigned.of_to.
    now rewrite of_decimal_integer.
Qed.

(** X1.  An integer price.  [try_float] of a JSON integer is the float
    nearest to it, whatever its size and sign: the text that [str] prints
    is read back by [float] ([json.loads] reads no integer that [str]
    refuses to print).  [_as_eur] then never gives [None] and never
    raises: it returns that float, divided by 100 when it is at least
    10000. *)
Theorem integer_price_is_parsed (rt : Builtins) (z : Z) :
  try_float rt (JInt z) = Some (of_Z z)
  /\ _as_eur rt (JInt z)
     = Ret (Some (if fle f10000 (of_Z z) then fdiv (of_Z z) f100
                  else of_Z z)).
Proof.
  split; [apply try_float_int |].
  unfold _as_eur. rewrite try_float_int. cbn [is_int].
  rewrite andb_true_r. now destruct (fle f10000 (of_Z z)).
Qed.

(** ** The readings of the separators *)

Lemma replace_app (c : char) (by_ a b : text) :
  replace c by_ (a ++ b) = replace c by_ a ++ replace c by_ b.
Proof. unfold replace. apply flat_map_app. Qed.

Lemma contains_app (c : char) (a b : text) :
  contains c (a ++ b) = contains c a || contains c b.
Proof. unfold contains. apply existsb_app. Qed.

Lemma find_from_absent (i : Z) (c : char) (a r : text) :
  Forall (fun x => x <> c) a ->
  find_from i c (a ++ r) = find_from (i + Z.of_nat (List.length a)) c r.
Proof.
  intros H. revert i. induction H as [| x a Hx _ IH]; intros i.
  - simpl. f_equal. lia.
  - cbn [app find_from List.length].
    apply N.eqb_neq in Hx. rewrite Hx. rewrite IH. f_equal. lia.
Qed.

Lemma find_from_present (i : Z) (c : char) (a r : text) :
  contains c a = true ->
  (i <= find_from i c (a ++ r) < i + Z.of_nat (List.length a))%Z.
Proof.
  revert i. induction a as [| x a IH]; intros i H; [discriminate |].
  cbn [app find_from List.length]. cbn [contains existsb] in H.
  destruct (x =? c)%N; [lia |].
  cbn [orb] in H. specialize (IH (i + 1)%Z H). lia.
Qed.

Lemma normalised_no_space (s : text) :
  Forall (fun c => is_space c = false) s ->
  normalised s
  = if contains comma s && contains period s
    then if (find period s <? find comma s)%Z then european s
         else american s
    else european s.
Proof.
  intros H. unfold normalised. rewrite (strip_no_space s H).
  rewrite replace_absent; [reflexivity |].
  eapply Forall_impl; [| exact H]. intros c Hc ->. discriminate Hc.
Qed.

Lemma span_decimal_stop (d r : text) (c : char) :
  Forall (fun x => is_decimal x = true) d -> is_decimal c = false ->
  span_decimal (d ++ c :: r) = (d, c :: r).
Proof.
  intros H Hc. induction H as [| x d Hx _ IH].
  - simpl. now rewrite Hc.
  - cbn [app span_decimal]. now rewrite Hx, IH.
Qed.

Lemma map_lower_plain (s : text) :
  Forall (fun c => is_decimal c = true \/ c = period) s -> map lower s = s.
Proof.
  induction 1 as [| c r Hc _ IH]; [reflexivity |].
  simpl. rewrite IH. f_equal.
  destruct Hc as [Hc | ->]; [apply (decimal_facts c Hc) | reflexivity].
Qed.

(** [float] on digits with one period among them. *)
Lemma py_float_point (d b : text) :
  Forall (fun c => is_decimal c = true) d ->
  Forall (fun c => is_decimal c = true) b ->
  d ++ b <> [] ->
  py_float (d ++ period :: b)
  = Ret (of_decimal false (digits_value 0 (d ++ b))
           (- Z.of_nat (List.length b))).
Proof.
  intros Hd Hb Hne.
  assert (Hplain : Forall (fun c => is_decimal c = true \/ c = period)
                     (d ++ period :: b)).
  { apply Forall_app. split.
    - eapply Forall_impl; [| exact Hd]. now left.
    - constructor; [now right |].
      eapply Forall_impl; [| exact Hb]. now left. }
  assert (Hfs : Forall (fun c => is_float_space c = false) (d ++ period :: b)).
  { eapply Forall_impl; [| exact Hplain].
    intros c [Hc | ->]; [apply (decimal_facts c Hc) | reflexivity]. }
  unfold py_float. rewrite (strip_float_no_space _ Hfs).
  assert (Hhead : exists c r, d ++ period :: b = c :: r
                              /\ (is_decimal c = true \/ c = period)).
  { destruct d as [| c r].
    - exists period, b. split; [reflexivity | now right].
    - exists c, (r ++ period :: b). split; [reflexivity |].
      inversion Hd; subst. now left. }
  destruct Hhead as (c & r & Heq & Hc).
  assert (Hfacts : (c =? 45)%N = false /\ (c =? 43)%N = false
                   /\ (c =? 105)%N = false /\ (c =? 110)%N = false).
  { destruct Hc as [Hc | ->]; [| repeat split; reflexivity].
    unfold is_decimal, between in Hc. to_prop. lia. }
  destruct Hfacts as (H45 & H43 & H105 & H110).
  assert (Hsign : split_sign (d ++ period :: b) = (false, d ++ period :: b)).
  { rewrite Heq. cbn [split_sign]. now rewrite H45, H43. }
  rewrite Hsign. rewrite (map_lower_plain _ Hplain).
  assert (Hw : text_eqb (d ++ period :: b) (u "inf")
               || text_eqb (d ++ period :: b) (u "infinity") = false).
  { rewrite Heq.
    change (u "inf") with [105%N; 110%N; 102%N].
    change (u "infinity")
      with [105%N; 110%N; 102%N; 105%N; 110%N; 105%N; 116%N; 121%N].
    cbn [text_eqb]. now rewrite H105. }
  rewrite Hw.
  assert (Hw2 : text_eqb (d ++ period :: b) (u "nan") = false).
  { rewrite Heq. change (u "nan") with [110%N; 97%N; 110%N].
    cbn [text_eqb]. now rewrite H110. }
  rewrite Hw2.
  assert (Hu : Forall (fun x => x <> 95%N) (d ++ period :: b)).
  { eapply Forall_impl; [| exact Hplain].
    intros x [Hx | ->]; [apply (decimal_facts x Hx) | discriminate]. }
  rewrite (underscores_ok_absent None _ Hu), (filter_absent _ Hu).
  unfold parse_decimal.
  rewrite (span_decimal_stop d b period Hd eq_refl).
  change ((period =? period)%N) with true. cbv iota.
  rewrite (span_decimal_all b Hb).
  destruct d as [| x d'], b as [| y b']; try reflexivity.
  now contradiction Hne.
Qed.

Lemma digit_or_period_chars (s : text) :
  forallb digit_or_period s = true ->
  Forall (fun c => is_decimal c = true \/ c = period) s.
Proof.
  intros H. apply Forall_forall. intros c Hc.
  pose proof (proj1 (forallb_forall _ _) H c Hc) as Hx.
  unfold digit_or_period in Hx. to_prop. tauto.
Qed.

Lemma digit_or_comma_chars (s : text) :
  forallb digit_or_comma s = true ->
  Forall (fun c => is_decimal c = true \/ c = comma) s.
Proof.
  intros H. apply Forall_forall. intros c Hc.
  pose proof (proj1 (forallb_forall _ _) H c Hc) as Hx.
  unfold digit_or_comma in Hx. to_prop. tauto.
Qed.

Lemma decimal_chars (s : text) :
  forallb is_decimal s = true -> Forall (fun c => is_decimal c = true) s.
Proof.
  intros H. apply Forall_forall. intros c Hc.
  exact (proj1 (forallb_forall _ _) H c Hc).
Qed.

(** What is left of a text of digits and one kind of separator when the
    separator is removed. *)
Lemma remove_separator (sep : char) (s : text) :
  Forall (fun c => is_decimal c = true \/ c = sep) s ->
  Forall (fun c => is_decimal c = true) (replace sep [] s).
Proof.
  intros H. eapply Forall_replace; [exact H | constructor |].
  intros c [Hc | ->] Hne; [exact Hc | congruence].
Qed.

Lemma replace_decimal (sep : char) (by_ s : text) :
  is_decimal sep = false ->
  Forall (fun c => is_decimal c = true) s -> replace sep by_ s = s.
Proof.
  intros Hs H. apply replace_absent.
  eapply Forall_impl; [| exact H]. intros c Hc ->. congruence.
Qed.

Lemma some_digit_survives (sep : char) (g b : text) :
  is_decimal sep = false ->
  existsb is_decimal (g ++ b) = true -> replace sep [] g ++ b <> [].
Proof.
  intros Hs H. apply existsb_exists in H. destruct H as (c & Hin & Hc).
  assert (Hne : c <> sep) by (intros ->; congruence).
  apply in_app_or in Hin. intros Hnil.
  apply app_eq_nil in Hnil. destruct Hnil as [Hg Hb].
  destruct Hin as [Hin | Hin].
  - pose proof (In_replace c sep [] g Hin Hne) as Hx.
    rewrite Hg in Hx. exact Hx.
  - rewrite Hb in Hin. exact Hin.
Qed.

(** X2.  Periods alone.  In a text of digits and periods every period is
    dropped, wherever it stands: the value is the integer that the digits
    spell. *)
Theorem periods_are_dropped (rt : Builtins) (s : text) :
  forallb digit_or_period s = true -> existsb is_decimal s = true ->
  normalize_euro s
  = Some (of_decimal false (digits_value 0 (replace period [] s)) 0)
  /\ try_float rt (JStr s) = normalize_euro s.
Proof.
  intros Hall Hex. split; [| reflexivity].
  pose proof (digit_or_period_chars s Hall) as Hchars.
  rewrite normalize_euro_normalised, normalised_no_space.
  2:{ eapply Forall_impl; [| exact Hchars].
      intros c [Hc | ->]; [apply (decimal_facts c Hc) | reflexivity]. }
  rewrite contains_absent.
  2:{ eapply Forall_impl; [| exact Hchars].
      intros c [Hc | ->]; [apply (decimal_facts c Hc) | discriminate]. }
  cbn [andb]. unfold european.
  pose proof (remove_separator period s Hchars) as Hd.
  rewrite (replace_decimal comma [period] _ eq_refl Hd).
  unfold float_or_none. rewrite py_float_decimal; [reflexivity | | exact Hd].
  rewrite <- (app_nil_r (replace period [] s)).
  apply some_digit_survives; [reflexivity | now rewrite app_nil_r].
Qed.

Lemma periods_are_dropped_witness :
  normalize_euro (u "19.99") = Some (of_decimal false 1999 0)
  /\ try_float example_runtime (JStr (u "19.99")) = normalize_euro (u "19.99").
Proof.
  exact (periods_are_dropped example_runtime (u "19.99") eq_refl eq_refl).
Defined.

(** X3.  The decimal point.  After digits grouped by periods, a comma is
    the decimal point.  After digits grouped by commas, with at least one
    comma, a period is the decimal point.  In both cases the value is the
    float nearest to the number that the digits spell, with as many
    decimals as there are digits after the point. *)
Theorem decimal_point_readings (g b : text) :
  forallb is_decimal b = true -> existsb is_decimal (g ++ b) = true ->
  (forallb digit_or_period g = true ->
   normalize_euro (g ++ comma :: b)
   = Some (of_decimal false (digits_value 0 (replace period [] g ++ b))
             (- Z.of_nat (List.length b))))
  /\ (forallb digit_or_comma g = true -> contains comma g = true ->
      normalize_euro (g ++ period :: b)
      = Some (of_decimal false (digits_value 0 (replace comma [] g ++ b))
                (- Z.of_nat (List.length b)))).
Proof.
  intros Hb Hex. pose proof (decimal_chars b Hb) as Hbd.
  assert (Hbs : Forall (fun c => is_space c = false) b).
  { eapply Forall_impl; [| exact Hbd]. intros c Hc.
    apply (decimal_facts c Hc). }
  split.
  - intros Hg. pose proof (digit_or_period_chars g Hg) as Hgc.
    pose proof (remove_separator period g Hgc) as Hd.
    rewrite normalize_euro_normalised, normalised_no_space.
    2:{ apply Forall_app. split; [| constructor; [reflexivity | exact Hbs]].
        eapply Forall_impl; [| exact Hgc].
        intros c [Hc | ->]; [apply (decimal_facts c Hc) | reflexivity]. }
    assert (Heu : european (g ++ comma :: b)
                  = replace period [] g ++ period :: b).
    { unfold european. rewrite !replace_app.
      change (replace period [] (comma :: b))
        with (comma :: replace period [] b).
      rewrite (replace_decimal period [] b eq_refl Hbd).
      rewrite (replace_decimal comma [period] _ eq_refl Hd).
      change (replace comma [period] (comma :: b))
        with (period :: replace comma [period] b).
      now rewrite (replace_decimal comma [period] b eq_refl Hbd). }
    assert (Hfind : contains period (g ++ comma :: b) = true ->
                    (find period (g ++ comma :: b)
                     <? find comma (g ++ comma :: b))%Z = true).
    { intros Hp. rewrite contains_app in Hp.
      assert (Hpb : contains period (comma :: b) = false).
      { apply contains_absent. constructor; [discriminate |].
        eapply Forall_impl; [| exact Hbd]. intros c Hc.
        apply (decimal_facts c Hc). }
      rewrite Hpb, orb_false_r in Hp.
      pose proof (find_from_present 0 period g (comma :: b) Hp) as Hlt.
      unfold find. rewrite (find_from_absent 0 comma g (comma :: b)).
      2:{ eapply Forall_impl; [| exact Hgc].
          intros c [Hc | ->]; [apply (decimal_facts c Hc) | discriminate]. }
      cbn [find_from]. change ((comma =? comma)%N) with true. cbv iota.
      apply Z.ltb_lt. lia. }
    assert (Hn : (if contains comma (g ++ comma :: b)
                     && contains period (g ++ comma :: b)
                  then if (find period (g ++ comma :: b)
                           <? find comma (g ++ comma :: b))%Z
                       then european (g ++ comma :: b)
                       else american (g ++ comma :: b)
                  else european (g ++ comma :: b))
                 = european (g ++ comma :: b)).
    { destruct (contains comma (g ++ comma :: b)); [| reflexivity].
      cbn [andb].
      destruct (contains period (g ++ comma :: b)); [| reflexivity].
      now rewrite Hfind. }
    rewrite Hn, Heu. unfold float_or_none.
    rewrite py_float_point; [reflexivity | exact Hd | exact Hbd |].
    apply some_digit_survives; [reflexivity | exact Hex].
  - intros Hg Hcomma. pose proof (digit_or_comma_chars g Hg) as Hgc.
    pose proof (remove_separator comma g Hgc) as Hd.
    rewrite normalize_euro_normalised, normalised_no_space.
    2:{ apply Forall_app. split; [| constructor; [reflexivity | exact Hbs]].
        eapply Forall_impl; [| exact Hgc].
        intros c [Hc | ->]; [apply (decimal_facts c Hc) | reflexivity]. }
    assert (Ham : american (g ++ period :: b)
                  = replace comma [] g ++ period :: b).
    { unfold american. rewrite replace_app.
      change (replace comma [] (period :: b))
        with (period :: replace comma [] b).
      now rewrite (replace_decimal comma [] b eq_refl Hbd). }
    assert (Hc1 : contains comma (g ++ period :: b) = true).
    { rewrite contains_app, Hcomma. reflexivity. }
    assert (Hc2 : contains period (g ++ period :: b) = true).
    { rewrite contains_app. cbn [contains existsb].
      change ((period =? period)%N) with true. cbn [orb].
      apply orb_true_r. }
    rewrite Hc1, Hc2. cbn [andb].
    assert (Hfind : (find period (g ++ period :: b)
                     <? find comma (g ++ period :: b))%Z = false).
    { pose proof (find_from_present 0 comma g (period :: b) Hcomma) as Hlt.
      unfold find. rewrite (find_from_absent 0 period g (period :: b)).
      2:{ eapply Forall_impl; [| exact Hgc].
          intros c [Hc | ->]; [apply (decimal_facts c Hc) | discriminate]. }
      cbn [find_from]. change ((period =? period)%N) with true. cbv iota.
      apply Z.ltb_ge. lia. }
    rewrite Hfind, Ham. unfold float_or_none.
    rewrite py_float_point; [reflexivity | exact Hd | exact Hbd |].
    apply some_digit_survives; [reflexivity | exact Hex].
Qed.

Lemma decimal_point_readings_witness :
  normalize_euro (u "1.234" ++ comma :: u "56")
  = Some (of_decimal false 123456 (-2))
  /\ normalize_euro (u "1,234" ++ period :: u "56")
     = Some (of_decimal false 123456 (-2)).
Proof.
  split.
  - exact (proj1 (decimal_point_readings (u "1.234") (u "56")
                    eq_refl eq_refl) eq_refl).
  - exact (proj2 (decimal_point_readings (u "1,234") (u "56")
                    eq_refl eq_refl) eq_refl eq_refl).
Defined.

(** * [PRICE_RE]: what it finds *)

Lemma match_at_nil (prev : option char) : PriceRe.match_at prev [] = None.
Proof.
  unfold PriceRe.match_at, PriceRe.currency_marker.
  destruct prev as [p |]; [destruct (negb (is_decimal p)) |]; reflexivity.
Qed.

Lemma search_from_first (prev : option char) (s : text) :
  PriceRe.search_from prev s = hd_error (PriceRe.finditer_from 0 prev s).
Proof.
  revert prev. induction s as [| c r IH]; intros prev.
  - cbn [PriceRe.search_from PriceRe.finditer_from hd_error].
    now rewrite match_at_nil.
  - cbn [PriceRe.search_from PriceRe.finditer_from].
    destruct (PriceRe.match_at prev (c :: r)) as [[g n] |];
      [reflexivity | apply IH].
Qed.

(** X4.  [search] and [finditer] agree.  The group that [PRICE_RE.search]
    returns is the first of the groups that [PRICE_RE.finditer] yields,
    and [search] finds nothing exactly when [finditer] yields nothing: the
    selector strategy and the text strategy read a text alike. *)
Theorem search_is_first_of_finditer (s : text) :
  PriceRe.search s = hd_error (PriceRe.finditer s)
  /\ (PriceRe.search s = None <-> PriceRe.finditer s = []).
Proof.
  assert (H : PriceRe.search s = hd_error (PriceRe.finditer s))
    by apply search_from_first.
  split; [exact H |]. rewrite H.
  destruct (PriceRe.finditer s); simpl; split; congruence.
Qed.

Lemma match_at_needs_marker (prev : option char) (c : char) (r : text) :
  no_marker c = true -> PriceRe.match_at prev (c :: r) = None.
Proof.
  unfold no_marker. intros H. apply andb_true_iff in H.
  destruct H as [He Hl]. apply negb_true_iff in He, Hl.
  unfold PriceRe.match_at, PriceRe.currency_marker.
  destruct (match prev with Some p => negb (is_decimal p) | None => true end);
    [| reflexivity].
  rewrite He.
  destruct r as [| v [| w r']]; try reflexivity.
  change (u "eur") with [101%N; 117%N; 114%N].
  cbn [map text_eqb]. rewrite Hl. cbn [andb].
  now rewrite andb_false_r.
Qed.

Lemma finditer_from_no_marker (k : nat) (prev : option char) (s : text) :
  forallb no_marker s = true -> PriceRe.finditer_from k prev s = [].
Proof.
  revert k prev. induction s as [| c r IH]; intros k prev H; [reflexivity |].
  cbn [forallb] in H. apply andb_true_iff in H. destruct H as [Hc Hr].
  cbn [PriceRe.finditer_from]. destruct k as [| k]; [| now apply IH].
  rewrite (match_at_needs_marker prev c r Hc). now apply IH.
Qed.

(** X5.  No currency marker, no match.  In a text that holds neither the
    euro sign nor the letter E in either case, [PRICE_RE] finds nothing:
    a bare number, or a price in another currency, is never picked up by
    the selector and text strategies. *)
Theorem no_marker_no_match (s : text) :
  forallb no_marker s = true ->
  PriceRe.finditer s = [] /\ PriceRe.search s = None.
Proof.
  intros H.
  assert (Hf : PriceRe.finditer s = [])
    by (apply finditer_from_no_marker; exact H).
  split; [exact Hf |].
  unfold PriceRe.search. rewrite search_from_first.
  unfold PriceRe.finditer in Hf. now rewrite Hf.
Qed.

Lemma no_marker_no_match_witness :
  PriceRe.finditer (u "$ 1,299.00 / 1299 USD") = []
  /\ PriceRe.search (u "$ 1,299.00 / 1299 USD") = None.
Proof.
  exact (no_marker_no_match (u "$ 1,299.00 / 1299 USD") eq_refl).
Defined.











(** * [extract_price]: what each method carries, and when it raises *)

Lemma scan_items_price (rt : Builtins) (items : list json)
                       (p : option float) (c : json) (m : text) :
  scan_items rt items = Ret (Some (p, c, m)) -> exists x, p = Some x.
Proof.
  induction items as [|obj rest IH]; simpl; [discriminate |].
  destruct obj as [| b | z | f | s | l | o]; auto.
  destruct (get (u "offers") o) as [| b | z | f | s | l | offers];
    simpl;
    try (destruct (has_key (u "price") o); auto;
         destruct (_as_eur rt (get (u "price") o)) as [[x|]|e]; simpl; auto;
         [ intros H; inversion H; eauto | discriminate ]).
  destruct (_as_eur rt (py_or (get (u "price") offers)
                              (get (u "lowPrice") offers))) as [[x|]|e];
    simpl.
  - intros H; inversion H; eauto.
  - destruct (has_key (u "price") o); auto.
    destruct (_as_eur rt (get (u "price") o)) as [[x|]|e]; simpl; auto;
      [ intros H; inversion H; eauto | discriminate ].
  - discriminate.
Qed.

Lemma scan_scripts_price (rt : Builtins) (scripts : list (option json))
                         (p : option float) (c : json) (m : text) :
  scan_scripts rt scripts = Ret (Some (p, c, m)) -> exists x, p = Some x.
Proof.
  induction scripts as [| [data |] rest IH]; simpl; [discriminate | | exact IH].
  destruct (scan_items rt match data with JArr l => l | _ => [data] end)
    as [[[[p' c'] m'] |] | e] eqn:Hs; simpl; [| exact IH | discriminate].
  intros H. inversion H; subst. eapply scan_items_price. exact Hs.
Qed.

Lemma scan_hints_selector (html : Soup) (hints : list (text * option text))
                          (p : option float) (c : json) (m : text) :
  scan_hints html hints = Ret (Some (p, c, m)) ->
  exists selector, m = u "selector:" ++ selector
                   /\ In selector (map fst hints).
Proof.
  induction hints as [|[selector attr] rest IH]; simpl; [discriminate |].
  destruct (select_one html selector) as [element|].
  2:{ intros H. destruct (IH H) as (sel & Hm & Hin).
      exists sel. split; [exact Hm | right; exact Hin]. }
  destruct (match attr with
            | Some a =>
                match attr_get element a with
                | Some v => Ret v
                | None => Raise AttributeError
                end
            | None => Ret (element_text element)
            end) as [raw|e]; simpl; [| discriminate].
  destruct (PriceRe.search (strip raw)) as [g|] eqn:Hg.
  - intros H; inversion H; subst.
    exists selector. split; [reflexivity | left; reflexivity].
  - intros H. destruct (IH H) as (sel & Hm & Hin).
    exists sel. split; [exact Hm | right; exact Hin].
Qed.

Lemma text_fallback_price (html : Soup) (p : option float) (c : json)
                          (m : text) :
  text_fallback html = (p, c, m) ->
  (p = None /\ m = u "none") \/ (m = u "text-fallback" /\ exists x, p = Some x).
Proof.
  intros H. destruct (text_fallback_cases html) as [[_ Hn] | [Hne Hf]].
  - rewrite Hn in H. inversion H; subst. now left.
  - rewrite Hf in H. right.
    destruct (middle_of_sorted _ (candidates_not_nan (page_text html)) Hne)
      as (x & _ & _ & Hx & _).
    rewrite Hx in H. inversion H; subst. eauto.
Qed.

(** X7.  Which methods carry a number.  A result of [extract_price] with
    the method [jsonld], [jsonld-root] or [text-fallback] always carries a
    number.  A null price comes only with the method [none] or with a
    method [selector:...] whose selector is one of [META_HINTS]. *)
Theorem null_price_methods (rt : Builtins) (html : Soup)
                           (p : option float) (c : json) (m : text) :
  extract_price rt html = Ret (p, c, m) ->
  (p = None ->
   m = u "none"
   \/ exists selector,
        m = u "selector:" ++ selector /\ In selector (map fst META_HINTS))
  /\ (m = u "jsonld" \/ m = u "jsonld-root" \/ m = u "text-fallback" ->
      exists x, p = Some x).
Proof.
  unfold extract_price.
  destruct (scan_scripts rt (json_scripts html)) as [[[[p1 c1] m1] |] | e]
    eqn:Hs; cbn [bind]; [| | discriminate].
  - intros H. inversion H; subst.
    destruct (scan_scripts_price _ _ _ _ _ Hs) as (x & ->).
    split; [discriminate | eauto].
  - destruct (scan_hints html META_HINTS) as [[[[p2 c2] m2] |] | e]
      eqn:Hh; cbn [bind]; [| | discriminate].
    + intros H. inversion H; subst.
      destruct (scan_hints_selector _ _ _ _ _ Hh) as (sel & -> & Hin).
      split; [intros _; right; eauto |].
      intros [Hm | [Hm | Hm]]; discriminate Hm.
    + intros H. inversion H as [Hf].
      destruct (text_fallback_price _ _ _ _ Hf) as [[-> ->] | [-> Hx]].
      * split; [now left |].
        intros [Hm | [Hm | Hm]]; discriminate Hm.
      * split; [| intros _; exact Hx].
        intros ->. destruct Hx as (x & Hx). discriminate Hx.
Qed.

Lemma null_price_methods_witness :
  extract_price example_runtime page_selector_unparsable
  = Ret (None, EUR, u "selector:" ++ span_itemprop_price)
  /\ (u "selector:" ++ span_itemprop_price = u "none"
      \/ exists selector,
           u "selector:" ++ span_itemprop_price = u "selector:" ++ selector
           /\ In selector (map fst META_HINTS)).
Proof.
  split; [reflexivity |].
  exact (proj1 (null_price_methods example_runtime page_selector_unparsable
                  None EUR (u "selector:" ++ span_itemprop_price) eq_refl)
           eq_refl).
Defined.

Lemma as_eur_raises (rt : Builtins) (v : json) (e : exn) :
  _as_eur rt v = Raise e ->
  e = ValueError
  /\ exists s, v = JStr s /\ isdigit s = true /\ forallb is_decimal s = false.
Proof.
  unfold _as_eur.
  destruct (try_float rt v) as [parsed |].
  - destruct (fle f10000 parsed && is_int v); discriminate.
  - destruct v as [| b | z | f | s | l | o]; try discriminate.
    destruct (isdigit s) eqn:Hd; [| discriminate].
    unfold py_int. destruct s as [| c r]; [discriminate |].
    destruct (forallb is_decimal (c :: r)) eqn:Hall; cbn [bind].
    + destruct (10000 <=? Z.of_N (digits_value 0 (c :: r)))%Z; discriminate.
    + intros H. inversion H. split; [reflexivity |]. eauto.
Qed.

Lemma scan_items_raises (rt : Builtins) (items : list json) (e : exn) :
  scan_items rt items = Raise e -> e = ValueError.
Proof.
  induction items as [|obj rest IH]; simpl; [discriminate |].
  destruct obj as [| b | z | f | s | l | o]; auto.
  destruct (get (u "offers") o) as [| b | z | f | s | l | offers];
    simpl;
    try (destruct (has_key (u "price") o); auto;
         destruct (_as_eur rt (get (u "price") o)) as [[x|]|e'] eqn:Ha;
         simpl; auto;
         [ discriminate
         | intros H; inversion H; subst; apply (as_eur_raises _ _ _ Ha) ]).
  destruct (_as_eur rt (py_or (get (u "price") offers)
                              (get (u "lowPrice") offers)))
    as [[x|]|e'] eqn:Ha; simpl.
  - discriminate.
  - destruct (has_key (u "price") o); auto.
    destruct (_as_eur rt (get (u "price") o)) as [[x|]|e''] eqn:Hb;
      simpl; auto;
      [ discriminate
      | intros H; inversion H; subst; apply (as_eur_raises _ _ _ Hb) ].
  - intros H; inversion H; subst. apply (as_eur_raises _ _ _ Ha).
Qed.

Lemma scan_scripts_raises (rt : Builtins) (scripts : list (option json))
                          (e : exn) :
  scan_scripts rt scripts = Raise e -> e = ValueError.
Proof.
  induction scripts as [| [data |] rest IH]; simpl; [discriminate | | exact IH].
  destruct (scan_items rt match data with JArr l => l | _ => [data] end)
    as [[hit |] | e'] eqn:Hs; simpl; [discriminate | exact IH |].
  intros H. inversion H; subst. eapply scan_items_raises. exact Hs.
Qed.

Lemma scan_hints_raises (html : Soup) (hints : list (text * option text))
                        (e : exn) :
  scan_hints html hints = Raise e ->
  e = AttributeError
  /\ exists selector attr element,
       In (selector, Some attr) hints
       /\ select_one html selector = Some element
       /\ attr_get element attr = None.
Proof.
  induction hints as [|[selector attr] rest IH]; simpl; [discriminate |].
  destruct (select_one html selector) as [element|] eqn:Hsel.
  2:{ intros H. destruct (IH H) as (He & s & a & el & Hin & Hx).
      split; [exact He |]. exists s, a, el. tauto. }
  destruct attr as [a |].
  - destruct (attr_get element a) as [v |] eqn:Hattr; cbn [bind].
    + destruct (PriceRe.search (strip v)); [discriminate |].
      intros H. destruct (IH H) as (He & s & a' & el & Hin & Hx).
      split; [exact He |]. exists s, a', el. tauto.
    + intros H. inversion H. split; [reflexivity |].
      exists selector, a, element. tauto.
  - cbn [bind]. destruct (PriceRe.search (strip (element_text element)));
      [discriminate |].
    intros H. destruct (IH H) as (He & s & a' & el & Hin & Hx).
    split; [exact He |]. exists s, a', el. tauto.
Qed.

(** X8.  When [extract_price] raises.  It raises in two situations only.
    [ValueError]: the structured-data strategy met a price text on which
    [isdigit] holds and which [int] refuses (a superscript digit).
    [AttributeError]: no structured price was found and a tag selected by
    a hint that names an attribute lacks that attribute.  A structured
    price that is not such a text never makes [_as_eur] raise. *)
Theorem extract_price_raises (rt : Builtins) (html : Soup) (e : exn) :
  extract_price rt html = Raise e ->
  (e = ValueError /\ scan_scripts rt (json_scripts html) = Raise ValueError)
  \/ (e = AttributeError
      /\ scan_scripts rt (json_scripts html) = Ret None
      /\ exists selector attr element,
           In (selector, Some attr) META_HINTS
           /\ select_one html selector = Some element
           /\ attr_get element attr = None).
Proof.
  unfold extract_price.
  destruct (scan_scripts rt (json_scripts html)) as [[hit |] | e1] eqn:Hs;
    cbn [bind]; [discriminate | |].
  - destruct (scan_hints html META_HINTS) as [[hit |] | e2] eqn:Hh;
      cbn [bind]; [discriminate | discriminate |].
    intros H. inversion H; subst. right.
    destruct (scan_hints_raises _ _ _ Hh) as (He & Hx).
    split; [exact He |]. split; [reflexivity | exact Hx].
  - intros H. inversion H; subst. left.
    pose proof (scan_scripts_raises _ _ _ Hs) as ->. split; reflexivity.
Qed.

Lemma extract_price_raises_witness :
  extract_price example_runtime page_meta_without_content = Raise AttributeError
  /\ ((AttributeError = ValueError
       /\ scan_scripts example_runtime (json_scripts page_meta_without_content)
          = Raise ValueError)
      \/ (AttributeError = AttributeError
          /\ scan_scripts example_runtime
               (json_scripts page_meta_without_content) = Ret None
          /\ exists selector attr element,
               In (selector, Some attr) META_HINTS
               /\ select_one page_meta_without_content selector = Some element
               /\ attr_get element attr = None)).
Proof.
  split; [reflexivity |].
  exact (extract_price_raises example_runtime page_meta_without_content
           AttributeError eq_refl).
Defined.






(** * The cycle: what is published *)

Lemma within_bounds (lo hi x : float) :
  within lo hi x = true -> fle lo hi = true /\ is_nan x = false.
Proof.
  unfold within. intros H. apply andb_true_iff in H. destruct H as [H1 H2].
  split; [eapply fle_trans; eassumption |].
  destruct x; try reflexivity. destruct lo; discriminate H1.
Qed.

Lemma check_bounds_accepts (lo hi p p' : float) (m m' : text) :
  check_bounds lo hi p m = Accepted p' m' -> within lo hi p' = true.
Proof.
  unfold check_bounds.
  destruct (within lo hi p) eqn:H0; [intros H; inversion H; now subst |].
  destruct (within lo hi (fdiv p f100)) eqn:H1;
    [intros H; inversion H; now subst |].
  destruct (within lo hi (fdiv p f10)) eqn:H2;
    [intros H; inversion H; now subst | discriminate].
Qed.

(** The case analysis of [process_page]. *)
Ltac page_cases rt app site html :=
  unfold process_page;
  destruct (extract_price rt html) as [[[?price ?currency] ?method] | ?e];
  [ destruct price as [?p |];
    [ unfold apply_divisor;
      destruct (price_divisor site) as [?d |];
      [ destruct (PyFloat.truthy d); [ destruct (flt zero d) | ] | ];
      match goal with
      | |- context [check_bounds ?lo ?hi ?x ?m] =>
          destruct (check_bounds lo hi x m) as [?p' ?m' |] eqn:?Hcb
      end
    | ]
  | ].

(** The case analysis of [scrape_site]; the goals that hold a page are
    left with [process_page] abstracted. *)
Ltac site_cases http_get site :=
  unfold scrape_site;
  destruct (http_get site PrimaryHeaders) as [?status ?html | ?rendered]
    eqn:?Hfirst;
  [ destruct (is_success status) eqn:?Hok;
    [ | destruct (blocking status) eqn:?Hblock;
        [ destruct (http_get site AlternateHeaders)
            as [?status' ?html' | ?rendered'] eqn:?Hsecond | ] ]
  | ].

Lemma process_page_state (rt : Builtins) (app : App) (site : Site)
                         (html : Soup) (status : Z) (hint : text)
                         (i : json) (x : float) :
  In (PublishState i (Some x))
     (fst (process_page rt app site html status hint)) ->
  within (min_price app) (max_price app) x = true.
Proof.
  page_cases rt app site html; cbn [fst List.app In];
    intros H; repeat (destruct H as [H | H]; try discriminate H);
    try contradiction;
    inversion H; subst; eapply check_bounds_accepts; eassumption.
Qed.

Lemma process_page_reports (rt : Builtins) (app : App) (site : Site)
                           (html : Soup) (status : Z) (hint : text) :
  match snd (process_page rt app site html status hint) with
  | None =>
      List.length (filter is_state
                     (fst (process_page rt app site html status hint))) = 1
      /\ List.length (filter is_attributes
                        (fst (process_page rt app site html status hint)))
         + List.length (filter is_error
                          (fst (process_page rt app site html status hint)))
         = 1
  | Some _ => fst (process_page rt app site html status hint) = []
  end.
Proof.
  page_cases rt app site html; cbn; auto.
Qed.

Lemma py_or_truthy (a b : json) :
  truthy b = true -> truthy (py_or a b) = true.
Proof. unfold py_or. intros H. now destruct (truthy a) eqn:Ha. Qed.

Lemma process_page_attributes (rt : Builtins) (app : App) (site : Site)
                              (html : Soup) (status : Z) (hint : text)
                              (i t l c : json) (m : text) (st : Z) :
  In (PublishAttributes i t l c m st)
     (fst (process_page rt app site html status hint)) ->
  i = site_id site /\ l = site_url site /\ st = status
  /\ truthy c = true /\ ends_with (u "+" ++ hint) m
  /\ (truthy (site_id site) = true -> truthy t = true).
Proof.
  page_cases rt app site html; cbn [fst List.app In];
    intros H; repeat (destruct H as [H | H]; try discriminate H);
    try contradiction;
    inversion H; subst;
    (repeat split;
     [ now apply py_or_truthy
     | eexists; reflexivity
     | intros Hid; now apply py_or_truthy, py_or_truthy ]).
Qed.

(** Where an event of one site comes from. *)
Lemma scrape_site_events (rt : Builtins)
                         (http_get : Site -> profile -> fetch_result)
                         (app : App) (site : Site) (e : event) :
  In e (fst (scrape_site rt http_get app site)) ->
  is_log e = true
  \/ e = Discovery (site_id site)
  \/ e = Get (site_url site) PrimaryHeaders
  \/ e = Get (site_url site) AlternateHeaders
  \/ e = PublishState (site_id site) None
  \/ (exists msg, e = PublishError (site_id site) msg None)
  \/ (exists status html,
        http_get site PrimaryHeaders = Response status html
        /\ is_success status = true
        /\ In e (fst (process_page rt app site html status (u "ok"))))
  \/ (exists status0 html0 status html,
        http_get site PrimaryHeaders = Response status0 html0
        /\ blocking status0 = true
        /\ http_get site AlternateHeaders = Response status html
        /\ In e (fst (process_page rt app site html status (u "retry")))).
Proof.
  site_cases http_get site.
  - destruct (process_page rt app site html status (u "ok")) as [evs out]
      eqn:Hp.
    cbn [fst List.app In]. intros H.
    repeat (destruct H as [<- | H]; [tauto |]).
    do 6 right. left. exists status, html. rewrite Hp. tauto.
  - destruct (process_page rt app site html' status' (u "retry"))
      as [evs out] eqn:Hp.
    cbn [fst List.app In]. intros H.
    repeat (destruct H as [<- | H]; [tauto |]).
    do 7 right. exists status, html, status', html'. rewrite Hp. tauto.
  - cbn [fst List.app In]. intros H.
    repeat (destruct H as [<- | H]; [tauto |]). contradiction.
  - cbn [fst List.app In publish_error]. intros H.
    repeat (destruct H as [<- | H]; [eauto 10 |]). contradiction.
  - cbn [fst List.app In publish_error]. intros H.
    repeat (destruct H as [<- | H]; [eauto 10 |]). contradiction.
Qed.

Lemma filter_none {A : Type} (f : A -> bool) (l : list A) :
  existsb f l = false -> filter f l = [].
Proof.
  induction l as [| x l IH]; [reflexivity |].
  cbn [existsb filter]. destruct (f x); [discriminate |]. exact IH.
Qed.

Lemma process_page_gets (rt : Builtins) (app : App) (site : Site)
                        (html : Soup) (status : Z) (hint : text)
                        (p : profile) :
  filter (is_get p) (fst (process_page rt app site html status hint)) = [].
Proof. apply filter_none, process_page_no_request. Qed.

(** The requests of one site. *)
Lemma scrape_site_gets (rt : Builtins)
                       (http_get : Site -> profile -> fetch_result)
                       (app : App) (site : Site) :
  filter (is_get PrimaryHeaders) (fst (scrape_site rt http_get app site))
  = [Get (site_url site) PrimaryHeaders]
  /\ (filter (is_get AlternateHeaders)
        (fst (scrape_site rt http_get app site)) = []
      \/ (filter (is_get AlternateHeaders)
            (fst (scrape_site rt http_get app site))
          = [Get (site_url site) AlternateHeaders]
          /\ exists status html,
               http_get site PrimaryHeaders = Response status html
               /\ blocking status = true)).
Proof.
  site_cases http_get site.
  - pose proof (process_page_gets rt app site html status (u "ok")) as Hg.
    destruct (process_page rt app site html status (u "ok")) as [evs out].
    cbn [fst] in *.
    change (filter (is_get PrimaryHeaders)
              ([Log DEBUG (u "Publishing MQTT discovery payload.");
                Discovery (site_id site); Log DEBUG (u "Fetching page.");
                Get (site_url site) PrimaryHeaders] ++ evs))
      with (Get (site_url site) PrimaryHeaders
            :: filter (is_get PrimaryHeaders) evs).
    change (filter (is_get AlternateHeaders)
              ([Log DEBUG (u "Publishing MQTT discovery payload.");
                Discovery (site_id site); Log DEBUG (u "Fetching page.");
                Get (site_url site) PrimaryHeaders] ++ evs))
      with (filter (is_get AlternateHeaders) evs).
    rewrite !Hg. auto.
  - pose proof (process_page_gets rt app site html' status' (u "retry"))
      as Hg.
    destruct (process_page rt app site html' status' (u "retry"))
      as [evs out].
    cbn [fst] in *.
    match goal with
    | |- filter _ (?a ++ ?b ++ evs) = _ /\ _ =>
        change (filter (is_get PrimaryHeaders) (a ++ b ++ evs))
          with (Get (site_url site) PrimaryHeaders
                :: filter (is_get PrimaryHeaders) evs);
        change (filter (is_get AlternateHeaders) (a ++ b ++ evs))
          with (Get (site_url site) AlternateHeaders
                :: filter (is_get AlternateHeaders) evs)
    end.
    rewrite !Hg. split; [reflexivity |]. right. eauto.
  - cbn. split; [reflexivity |]. right. eauto.
  - cbn. auto.
  - cbn. auto.
Qed.

(** The reports of one site. *)
Lemma scrape_site_reports (rt : Builtins)
                          (http_get : Site -> profile -> fetch_result)
                          (app : App) (site : Site) :
  match snd (scrape_site rt http_get app site) with
  | None =>
      List.length (filter is_state (fst (scrape_site rt http_get app site)))
      = 1
      /\ List.length (filter is_attributes
                        (fst (scrape_site rt http_get app site)))
         + List.length (filter is_error
                          (fst (scrape_site rt http_get app site)))
         = 1
  | Some _ =>
      filter is_state (fst (scrape_site rt http_get app site)) = []
      /\ filter is_attributes (fst (scrape_site rt http_get app site)) = []
      /\ filter is_error (fst (scrape_site rt http_get app site)) = []
  end.
Proof.
  site_cases http_get site.
  - pose proof (process_page_reports rt app site html status (u "ok")) as Hr.
    destruct (process_page rt app site html status (u "ok"))
      as [evs [e |]]; cbn [fst snd] in *.
    + subst evs. cbn. auto.
    + rewrite !filter_app. cbn [filter is_state is_attributes is_error].
      cbn [List.app]. exact Hr.
  - pose proof (process_page_reports rt app site html' status' (u "retry"))
      as Hr.
    destruct (process_page rt app site html' status' (u "retry"))
      as [evs [e |]]; cbn [fst snd] in *.
    + subst evs. cbn. auto.
    + rewrite !filter_app. cbn [filter is_state is_attributes is_error].
      cbn [List.app]. exact Hr.
  - cbn. auto.
  - cbn. auto.
  - cbn. auto.
Qed.

Lemma scrape_sites_in (rt : Builtins)
                      (http_get : Site -> profile -> fetch_result)
                      (app : App) (l : list Site) (e : event) :
  In e (fst (scrape_sites rt http_get app l)) ->
  is_log e = true
  \/ exists site, In site l /\ In e (fst (scrape_site rt http_get app site)).
Proof.
  induction l as [| site rest IH]; cbn [scrape_sites].
  - cbn. intros [<- | H]; [now left | contradiction].
  - destruct (scrape_site rt http_get app site) as [evs [x |]] eqn:Hs.
    + cbn [fst]. intros H. right. exists site. rewrite Hs. split; [now left | exact H].
    + destruct (scrape_sites rt http_get app rest) as [evs' out].
      cbn [fst] in *. intros H. apply in_app_or in H. destruct H as [H | H].
      * right. exists site. rewrite Hs. split; [now left | exact H].
      * destruct (IH H) as [Hl | (s & Hin & Hs')]; [now left |].
        right. exists s. split; [now right | exact Hs'].
Qed.

Lemma scrape_once_in (rt : Builtins)
                     (http_get : Site -> profile -> fetch_result)
                     (app : App) (e : event) :
  In e (fst (scrape_once rt http_get app)) ->
  is_log e = true
  \/ exists site, In site (sites app)
                  /\ In e (fst (scrape_site rt http_get app site)).
Proof.
  unfold scrape_once. destruct (sites app) as [| s l] eqn:Hsites.
  - cbn. intros [<- | H]; [now left | contradiction].
  - destruct (scrape_sites rt http_get app (s :: l)) as [evs out] eqn:Hr.
    cbn [fst In]. intros [<- | H]; [now left |].
    apply (scrape_sites_in rt http_get app (s :: l)). now rewrite Hr.
Qed.

Lemma scrape_site_state (rt : Builtins)
                        (http_get : Site -> profile -> fetch_result)
                        (app : App) (site : Site) (i : json) (x : float) :
  In (PublishState i (Some x)) (fst (scrape_site rt http_get app site)) ->
  i = site_id site /\ within (min_price app) (max_price app) x = true.
Proof.
  intros H. pose proof H as H0. apply scrape_site_events in H.
  destruct H as [H | [H | [H | [H | [H | [(msg & H) | H]]]]]];
    try discriminate H.
  assert (Hp : exists status html hint,
             In (PublishState i (Some x))
                (fst (process_page rt app site html status hint))).
  { destruct H as [(st & h & _ & _ & H) | (_ & _ & st & h & _ & _ & _ & H)];
      eauto. }
  destruct Hp as (st & h & hint & Hp).
  split; [| eapply process_page_state; exact Hp].
  revert Hp. clear. page_cases rt app site h; cbn [fst List.app In];
    intros H; repeat (destruct H as [H | H]; try discriminate H);
    try contradiction; now inversion H.
Qed.

Lemma scrape_once_state (rt : Builtins)
    (http_get : Site -> profile -> fetch_result) (app : App)
    (i : json) (x : float) :
  In (PublishState i (Some x)) (fst (scrape_once rt http_get app)) ->
  within (min_price app) (max_price app) x = true
  /\ exists site, In site (sites app) /\ i = site_id site.
Proof.
  intros H. apply scrape_once_in in H.
  destruct H as [H | (site & Hin & H)]; [discriminate H |].
  apply scrape_site_state in H. destruct H as [-> Hw].
  split; [exact Hw | now exists site].
Qed.

(** X10.  A published price is within the bounds.  Whatever the network
    answers and whatever the pages hold, every number that a cycle
    publishes as the price of a site lies between [min_price] and
    [max_price], bounds included, and is not a NaN; the message is that of
    a configured site. *)
Theorem published_price_within_bounds (rt : Builtins)
    (http_get : Site -> profile -> fetch_result) (app : App)
    (i : json) (x : float) :
  In (PublishState i (Some x)) (fst (scrape_once rt http_get app)) ->
  within (min_price app) (max_price app) x = true
  /\ is_nan x = false
  /\ exists site, In site (sites app) /\ i = site_id site.
Proof.
  intros H. apply scrape_once_state in H. destruct H as [Hw Hs].
  split; [exact Hw |]. split; [apply (within_bounds _ _ _ Hw) | exact Hs].
Qed.

Lemma published_price_within_bounds_witness :
  within (of_Z 1) (of_Z 1000) (of_Z 7) = true
  /\ is_nan (of_Z 7) = false
  /\ exists site, In site [site_A] /\ JStr (u "a") = site_id site.
Proof.
  apply (published_price_within_bounds example_runtime
           (network_offer (JInt 7)) (bounds_app 1 1000)).
  vm_compute. do 6 right. left. reflexivity.
Defined.

(** X11.  Bounds that exclude everything.  When [min_price] is not below or
    equal to [max_price], the check rejects every price, and a NaN is
    rejected under any bounds; so with such bounds no cycle ever
    publishes a number as a price. *)
Theorem inverted_bounds_reject_all (rt : Builtins)
    (http_get : Site -> profile -> fetch_result) (app : App) :
  fle (min_price app) (max_price app) = false ->
  (forall p m,
     check_bounds (min_price app) (max_price app) p m = OutOfRange)
  /\ (forall i x,
        ~ In (PublishState i (Some x)) (fst (scrape_once rt http_get app))).
Proof.
  intros Hinv.
  assert (Hw : forall x, within (min_price app) (max_price app) x = false).
  { intros x. destruct (within (min_price app) (max_price app) x) eqn:Hx;
      [| reflexivity].
    apply within_bounds in Hx. destruct Hx as [Hx _]. congruence. }
  split.
  - intros p m. unfold check_bounds. now rewrite !Hw.
  - intros i x H. apply scrape_once_state in H.
    destruct H as [H _]. rewrite Hw in H. discriminate H.
Qed.

Lemma inverted_bounds_reject_all_witness :
  (forall p m, check_bounds (of_Z 5) (of_Z 1) p m = OutOfRange)
  /\ (forall i x,
        ~ In (PublishState i (Some x))
            (fst (scrape_once example_runtime (network_offer (JInt 3))
                    (bounds_app 5 1)))).
Proof.
  exact (inverted_bounds_reject_all example_runtime (network_offer (JInt 3))
           (bounds_app 5 1) eq_refl).
Defined.

Lemma scrape_sites_reports (rt : Builtins)
                           (http_get : Site -> profile -> fetch_result)
                           (app : App) (l : list Site) :
  List.length (filter is_attributes (fst (scrape_sites rt http_get app l)))
  + List.length (filter is_error (fst (scrape_sites rt http_get app l)))
  = List.length (filter is_state (fst (scrape_sites rt http_get app l)))
  /\ match snd (scrape_sites rt http_get app l) with
     | None =>
         List.length (filter is_state (fst (scrape_sites rt http_get app l)))
         = List.length l
     | Some _ =>
         List.length (filter is_state (fst (scrape_sites rt http_get app l)))
         < List.length l
     end.
Proof.
  induction l as [| site rest IH]; cbn [scrape_sites].
  - cbn. auto.
  - pose proof (scrape_site_reports rt http_get app site) as Hs.
    destruct (scrape_site rt http_get app site) as [evs [x |]];
      cbn [fst snd] in *.
    + destruct Hs as (-> & -> & ->). cbn. split; lia.
    + destruct (scrape_sites rt http_get app rest) as [evs' out].
      cbn [fst snd] in *. rewrite !filter_app, !length_app.
      cbn [List.length]. destruct Hs as [Hs1 Hs2]. destruct IH as [IH1 IH2].
      split; [lia |]. destruct out; lia.
Qed.

(** X12.  One report per site.  In every cycle each state message comes
    with exactly one attributes or error message.  A cycle that ends
    without exception has published exactly one state message for every
    configured site; a cycle that an exception ends has published fewer
    state messages than there are sites: the site at which it raised, and
    those after it, get none. *)
Theorem one_report_per_site (rt : Builtins)
    (http_get : Site -> profile -> fetch_result) (app : App) :
  List.length (filter is_attributes (fst (scrape_once rt http_get app)))
  + List.length (filter is_error (fst (scrape_once rt http_get app)))
  = List.length (filter is_state (fst (scrape_once rt http_get app)))
  /\ match snd (scrape_once rt http_get app) with
     | None =>
         List.length (filter is_state (fst (scrape_once rt http_get app)))
         = List.length (sites app)
     | Some _ =>
         List.length (filter is_state (fst (scrape_once rt http_get app)))
         < List.length (sites app)
     end.
Proof.
  unfold scrape_once. destruct (sites app) as [| s l] eqn:Hsites.
  - cbn. auto.
  - pose proof (scrape_sites_reports rt http_get app (s :: l)) as H.
    destruct (scrape_sites rt http_get app (s :: l)) as [evs out].
    cbn [fst snd filter is_state is_attributes is_error] in *. exact H.
Qed.

Lemma scrape_sites_gets (rt : Builtins)
                        (http_get : Site -> profile -> fetch_result)
                        (app : App) (l : list Site) :
  exists n,
    n <= List.length l
    /\ filter (is_get PrimaryHeaders) (fst (scrape_sites rt http_get app l))
       = map (fun s => Get (site_url s) PrimaryHeaders) (firstn n l)
    /\ List.length (filter (is_get AlternateHeaders)
                      (fst (scrape_sites rt http_get app l))) <= n
    /\ match snd (scrape_sites rt http_get app l) with
       | None => n = List.length l
       | Some _ => 0 < n
       end.
Proof.
  induction l as [| site rest IH]; cbn [scrape_sites].
  - exists 0. cbn. auto.
  - pose proof (scrape_site_gets rt http_get app site) as [Hp Ha].
    assert (Hal : List.length (filter (is_get AlternateHeaders)
                    (fst (scrape_site rt http_get app site))) <= 1).
    { destruct Ha as [-> | [-> _]]; cbn; lia. }
    clear Ha.
    destruct (scrape_site rt http_get app site) as [evs [x |]];
      cbn [fst snd] in *.
    + exists 1. cbn [firstn map List.length]. rewrite Hp.
      repeat split; try lia.
    + destruct IH as (n & Hn & Hg & Hla & Hout).
      destruct (scrape_sites rt http_get app rest) as [evs' out].
      cbn [fst snd] in *. exists (S n).
      rewrite !filter_app, length_app, Hp, Hg.
      cbn [firstn map List.length List.app].
      repeat split; try lia. destruct out; lia.
Qed.

(** X13.  The requests of a cycle.  The first requests of a cycle go to the
    configured sites in their order, one for each site, up to the site at
    which an exception ends the cycle; a cycle that ends without
    exception has asked every site.  There are never more requests with
    the alternate headers than first requests. *)
Theorem requests_follow_the_sites (rt : Builtins)
    (http_get : Site -> profile -> fetch_result) (app : App) :
  exists n,
    n <= List.length (sites app)
    /\ filter (is_get PrimaryHeaders) (fst (scrape_once rt http_get app))
       = map (fun s => Get (site_url s) PrimaryHeaders)
           (firstn n (sites app))
    /\ List.length (filter (is_get AlternateHeaders)
                      (fst (scrape_once rt http_get app))) <= n
    /\ match snd (scrape_once rt http_get app) with
       | None => n = List.length (sites app)
       | Some _ => 0 < n
       end.
Proof.
  unfold scrape_once. destruct (sites app) as [| s l] eqn:Hsites.
  - exists 0. cbn. auto.
  - pose proof (scrape_sites_gets rt http_get app (s :: l)) as H.
    destruct (scrape_sites rt http_get app (s :: l)) as [evs out].
    cbn [fst snd filter is_get] in *. exact H.
Qed.

(** X14.  The attributes of a report.  Every attributes message of a cycle
    belongs to a configured site and carries its url; its currency is
    never null or empty; and its method ends with [+ok] when the first
    answer was a success, whose status it carries, or with [+retry] when
    the first answer was 403 or 406, and then it carries the status of
    the second answer, whatever that status is. *)
Theorem attributes_of_a_report (rt : Builtins)
    (http_get : Site -> profile -> fetch_result) (app : App)
    (i t l c : json) (m : text) (st : Z) :
  In (PublishAttributes i t l c m st) (fst (scrape_once rt http_get app)) ->
  exists site,
    In site (sites app) /\ i = site_id site /\ l = site_url site
    /\ truthy c = true
    /\ (truthy (site_id site) = true -> truthy t = true)
    /\ ((ends_with (u "+ok") m /\ is_success st = true
         /\ exists html, http_get site PrimaryHeaders = Response st html)
        \/ (ends_with (u "+retry") m
            /\ (exists html,
                  http_get site AlternateHeaders = Response st html)
            /\ exists status0 html0,
                 http_get site PrimaryHeaders = Response status0 html0
                 /\ blocking status0 = true)).
Proof.
  intros H. apply scrape_once_in in H.
  destruct H as [H | (site & Hin & H)]; [discriminate H |].
  exists site. split; [exact Hin |].
  apply scrape_site_events in H.
  destruct H as [H | [H | [H | [H | [H | [(msg & H) | H]]]]]];
    try discriminate H.
  destruct H as [(s1 & h1 & Hf & Hok & H)
                | (s0 & h0 & s1 & h1 & Hf & Hb & Hsec & H)];
    apply process_page_attributes in H;
    destruct H as (-> & -> & -> & Hc & Hm & Ht);
    (repeat split; [exact Hc | exact Ht |]).
  - left. split; [exact Hm |]. split; [exact Hok | eauto].
  - right. split; [exact Hm |]. split; eauto.
Qed.

Lemma attributes_of_a_report_witness :
  exists site,
    In site (sites (bounds_app 1 1000))
    /\ JStr (u "a") = site_id site
    /\ JStr (u "https://a.example/") = site_url site
    /\ truthy EUR = true
    /\ (truthy (site_id site) = true -> truthy (JStr (u "a")) = true)
    /\ ((ends_with (u "+ok") (u "jsonld+ok") /\ is_success 200 = true
         /\ exists html,
              network_offer (JInt 7) site PrimaryHeaders = Response 200 html)
        \/ (ends_with (u "+retry") (u "jsonld+ok")
            /\ (exists html,
                  network_offer (JInt 7) site AlternateHeaders
                  = Response 200 html)
            /\ exists status0 html0,
                 network_offer (JInt 7) site PrimaryHeaders
                 = Response status0 html0
                 /\ blocking status0 = true)).
Proof.
  apply (attributes_of_a_report example_runtime (network_offer (JInt 7))
           (bounds_app 1 1000) (JStr (u "a")) (JStr (u "a"))
           (JStr (u "https://a.example/")) EUR (u "jsonld+ok") 200).
  vm_compute. do 7 right. left. reflexivity.
Defined.

(** * The cycle: discovery comes first *)

Lemma discovery_first_app (l1 l2 : list event) :
  discovery_first l1 -> discovery_first l2 -> discovery_first (l1 ++ l2).
Proof.
  intros H1 H2 before e after i Heq Hr.
  apply app_eq_app in Heq. destruct Heq as (l & [[Ha Hb] | [Ha Hb]]).
  - destruct l as [| x l'].
    + cbn [List.app] in Hb. symmetry in Hb.
      destruct (H2 [] e after i Hb Hr).
    + cbn [List.app] in Hb. injection Hb as <- _.
      apply (H1 before e l' i Ha Hr).
  - subst before. apply in_or_app. right.
    exact (H2 l e after i Hb Hr).
Qed.

Lemma discovery_first_no_report (l : list event) :
  Forall (fun e => report_site e = None) l -> discovery_first l.
Proof.
  intros H before e after i Heq Hr. subst l.
  apply Forall_app in H. destruct H as [_ H]. inversion H; subst.
  congruence.
Qed.

(** After the discovery of a site, reports about that site. *)
Lemma discovery_first_site (i : json) (head tail : list event) :
  Forall (fun e => report_site e = None) head -> In (Discovery i) head ->
  Forall (fun e => report_site e = None \/ report_site e = Some i) tail ->
  discovery_first (head ++ tail).
Proof.
  intros Hh Hd Ht before e after j Heq Hr.
  apply app_eq_app in Heq. destruct Heq as (l & [[Ha Hb] | [Ha Hb]]).
  - destruct l as [| x l'].
    + rewrite app_nil_r in Ha. subst before. cbn [List.app] in Hb.
      subst tail. inversion Ht as [| ? ? Hy _]; subst.
      destruct Hy as [Hy | Hy]; [congruence |].
      assert (j = i) by congruence. now subst.
    + cbn [List.app] in Hb. injection Hb as <- _. subst head.
      apply Forall_app in Hh. destruct Hh as [_ Hh]. inversion Hh; subst.
      congruence.
  - subst before tail. apply Forall_app in Ht. destruct Ht as [_ Ht].
    inversion Ht as [| ? ? He _]; subst.
    destruct He as [He | He]; [congruence |].
    assert (j = i) by congruence. subst. apply in_or_app. now left.
Qed.

Ltac each_event :=
  repeat first [ apply Forall_nil
               | apply Forall_cons; [cbn [report_site]; auto |] ].

Lemma process_page_report_site (rt : Builtins) (app : App) (site : Site)
                               (html : Soup) (status : Z) (hint : text) :
  Forall (fun e => report_site e = None
                   \/ report_site e = Some (site_id site))
    (fst (process_page rt app site html status hint)).
Proof.
  page_cases rt app site html; cbn [fst List.app publish_error];
    each_event.
Qed.

Lemma scrape_site_discovery_first (rt : Builtins)
    (http_get : Site -> profile -> fetch_result) (app : App) (site : Site) :
  discovery_first (fst (scrape_site rt http_get app site)).
Proof.
  site_cases http_get site.
  - pose proof (process_page_report_site rt app site html status (u "ok"))
      as Hp.
    destruct (process_page rt app site html status (u "ok")) as [evs out].
    cbn [fst] in *.
    apply (discovery_first_site (site_id site));
      [repeat constructor | cbn; tauto | exact Hp].
  - pose proof (process_page_report_site rt app site html' status'
                  (u "retry")) as Hp.
    destruct (process_page rt app site html' status' (u "retry"))
      as [evs out].
    cbn [fst] in *.
    apply (discovery_first_site (site_id site));
      [repeat constructor | cbn; tauto |].
    apply Forall_app. split; [each_event | exact Hp].
  - cbn [fst].
    apply (discovery_first_site (site_id site));
      [repeat constructor | cbn; tauto | each_event].
  - cbn [fst].
    apply (discovery_first_site (site_id site));
      [repeat constructor | cbn; tauto |
       unfold publish_error; cbn [List.app]; each_event].
  - cbn [fst].
    apply (discovery_first_site (site_id site));
      [repeat constructor | cbn; tauto |
       unfold publish_error; cbn [List.app]; each_event].
Qed.

Lemma scrape_sites_discovery_first (rt : Builtins)
    (http_get : Site -> profile -> fetch_result) (app : App)
    (l : list Site) :
  discovery_first (fst (scrape_sites rt http_get app l)).
Proof.
  induction l as [| site rest IH]; cbn [scrape_sites].
  - apply discovery_first_no_report. repeat constructor.
  - pose proof (scrape_site_discovery_first rt http_get app site) as Hs.
    destruct (scrape_site rt http_get app site) as [evs [x |]];
      cbn [fst] in *; [exact Hs |].
    destruct (scrape_sites rt http_get app rest) as [evs' out].
    cbn [fst] in *. now apply discovery_first_app.
Qed.

(** X15.  Discovery comes first.  In every cycle, whatever the network
    answers, each state, attributes and error message about a site comes
    after a discovery message for that site in the same cycle: the
    broker is never told a state of a sensor that was not announced. *)
Theorem discovery_precedes_reports (rt : Builtins)
    (http_get : Site -> profile -> fetch_result) (app : App)
    (before after : list event) (e : event) (i : json) :
  fst (scrape_once rt http_get app) = before ++ e :: after ->
  report_site e = Some i ->
  In (Discovery i) before.
Proof.
  revert before e after i. change (discovery_first
                                     (fst (scrape_once rt http_get app))).
  unfold scrape_once. destruct (sites app) as [| s l].
  - apply discovery_first_no_report. repeat constructor.
  - pose proof (scrape_sites_discovery_first rt http_get app (s :: l)) as H.
    destruct (scrape_sites rt http_get app (s :: l)) as [evs out].
    cbn [fst] in *.
    change (Log INFO (u "Starting scrape cycle.") :: evs)
      with ([Log INFO (u "Starting scrape cycle.")] ++ evs).
    apply discovery_first_app; [| exact H].
    apply discovery_first_no_report. repeat constructor.
Qed.

Lemma discovery_precedes_reports_witness :
  In (Discovery (JStr (u "a")))
     [ Log INFO (u "Starting scrape cycle.");
       Log DEBUG (u "Publishing MQTT discovery payload.");
       Discovery (JStr (u "a"));
       Log DEBUG (u "Fetching page.");
       Get (JStr (u "https://a.example/")) PrimaryHeaders;
       Log INFO (u "Publishing price update.") ].
Proof.
  apply (discovery_precedes_reports example_runtime (network_offer (JInt 7))
           (bounds_app 1 1000) _
           [ PublishAttributes (JStr (u "a")) (JStr (u "a"))
               (JStr (u "https://a.example/")) EUR (u "jsonld+ok") 200;
             Log INFO (u "Scrape cycle completed.") ]
           (PublishState (JStr (u "a")) (Some (of_Z 7)))
           (JStr (u "a")));
    [vm_compute; reflexivity | reflexivity].
Defined.

(** * The older add-on and the tracker *)








(** * Configuration: the run time, the names, the calendar wait *)

Lemma dtime_valid (hours minutes : Z) (t : Calendar.time) :
  Calendar.dtime hours minutes = Ret t ->
  Calendar.hour t = hours /\ Calendar.minute t = minutes
  /\ (0 <= hours < 24)%Z /\ (0 <= minutes < 60)%Z.
Proof.
  unfold Calendar.dtime.
  destruct ((0 <=? hours)%Z && (hours <? 24)%Z && (0 <=? minutes)%Z
            && (minutes <? 60)%Z) eqn:H; [| discriminate].
  intros E. inversion E; subst. cbn.
  repeat rewrite andb_true_iff in H.
  rewrite !Z.leb_le, !Z.ltb_lt in H. lia.
Qed.

(** X17.  The calendar wait.  In calendar mode the wait that [loop] computes
    from the clock and a valid run time is always positive and never
    more than one day, and the target lies at the run time, today when
    the run time is still ahead and tomorrow otherwise.  So
    [_wait_for_force] is never called with a wait of 0 in this mode, and
    a cycle that ends exactly at the run time waits a whole day. *)
Theorem calendar_wait_is_positive (now : Calendar.datetime)
                                  (hours minutes : Z) (t : Calendar.time) :
  Calendar.dtime hours minutes = Ret t -> Calendar.clock_reading now ->
  (0 < Calendar.wait now t <= Calendar.day)%Z
  /\ Calendar.since_midnight (Calendar.next_run now t)
     = ((hours * 3600 + minutes * 60) * 1000000)%Z
  /\ Calendar.date (Calendar.next_run now t)
     = (if (Calendar.since_midnight now
            <? (hours * 3600 + minutes * 60) * 1000000)%Z
        then Calendar.date now else Calendar.date now + 1)%Z.
Proof.
  intros Ht Hnow. apply dtime_valid in Ht.
  destruct Ht as (Hh & Hm & Hhr & Hmr).
  unfold Calendar.clock_reading in Hnow.
  unfold Calendar.wait, Calendar.next_run, Calendar.ge, Calendar.sub,
    Calendar.combine, Calendar.add_day, Calendar.day in *.
  cbn [Calendar.date Calendar.since_midnight]. rewrite Hh, Hm.
  rewrite Z.ltb_irrefl, Z.eqb_refl. cbn [orb andb].
  destruct (Z.leb_spec ((hours * 3600 + minutes * 60) * 1000000)
              (Calendar.since_midnight now)) as [Hle | Hgt];
    cbn [Calendar.date Calendar.since_midnight];
    destruct (Z.ltb_spec (Calendar.since_midnight now)
                ((hours * 3600 + minutes * 60) * 1000000));
    try lia; repeat split; lia.
Qed.

Lemma calendar_wait_is_positive_witness :
  (0 < Calendar.wait {| Calendar.date := 738000;
                        Calendar.since_midnight := 27000000000 |}
         {| Calendar.hour := 7; Calendar.minute := 30 |}
   <= Calendar.day)%Z
  /\ Calendar.wait {| Calendar.date := 738000;
                      Calendar.since_midnight := 27000000000 |}
       {| Calendar.hour := 7; Calendar.minute := 30 |} = Calendar.day.
Proof.
  split; [| reflexivity].
  refine (proj1 (calendar_wait_is_positive
                   {| Calendar.date := 738000;
                      Calendar.since_midnight := 27000000000 |}
                   7 30 {| Calendar.hour := 7; Calendar.minute := 30 |}
                   eq_refl _)).
  unfold Calendar.clock_reading, Calendar.day. simpl. lia.
Defined.

Lemma split_on_nonempty (sep : char) (s : text) : split_on sep s <> [].
Proof.
  destruct s as [| c r]; cbn [split_on]; [discriminate |].
  destruct (c =? sep)%N; [discriminate |].
  destruct (split_on sep r); discriminate.
Qed.

Lemma split_on_length (sep : char) (s : text) :
  List.length (split_on sep s)
  = S (List.length (filter (fun c => (c =? sep)%N) s)).
Proof.
  induction s as [| c r IH]; [reflexivity |].
  cbn [split_on filter]. destruct (c =? sep)%N.
  - cbn [List.length]. now rewrite IH.
  - pose proof (split_on_nonempty sep r) as Hne.
    destruct (split_on sep r) as [| part parts]; [congruence |].
    exact IH.
Qed.

Lemma split_on_absent (sep : char) (s : text) :
  Forall (fun c => c <> sep) s -> split_on sep s = [s].
Proof.
  induction 1 as [| c r Hc _ IH]; [reflexivity |].
  cbn [split_on]. apply N.eqb_neq in Hc. now rewrite Hc, IH.
Qed.

Lemma split_on_two (sep : char) (a b : text) :
  Forall (fun c => c <> sep) a -> Forall (fun c => c <> sep) b ->
  split_on sep (a ++ sep :: b) = [a; b].
Proof.
  intros Ha Hb. induction Ha as [| c r Hc _ IH].
  - cbn [List.app split_on]. rewrite N.eqb_refl.
    now rewrite (split_on_absent sep b Hb).
  - cbn [List.app split_on]. apply N.eqb_neq in Hc. now rewrite Hc, IH.
Qed.

Lemma int_of_str_decimal (s : text) :
  s <> [] -> Forall (fun c => is_decimal c = true) s ->
  int_of_str s = Ret (Z.of_N (digits_value 0 s)).
Proof.
  intros Hne Hall. unfold int_of_str.
  rewrite strip_float_no_space.
  2:{ eapply Forall_impl; [| exact Hall]. intros c Hc.
      apply (decimal_facts c Hc). }
  destruct s as [| c r]; [congruence |].
  assert (Hc : is_decimal c = true) by now inversion Hall.
  destruct (decimal_facts c Hc) as (_ & _ & _ & _ & _ & _ & H45 & H43 & _).
  cbn [split_sign]. rewrite H45, H43.
  assert (Hu : Forall (fun x => x <> 95%N) (c :: r)).
  { eapply Forall_impl; [| exact Hall]. intros x Hx.
    apply (decimal_facts x Hx). }
  rewrite (underscores_ok_absent None _ Hu), (filter_absent _ Hu).
  cbn [is_emptyb negb andb].
  assert (Hf : forallb is_decimal (c :: r) = true).
  { apply forallb_forall. intros x Hx.
    exact (proj1 (Forall_forall _ _) Hall x Hx). }
  now rewrite Hf.
Qed.

(** X18.  The run time option.  [run_time] is accepted only when it is a
    text with exactly one colon whose two parts [int] reads as an hour in
    0..23 and a minute in 0..59; the application is then in calendar mode
    and no warning is logged.  Every text of one or more digits, a colon
    and one or more digits within these ranges is accepted, so 7:5 is
    05 past 7.  Any other value that is not empty or null (no colon,
    seconds given, a number out of range, not a text) logs the warning
    and leaves the application in interval mode. *)
Theorem run_time_option (options : list (text * json)) :
  (forall t warned,
     init_run_time options = (Some t, warned) ->
     warned = false
     /\ (0 <= Calendar.hour t < 24)%Z /\ (0 <= Calendar.minute t < 60)%Z
     /\ init_mode options = Scheduler.Calendar
     /\ exists s a b,
          get (u "run_time") options = JStr s
          /\ split_on colon s = [a; b]
          /\ List.length (filter (fun c => (c =? colon)%N) s) = 1
          /\ int_of_str a = Ret (Calendar.hour t)
          /\ int_of_str b = Ret (Calendar.minute t))
  /\ (forall a b,
        get (u "run_time") options = JStr (a ++ colon :: b) ->
        a <> [] -> b <> [] ->
        forallb is_decimal a = true -> forallb is_decimal b = true ->
        (digits_value 0 a < 24)%N -> (digits_value 0 b < 60)%N ->
        init_run_time options
        = (Some {| Calendar.hour := Z.of_N (digits_value 0 a);
                   Calendar.minute := Z.of_N (digits_value 0 b) |}, false))
  /\ (truthy (get (u "run_time") options) = true ->
      fst (init_run_time options) = None ->
      init_run_time options = (None, true)
      /\ init_mode options = Scheduler.Interval).
Proof.
  split; [| split].
  - intros t warned H. unfold init_mode. rewrite H. cbn [fst].
    unfold init_run_time in H.
    destruct (truthy (get (u "run_time") options)); [| discriminate].
    destruct (run_time_of (get (u "run_time") options)) as [t' | e] eqn:Hr;
      [| discriminate].
    inversion H; subst. split; [reflexivity |].
    unfold run_time_of in Hr.
    destruct (get (u "run_time") options) as [| | | | s | |];
      try discriminate.
    pose proof (split_on_length colon s) as Hlen.
    destruct (split_on colon s) as [| a [| b [| c rest]]] eqn:Hsp;
      try discriminate.
    destruct (int_of_str a) as [hours | e] eqn:Ha; [| discriminate].
    destruct (int_of_str b) as [minutes | e] eqn:Hb; [| discriminate].
    cbn [bind] in Hr. apply dtime_valid in Hr.
    destruct Hr as (Hh & Hm & Hhr & Hmr). rewrite Hh, Hm.
    repeat split; try lia.
    exists s, a, b. cbn [List.length] in Hlen.
    repeat split; try reflexivity; try assumption. lia.
  - intros a b Hget Ha Hb Hda Hdb Hah Hbm. unfold init_run_time.
    rewrite Hget.
    assert (Ht : truthy (JStr (a ++ colon :: b)) = true)
      by (destruct a; reflexivity).
    rewrite Ht. unfold run_time_of.
    pose proof (decimal_chars a Hda) as Hac.
    pose proof (decimal_chars b Hdb) as Hbc.
    rewrite split_on_two.
    2,3: (eapply Forall_impl; [| eassumption]; intros c Hc ->;
          discriminate Hc).
    rewrite (int_of_str_decimal a Ha Hac), (int_of_str_decimal b Hb Hbc).
    cbn [bind]. unfold Calendar.dtime.
    assert (Hok : (0 <=? Z.of_N (digits_value 0 a))%Z
                  && (Z.of_N (digits_value 0 a) <? 24)%Z
                  && (0 <=? Z.of_N (digits_value 0 b))%Z
                  && (Z.of_N (digits_value 0 b) <? 60)%Z = true).
    { repeat rewrite andb_true_iff. rewrite !Z.leb_le, !Z.ltb_lt. lia. }
    now rewrite Hok.
  - intros Ht Hnone. unfold init_mode. rewrite Hnone.
    split; [| reflexivity].
    unfold init_run_time in *. rewrite Ht in *.
    destruct (run_time_of (get (u "run_time") options)); [discriminate |].
    reflexivity.
Qed.

Lemma run_time_option_witness :
  init_run_time [(u "run_time", JStr (u "7:5"))]
  = (Some {| Calendar.hour := 7; Calendar.minute := 5 |}, false)
  /\ init_mode [(u "run_time", JStr (u "7:5"))] = Scheduler.Calendar
  /\ init_run_time [(u "run_time", JStr (u "07:30:00"))] = (None, true)
  /\ init_mode [(u "run_time", JStr (u "07:30:00"))] = Scheduler.Interval.
Proof.
  split; [| split].
  - refine (proj1 (proj2 (run_time_option [(u "run_time", JStr (u "7:5"))]))
              (u "7") (u "5") eq_refl _ _ eq_refl eq_refl _ _);
      try discriminate; vm_compute; reflexivity.
  - refine (proj1 (proj2 (proj2 (proj2
              (proj1 (run_time_option [(u "run_time", JStr (u "7:5"))])
                 {| Calendar.hour := 7; Calendar.minute := 5 |} false
                 eq_refl))))).
  - exact (proj2 (proj2 (run_time_option
                           [(u "run_time", JStr (u "07:30:00"))]))
             eq_refl eq_refl).
Defined.

Lemma lstrip_char_head (c : char) (s : text) :
  hd_error (lstrip_char c s) <> Some c.
Proof.
  induction s as [| x r IH]; cbn [lstrip_char]; [discriminate |].
  destruct (x =? c)%N eqn:Hx; [exact IH |].
  cbn [hd_error]. intros E. inversion E; subst.
  rewrite N.eqb_refl in Hx. discriminate.
Qed.

Lemma lstrip_char_suffix (c : char) (s : text) :
  exists k, s = k ++ lstrip_char c s.
Proof.
  induction s as [| x r IH]; [now exists [] |].
  cbn [lstrip_char]. destruct (x =? c)%N; [| now exists []].
  destruct IH as (k & Hk). exists (x :: k). cbn [List.app]. now f_equal.
Qed.

Lemma hd_error_app {A : Type} (a b : list A) :
  a <> [] -> hd_error (a ++ b) = hd_error a.
Proof. destruct a; [congruence | reflexivity]. Qed.

Lemma strip_char_ends (c : char) (s : text) :
  strip_char c s <> [] ->
  hd_error (strip_char c s) <> Some c
  /\ hd_error (rev (strip_char c s)) <> Some c.
Proof.
  unfold strip_char. intros Hne.
  set (x := lstrip_char c s) in *.
  destruct (lstrip_char_suffix c (rev x)) as (k & Hk).
  set (y := lstrip_char c (rev x)) in *.
  split.
  - assert (Hx : x = rev y ++ rev k).
    { rewrite <- rev_app_distr, <- Hk. now rewrite rev_involutive. }
    rewrite <- (hd_error_app (rev y) (rev k) Hne), <- Hx.
    apply lstrip_char_head.
  - rewrite rev_involutive. apply lstrip_char_head.
Qed.

Lemma lstrip_head (s : text) (c : char) :
  hd_error (lstrip s) = Some c -> is_space c = false.
Proof.
  induction s as [| x r IH]; cbn [lstrip]; [discriminate |].
  destruct (is_space x) eqn:Hx; [exact IH |].
  cbn [hd_error]. intros E. now inversion E; subst.
Qed.

Lemma lstrip_suffix (s : text) : exists k, s = k ++ lstrip s.
Proof.
  induction s as [| x r IH]; [now exists [] |].
  cbn [lstrip]. destruct (is_space x); [| now exists []].
  destruct IH as (k & Hk). exists (x :: k). cbn [List.app]. now f_equal.
Qed.

Lemma strip_ends (s : text) (c : char) :
  (hd_error (strip s) = Some c -> is_space c = false)
  /\ (hd_error (rev (strip s)) = Some c -> is_space c = false).
Proof.
  unfold strip, rstrip.
  set (x := lstrip s).
  destruct (lstrip_suffix (rev x)) as (k & Hk).
  set (y := lstrip (rev x)) in *.
  split.
  - intros H.
    assert (Hne : rev y <> []) by (intros E; rewrite E in H; discriminate).
    assert (Hx : x = rev y ++ rev k).
    { rewrite <- rev_app_distr, <- Hk. now rewrite rev_involutive. }
    rewrite <- (hd_error_app (rev y) (rev k) Hne), <- Hx in H.
    eapply lstrip_head. exact H.
  - rewrite rev_involutive. apply lstrip_head.
Qed.

(** X19.  The names are never empty.  The base topic that [App.__init__]
    keeps is never empty and neither begins nor ends with a slash, so
    the topics built from it have no empty level at the join; when the
    option is missing, or is only white space and slashes, it is
    [price_tracker].  The product name is never empty and neither begins
    nor ends with white space; when the option is missing, null or
    blank, it is [Website Price Tracker]. *)
Theorem names_are_never_empty (options : list (text * json)) :
  (forall t, init_base_topic options = Ret t ->
     t <> [] /\ hd_error t <> Some slash /\ hd_error (rev t) <> Some slash)
  /\ (forall n c, init_product_name options = Ret n ->
        n <> []
        /\ (hd_error n = Some c -> is_space c = false)
        /\ (hd_error (rev n) = Some c -> is_space c = false))
  /\ (lookup (u "base_topic") options = None ->
      init_base_topic options = Ret (u "price_tracker"))
  /\ (truthy (get (u "product_name") options) = false ->
      init_product_name options = Ret (u "Website Price Tracker")).
Proof.
  split; [| split; [| split]].
  - intros t. unfold init_base_topic.
    destruct (get_default (u "base_topic") (JStr (u "price_tracker")) options)
      as [| | | | s | |]; try discriminate.
    intros H. inversion H as [Ht]. clear H.
    destruct (strip_char slash (strip s)) as [| x r] eqn:Hs; cbn [is_emptyb].
    + repeat split; discriminate.
    + rewrite <- Hs. split; [rewrite Hs; discriminate |].
      apply strip_char_ends. rewrite Hs. discriminate.
  - intros n c. unfold init_product_name.
    destruct (py_or (get (u "product_name") options) (JStr []))
      as [| | | | s | |]; try discriminate.
    intros H. inversion H as [Hn]. clear H.
    destruct (strip s) as [| x r] eqn:Hs; cbn [is_emptyb].
    + split; [discriminate |]. split; intros E; vm_compute in E;
        inversion E; reflexivity.
    + rewrite <- Hs. split; [rewrite Hs; discriminate |]. apply strip_ends.
  - intros H. unfold init_base_topic, get_default. now rewrite H.
  - intros H. unfold init_product_name, py_or. now rewrite H.
Qed.

Lemma names_are_never_empty_witness :
  init_base_topic [(u "base_topic", JStr (u " /home/prices// "))]
  = Ret (u "home/prices")
  /\ u "home/prices" <> []
  /\ hd_error (u "home/prices") <> Some slash
  /\ hd_error (rev (u "home/prices")) <> Some slash
  /\ init_base_topic [] = Ret (u "price_tracker")
  /\ init_product_name [(u "product_name", JNull)]
     = Ret (u "Website Price Tracker").
Proof.
  split; [reflexivity |].
  pose proof (names_are_never_empty
                [(u "base_topic", JStr (u " /home/prices// "))]) as H.
  destruct (proj1 H (u "home/prices") eq_refl) as (H1 & H2 & H3).
  split; [exact H1 |]. split; [exact H2 |]. split; [exact H3 |].
  split.
  - exact (proj1 (proj2 (proj2 (names_are_never_empty []))) eq_refl).
  - exact (proj2 (proj2 (proj2 (names_are_never_empty
                                  [(u "product_name", JNull)]))) eq_refl).
Defined.

(** * Configuration: the sites *)







(** * The log level *)





(** * The scheduler: scheduled cycles and the timer *)

Import Scheduler.

Lemma step_scheduled (c : config) (st st' : state) (l : label) :
  step c st l = Some st' ->
  scheduled_cycles st' + b2n (timer_noticed st')
  <= scheduled_cycles st + b2n (timer_noticed st)
     + b2n (is_timer l) + b2n (unprompted c l).
Proof.
  unfold step, scheduled_cycles, timer_noticed, unprompted.
  destruct st as [ev pend pt started0].
  destruct c as [md iv].
  destruct l; destruct pt as [| sd fd | res | r |];
    cbn [at_point started force_event pending cfg_mode];
    try discriminate;
    try (intros H; injection H as <-);
    sched_unfold;
    cbn [at_point started force_event pending cfg_mode scan_interval];
    try (destruct ev as [[|] |]; cbn; lia).
  all: try (destruct sd; try discriminate).
  all: try (destruct fd; try discriminate).
  all: try (destruct res).
  all: try (destruct md).
  all: try (destruct ev as [[|] |]).
  all: try (destruct pend).
  all: try (destruct (0 <? iv)%Z).
  all: cbn in *; try discriminate;
    try (intros H; injection H as <-); cbn; try lia.
Qed.

Lemma run_scheduled (c : config) (ls : list label) (st st' : state) :
  run c st ls = Some st' ->
  scheduled_cycles st' + b2n (timer_noticed st')
  <= scheduled_cycles st + b2n (timer_noticed st)
     + count_label is_timer ls + count_label (unprompted c) ls.
Proof.
  revert st. induction ls as [| l r IH]; intros st; cbn [run].
  - intros H. injection H as <-. unfold count_label. cbn. lia.
  - destruct (step c st l) as [st1 |] eqn:Hs; [| discriminate].
    intros H. apply IH in H. apply step_scheduled in Hs.
    unfold count_label in *. cbn [filter].
    destruct (is_timer l), (unprompted c l); cbn [List.length b2n] in *; lia.
Qed.

(** X22.  Scheduled cycles need the timer.  From the start of the
    application, every scheduled cycle is accounted for: the scheduled
    cycles started never outnumber the timer expiries plus, in interval
    mode, the start of the loop, the ends of a back-off and, when
    [scan_interval] is not positive, the returns of a cycle.  In calendar
    mode there is therefore no scheduled cycle without an expiry of its
    timer: refresh requests, exceptions and back-offs never cause one. *)
Theorem scheduled_cycles_need_the_timer (c : config) (ls : list label)
                                        (st : state) :
  run c initial ls = Some st ->
  scheduled_cycles st
  <= count_label is_timer ls + count_label (unprompted c) ls
  /\ (cfg_mode c = Calendar ->
      scheduled_cycles st <= count_label is_timer ls).
Proof.
  intros H. apply run_scheduled in H.
  unfold initial, scheduled_cycles, timer_noticed in H.
  cbn [started at_point filter List.length b2n] in H.
  split; [unfold scheduled_cycles; lia |].
  intros Hc.
  assert (Hu : count_label (unprompted c) ls = 0).
  { unfold count_label, unprompted. rewrite Hc.
    clear. induction ls as [| l r IH]; [reflexivity |].
    cbn [filter]. exact IH. }
  unfold scheduled_cycles. lia.
Qed.

Lemma scheduled_cycles_need_the_timer_witness :
  let c := {| cfg_mode := Calendar; scan_interval := 1800 |} in
  let ls := [Start; Refresh; ForceTaskDone; Resume; Resume; ScrapeRaises;
             BackoffOver; TimerFires; Resume; Resume] in
  run c initial ls
  = Some {| force_event := Some false; pending := 0;
            at_point := AwaitScrape Scheduled;
            started := [Scheduled; Force] |}
  /\ 1 <= count_label is_timer ls + count_label (unprompted c) ls
  /\ 1 <= count_label is_timer ls.
Proof.
  cbv zeta. split; [reflexivity |].
  pose proof (scheduled_cycles_need_the_timer
                {| cfg_mode := Calendar; scan_interval := 1800 |}
                [Start; Refresh; ForceTaskDone; Resume; Resume; ScrapeRaises;
                 BackoffOver; TimerFires; Resume; Resume]
                {| force_event := Some false; pending := 0;
                   at_point := AwaitScrape Scheduled;
                   started := [Scheduled; Force] |} eq_refl) as [H1 H2].
  split; [exact H1 | exact (H2 eq_refl)].
Defined.

(** X23.  The timer and a refresh together.  When the timer of a wait
    expires and a refresh request arrives before the loop resumes, the
    order in which the event loop completes the two tasks decides what
    runs.  If the loop resumes before the force task completes, the
    scheduled cycle runs with the request still latched, and a force
    cycle follows it at once.  If the force task completes first, one
    force cycle serves both and the request is consumed.  In neither
    order is the request lost, and never do more than two cycles run. *)
Theorem timer_and_refresh_together (c : config) (st : state) :
  at_point st = AwaitWait false false -> force_event st = Some false ->
  pending st = 0 ->
  (exists st1 st2,
     run c st [TimerFires; Refresh; Resume; Resume] = Some st1
     /\ at_point st1 = AwaitScrape Scheduled
     /\ started st1 = Scheduled :: started st
     /\ latched st1 = true
     /\ run c st1 [ScrapeReturns] = Some st2
     /\ at_point st2 = AwaitScrape Force
     /\ started st2 = Force :: Scheduled :: started st
     /\ latched st2 = false)
  /\ (exists st1,
        run c st [TimerFires; Refresh; ForceTaskDone; Resume] = Some st1
        /\ at_point st1 = AwaitScrape Force
        /\ started st1 = Force :: started st
        /\ latched st1 = false).
Proof.
  destruct st as [ev pend pt started0]. cbn [at_point force_event pending].
  intros -> -> ->. split.
  - eexists. eexists. cbn. repeat split.
  - eexists. cbn. repeat split.
Qed.

Lemma timer_and_refresh_together_witness :
  let c := {| cfg_mode := Calendar; scan_interval := 1800 |} in
  let waiting :=
    {| force_event := Some false; pending := 0;
       at_point := AwaitWait false false; started := [Force] |} in
  run c waiting [TimerFires; Refresh; Resume; Resume; ScrapeReturns]
  = Some {| force_event := Some false; pending := 0;
            at_point := AwaitScrape Force;
            started := [Force; Scheduled; Force] |}
  /\ exists st1,
       run c waiting [TimerFires; Refresh; ForceTaskDone; Resume] = Some st1
       /\ at_point st1 = AwaitScrape Force
       /\ started st1 = Force :: started waiting
       /\ latched st1 = false.
Proof.
  cbv zeta. split; [reflexivity |].
  exact (proj2 (timer_and_refresh_together
                  {| cfg_mode := Calendar; scan_interval := 1800 |}
                  {| force_event := Some false; pending := 0;
                     at_point := AwaitWait false false; started := [Force] |}
                  eq_refl eq_refl eq_refl)).
Defined.

Lemma returns_without_wait (c : config) (st : state) (r : reason) :
  cfg_mode c = Interval -> (scan_interval c <= 0)%Z ->
  at_point st = AwaitScrape r -> latched st = false ->
  exists st',
    step c st ScrapeReturns = Some st'
    /\ at_point st' = AwaitScrape Scheduled
    /\ started st' = Scheduled :: started st
    /\ latched st' = false.
Proof.
  destruct c as [md iv]. destruct st as [ev pend pt started0].
  cbn [cfg_mode scan_interval at_point]. intros -> Hiv -> Hl.
  unfold latched, is_set in Hl. cbn [force_event pending] in Hl.
  apply orb_false_iff in Hl. destruct Hl as [Hset Hp].
  apply negb_false_iff, Nat.eqb_eq in Hp. subst pend.
  assert (Ht : (0 <? iv)%Z = false) by (apply Z.ltb_ge; exact Hiv).
  eexists. cbn [step at_point]. sched_unfold.
  cbn [force_event pending at_point started cfg_mode scan_interval].
  rewrite Ht.
  destruct ev as [[|] |]; [discriminate Hset | |]; cbn; repeat split;
    reflexivity.
Qed.

(** X24.  An interval that is not positive.  In interval mode with a
    [scan_interval] of 0 or less, [_wait_for_force] returns at once: as
    long as no refresh is requested, every return of a cycle starts the
    next scheduled cycle without any wait, so any number of cycles run
    back to back with no timer in between.  With a positive
    [scan_interval] the return of a cycle is followed by a wait. *)
Theorem nonpositive_interval_never_waits (c : config) (st : state)
                                         (r : reason) (n : nat) :
  cfg_mode c = Interval ->
  at_point st = AwaitScrape r -> latched st = false ->
  ((scan_interval c <= 0)%Z ->
   exists st',
     run c st (List.repeat ScrapeReturns (S n)) = Some st'
     /\ at_point st' = AwaitScrape Scheduled
     /\ started st' = List.repeat Scheduled (S n) ++ started st)
  /\ ((0 < scan_interval c)%Z ->
      exists st',
        step c st ScrapeReturns = Some st'
        /\ at_point st' = AwaitWait false false
        /\ started st' = started st).
Proof.
  intros Hm Hat Hl. split.
  - intros Hiv. revert st r Hat Hl.
    induction n as [| n IH]; intros st r Hat Hl.
    + destruct (returns_without_wait c st r Hm Hiv Hat Hl)
        as (st' & Hs & Hp & Hst & _).
      exists st'. cbn [List.repeat run]. rewrite Hs. auto.
    + destruct (returns_without_wait c st r Hm Hiv Hat Hl)
        as (st1 & Hs & Hp & Hst & Hl1).
      destruct (IH st1 Scheduled Hp Hl1) as (st' & Hr & Hp' & Hst').
      exists st'. change (List.repeat ScrapeReturns (S (S n)))
        with (ScrapeReturns :: List.repeat ScrapeReturns (S n)).
      cbn [run]. rewrite Hs. split; [exact Hr |]. split; [exact Hp' |].
      rewrite Hst', Hst.
      change (List.repeat Scheduled (S (S n)))
        with (Scheduled :: List.repeat Scheduled (S n)).
      change (Scheduled :: started st) with ([Scheduled] ++ started st).
      rewrite app_assoc. f_equal.
      clear. induction (S n) as [| k IHk]; [reflexivity |].
      cbn [List.repeat List.app]. now rewrite IHk.
  - intros Hiv. destruct c as [md iv]. destruct st as [ev pend pt started0].
    cbn [cfg_mode scan_interval at_point] in *. subst md pt.
    unfold latched, is_set in Hl. cbn [force_event pending] in Hl.
    apply orb_false_iff in Hl. destruct Hl as [Hset Hp].
    assert (Ht : (0 <? iv)%Z = true) by (apply Z.ltb_lt; exact Hiv).
    eexists. cbn [step at_point]. sched_unfold.
    cbn [force_event pending at_point started cfg_mode scan_interval].
    rewrite Ht.
    destruct ev as [[|] |]; [discriminate Hset | |]; cbn; repeat split;
    reflexivity.
Qed.

Lemma nonpositive_interval_never_waits_witness :
  let c := {| cfg_mode := Interval; scan_interval := 0 |} in
  let scraping :=
    {| force_event := Some false; pending := 0;
       at_point := AwaitScrape Scheduled; started := [Scheduled] |} in
  exists st',
    run c scraping [ScrapeReturns; ScrapeReturns; ScrapeReturns] = Some st'
    /\ at_point st' = AwaitScrape Scheduled
    /\ started st' = [Scheduled; Scheduled; Scheduled] ++ started scraping.
Proof.
  cbv zeta.
  refine (proj1 (nonpositive_interval_never_waits
                   {| cfg_mode := Interval; scan_interval := 0 |}
                   {| force_event := Some false; pending := 0;
                      at_point := AwaitScrape Scheduled;
                      started := [Scheduled] |}
                   Scheduled 2 eq_refl eq_refl eq_refl) _).
  cbn. lia.
Defined.
